(** * MoveFlow Aptos MCP client: hub, dispatcher and numeric-safety transform

    A shallow embedding of [src/agent_client.py]: the JSON value trees the
    client exchanges with tool servers, the big-integer transform
    ([convert_bigint], [convert_args_bigint]), argument preprocessing
    ([_preprocess_tool_args]) on an explicit object store, the connection
    registry [McpHub] and the response loops of the two AI services. *)

From Stdlib Require Import ZArith Lia Bool Ascii.
From Stdlib Require Import Floats.SpecFloat.
From stdpp Require Import gmap strings list fin_maps pretty.

Open Scope string_scope.
Open Scope Z_scope.

#[local] Set Warnings "-register-all".

(** ** Python values *)

(** What [json.loads] produces and what tools receive: [None], booleans,
    unbounded integers, IEEE doubles, strings, lists and dicts. A dict keeps
    its insertion order, so it is an association list (keys unique). *)
Inductive value : Type :=
| VNone
| VBool (b : bool)
| VInt (z : Z)
| VFloat (f : spec_float)
| VStr (s : string)
| VList (items : list value)
| VDict (items : list (string * value)).

Section value_induction.
Variable P : value -> Prop.
Hypothesis HNone : P VNone.
Hypothesis HBool : forall b, P (VBool b).
Hypothesis HInt : forall z, P (VInt z).
Hypothesis HFloat : forall f, P (VFloat f).
Hypothesis HStr : forall s, P (VStr s).
Hypothesis HList : forall items, Forall P items -> P (VList items).
Hypothesis HDict :
  forall items, Forall (fun kv => P (snd kv)) items -> P (VDict items).

Fixpoint value_nested_ind (v : value) : P v :=
  match v with
  | VNone => HNone
  | VBool b => HBool b
  | VInt z => HInt z
  | VFloat f => HFloat f
  | VStr s => HStr s
  | VList items =>
      HList items
        ((fix go (l : list value) : Forall P l :=
            match l with
            | [] => List.Forall_nil P
            | x :: l' => @List.Forall_cons _ P x l' (value_nested_ind x) (go l')
            end) items)
  | VDict items =>
      HDict items
        ((fix go (l : list (string * value))
            : Forall (fun kv => P (snd kv)) l :=
            match l with
            | [] => List.Forall_nil _
            | kv :: l' =>
                @List.Forall_cons _ (fun kv => P (snd kv)) kv l'
                  (value_nested_ind (snd kv)) (go l')
            end) items)
  end.
End value_induction.

(** The largest integer a JavaScript number carries exactly, 2^53 - 1: the
    literal [9007199254740991] of the source. *)
Definition MAX_SAFE_INTEGER : Z := 9007199254740991.

(** [abs(f) > n] for a float [f] and an integer [n]. Python compares a float
    with an int exactly: infinities are larger than every integer, a NaN
    compares false, and a finite float is the rational [m * 2^e]. *)
Definition float_abs_gt (f : spec_float) (n : Z) : bool :=
  match f with
  | S754_zero _ => n <? 0
  | S754_infinity _ => true
  | S754_nan => false
  | S754_finite _ m e =>
      if 0 <=? e then n <? Z.pos m * 2 ^ e
      else n * 2 ^ (- e) <? Z.pos m
  end.

(** [isinstance(obj, (int, float)) and abs(obj) > 9007199254740991].
    [bool] is a subclass of [int] in Python, with [abs(True) = 1]. *)
Definition exceeds_safe (obj : value) : bool :=
  match obj with
  | VBool b => MAX_SAFE_INTEGER <? Z.abs (Z.b2z b)
  | VInt z => MAX_SAFE_INTEGER <? Z.abs z
  | VFloat f => float_abs_gt f MAX_SAFE_INTEGER
  | _ => false
  end.

(** Is the value a scalar (not a list, not a dict)? *)
Definition is_scalar (v : value) : bool :=
  match v with
  | VList _ | VDict _ => false
  | _ => true
  end.

(** Does the tree hold no number beyond the safe range? *)
Fixpoint all_safe (v : value) : bool :=
  match v with
  | VList items => forallb all_safe items
  | VDict items => forallb (fun kv => all_safe (snd kv)) items
  | _ => negb (exceeds_safe v)
  end.

(** A decimal numeral: an optional minus sign, one or more digits, and
    optionally a point followed by one or more digits. *)
Definition is_digit (c : ascii) : bool :=
  let n := nat_of_ascii c in (48 <=? n)%nat && (n <=? 57)%nat.

Fixpoint all_digits (s : string) : bool :=
  match s with
  | EmptyString => true
  | String c s' => is_digit c && all_digits s'
  end.

Fixpoint digits_then_fraction (seen : bool) (s : string) : bool :=
  match s with
  | EmptyString => seen
  | String c s' =>
      if is_digit c then digits_then_fraction true s'
      else if Ascii.eqb c "."%char then
        seen && negb (String.eqb s' "") && all_digits s'
      else false
  end.

Definition is_decimal_numeral (s : string) : bool :=
  match s with
  | String "-"%char s' => digits_then_fraction false s'
  | _ => digits_then_fraction false s
  end.

(** ** Exceptions and results *)

(** The exceptions that reach this program from an [await]: a timeout of
    [asyncio.wait_for], a cancellation, and every other error, carried with
    its [str(e)] text. [asyncio.CancelledError] derives from [BaseException]
    and not from [Exception] (Python 3.8 and later, which the [mcp] package
    requires), so [except Exception] does not catch it. *)
Inductive exn : Type :=
| TimeoutError
| CancelledError
| Exception (msg : string).

(** [isinstance(e, Exception)]. *)
Definition is_Exception (e : exn) : bool :=
  match e with
  | CancelledError => false
  | TimeoutError | Exception _ => true
  end.

(** [str(e)]. *)
Definition exn_str (e : exn) : string :=
  match e with
  | Exception msg => msg
  | TimeoutError | CancelledError => ""
  end.

(** A Python call either returns or raises. *)
Inductive outcome (A : Type) : Type :=
| Returned (a : A)
| Raised (e : exn).
Arguments Returned {A} a.
Arguments Raised {A} e.

(** ** The object store *)

(** Lists and dicts are objects with identity: two names may denote the same
    list. A store value is a scalar or a reference; the store is the sequence
    of allocated objects and a location is an index into it, so allocation
    appends. *)
Abbreviation loc := nat.

Inductive hval : Type :=
| HNone
| HBool (b : bool)
| HInt (z : Z)
| HFloat (f : spec_float)
| HStr (s : string)
| HRef (l : loc).

Inductive hobj : Type :=
| OList (items : list hval)
| ODict (items : list (string * hval)).

Abbreviation heap := (list hobj).

(** ** The Python runtime *)

(** Builtins of the interpreter and its standard library that the program
    calls and that are no part of it. *)
Class PyRuntime : Type := {
  (** [repr] of a finite non-zero double: the shortest text that reads back
      as the same double. *)
  float_repr_finite : bool -> positive -> Z -> string;
  (** [str] of a list or dict object; it reads the store. *)
  container_repr : heap -> loc -> string;
  (** [json.loads]: it parses a text and allocates the parsed value, or
      raises [JSONDecodeError]. *)
  json_loads : string -> heap -> heap * outcome hval
}.

Section numeric_safety.
Context `{PyRuntime}.

(** [str(f)] for a float. *)
Definition float_str (f : spec_float) : string :=
  match f with
  | S754_zero false => "0.0"
  | S754_zero true => "-0.0"
  | S754_infinity false => "inf"
  | S754_infinity true => "-inf"
  | S754_nan => "nan"
  | S754_finite s m e => float_repr_finite s m e
  end.

(** [str(obj)] for a scalar: an integer prints as its decimal digits with
    a leading minus when negative. The transform applies it to numbers
    only; containers never reach it. *)
Definition scalar_str (obj : value) : string :=
  match obj with
  | VNone => "None"
  | VBool true => "True"
  | VBool false => "False"
  | VInt z => pretty z
  | VFloat f => float_str f
  | VStr s => s
  | VList _ | VDict _ => ""
  end.

(** [convert_bigint], the local function of
    [OpenAIService._format_tool_result]. The comprehensions build new
    containers; nothing is updated in place. *)
Fixpoint convert_bigint (obj : value) : value :=
  match obj with
  | VDict items =>
      VDict (map (fun kv => (fst kv, convert_bigint (snd kv))) items)
  | VList items => VList (map convert_bigint items)
  | _ => if exceeds_safe obj then VStr (scalar_str obj) else obj
  end.

(** [convert_args_bigint], the local function of
    [BaseAIService._call_tool]: the same text under another name. *)
Fixpoint convert_args_bigint (obj : value) : value :=
  match obj with
  | VDict items =>
      VDict (map (fun kv => (fst kv, convert_args_bigint (snd kv))) items)
  | VList items => VList (map convert_args_bigint items)
  | _ => if exceeds_safe obj then VStr (scalar_str obj) else obj
  end.

(** The transform as the specification words it, a relation between a
    tree and its image: integers beyond the safe range become their
    decimal digits, floats beyond it become [str] of the float, all other
    scalars stay, and containers keep their shape and keys. *)
Inductive safe_image : value -> value -> Prop :=
| si_big_int z :
    MAX_SAFE_INTEGER < Z.abs z ->
    safe_image (VInt z) (VStr (pretty z))
| si_big_float f :
    float_abs_gt f MAX_SAFE_INTEGER = true ->
    safe_image (VFloat f) (VStr (float_str f))
| si_scalar v :
    is_scalar v = true -> exceeds_safe v = false -> safe_image v v
| si_list items items' :
    Forall2 safe_image items items' ->
    safe_image (VList items) (VList items')
| si_dict items items' :
    Forall2 (fun kv kv' => fst kv = fst kv' /\ safe_image (snd kv) (snd kv'))
      items items' ->
    safe_image (VDict items) (VDict items').
End numeric_safety.

(** ** Strings and dicts *)

(** [s.lower()] on the ASCII letters. The result is only compared with
    ["true"], and no character outside ASCII lowers to one of its letters. *)
Definition ascii_lower (c : ascii) : ascii :=
  let n := nat_of_ascii c in
  if (65 <=? n)%nat && (n <=? 90)%nat then ascii_of_nat (n + 32) else c.

Fixpoint str_lower (s : string) : string :=
  match s with
  | EmptyString => EmptyString
  | String c s' => String (ascii_lower c) (str_lower s')
  end.

(** Strings are held as UTF-8 bytes; iterating a Python string yields its
    code points, one to four bytes each, told by the leading byte. *)
Definition utf8_width (c : ascii) : nat :=
  let n := nat_of_ascii c in
  if (n <? 192)%nat then 1%nat
  else if (n <? 224)%nat then 2%nat
  else if (n <? 240)%nat then 3%nat
  else 4%nat.

Fixpoint str_take (n : nat) (s : string) : string :=
  match n, s with
  | S n', String c s' => String c (str_take n' s')
  | _, _ => EmptyString
  end.

Fixpoint str_drop (n : nat) (s : string) : string :=
  match n, s with
  | S n', String _ s' => str_drop n' s'
  | _, _ => s
  end.

Fixpoint py_chars_fuel (fuel : nat) (s : string) : list string :=
  match fuel, s with
  | S fuel', String c _ =>
      let w := utf8_width c in
      str_take w s :: py_chars_fuel fuel' (str_drop w s)
  | _, _ => []
  end.

(** The characters of a string; each step consumes at least one byte, so
    the byte length is fuel enough. *)
Definition py_chars (s : string) : list string :=
  py_chars_fuel (String.length s) s.

(** [d.get(k)] / [k in d] on an insertion-ordered dict. *)
Fixpoint dict_get {A : Type} (k : string) (d : list (string * A)) : option A :=
  match d with
  | [] => None
  | (k', v) :: d' => if String.eqb k k' then Some v else dict_get k d'
  end.

(** [d[k] = v]: an existing key keeps its position, a new key goes last. *)
Fixpoint dict_set {A : Type} (k : string) (v : A) (d : list (string * A))
  : list (string * A) :=
  match d with
  | [] => [(k, v)]
  | (k', v') :: d' =>
      if String.eqb k k' then (k, v) :: d' else (k', v') :: dict_set k v d'
  end.

(** ** Stateful computations *)

(** A computation reads and updates a state and returns or raises. *)
Definition ST (S A : Type) : Type := S -> S * outcome A.

Definition ret {S A : Type} (a : A) : ST S A := fun s => (s, Returned a).

Definition raise {S A : Type} (e : exn) : ST S A := fun s => (s, Raised e).

Definition bind {S A B : Type} (m : ST S A) (k : A -> ST S B) : ST S B :=
  fun s =>
    match m s with
    | (s', Returned a) => k a s'
    | (s', Raised e) => (s', Raised e)
    end.

Notation "x <- m ;; k" := (bind m (fun x => k))
  (at level 100, m at next level, right associativity).
Notation "m ;;; k" := (bind m (fun _ => k))
  (at level 100, right associativity).

(** [try: body  except <classes> as e: handler]. An exception of the
    handler itself is not caught. *)
Definition try_except {S A : Type} (body : ST S A) (catches : exn -> bool)
    (handler : exn -> ST S A) : ST S A :=
  fun s =>
    match body s with
    | (s', Raised e) => if catches e then handler e s' else (s', Raised e)
    | r => r
    end.

(** [try: body  finally: fin]. The final block always runs; the result is
    the body's unless the final block raises. *)
Definition try_finally {S A : Type} (body : ST S A) (fin : ST S unit)
  : ST S A :=
  fun s =>
    match body s with
    | (s', r) =>
        match fin s' with
        | (s'', Returned _) => (s'', r)
        | (s'', Raised e) => (s'', Raised e)
        end
    end.

(** The answer of the outside world to a request. *)
Definition reply {S A : Type} (r : outcome A) : ST S A := fun s => (s, r).

Definition gets {S A : Type} (f : S -> A) : ST S A :=
  fun s => (s, Returned (f s)).

Definition modify {S : Type} (f : S -> S) : ST S unit :=
  fun s => (f s, Returned tt).

(** ** Computations on the object store *)

Definition M : Type -> Type := ST heap.

(** A [for] loop over a literal list of names. *)
Fixpoint for_each {S A : Type} (xs : list A) (body : A -> ST S unit)
  : ST S unit :=
  match xs with
  | [] => ret tt
  | x :: xs' => body x ;;; for_each xs' body
  end.

(** Creating a new object: it gets the next free location. *)
Definition alloc (o : hobj) : M loc :=
  fun h => ((h ++ [o])%list, Returned (length h)).

(** A reference held by the program always denotes an object; the error
    here is the model's, for a store that lacks it. *)
Definition load (l : loc) : M hobj :=
  fun h =>
    match h !! l with
    | Some o => (h, Returned o)
    | None => (h, Raised (Exception "dangling reference"))
    end.

(** [type(v).__name__]. *)
Definition type_name (h : heap) (v : hval) : string :=
  match v with
  | HNone => "NoneType"
  | HBool _ => "bool"
  | HInt _ => "int"
  | HFloat _ => "float"
  | HStr _ => "str"
  | HRef l => match h !! l with Some (ODict _) => "dict" | _ => "list" end
  end.

(** [field in obj]: key membership for a dict, element membership for a
    list (an element equals the name only if it is that string). *)
Definition hval_is_str (s : string) (v : hval) : bool :=
  match v with
  | HStr s' => String.eqb s s'
  | _ => false
  end.

Definition contains (p : loc) (field : string) : M bool :=
  o <- load p ;;
  match o with
  | ODict items => ret (match dict_get field items with Some _ => true | None => false end)
  | OList items => ret (existsb (hval_is_str field) items)
  end.

(** [obj[field]] with a string subscript. *)
Definition getitem (p : loc) (field : string) : M hval :=
  o <- load p ;;
  match o with
  | ODict items =>
      match dict_get field items with
      | Some v => ret v
      | None => raise (Exception ("'" +:+ field +:+ "'"))
      end
  | OList _ =>
      raise (Exception "list indices must be integers or slices, not str")
  end.

(** [obj[field] = v] with a string subscript: the one update in place. *)
Definition setitem (p : loc) (field : string) (v : hval) : M unit :=
  o <- load p ;;
  match o with
  | ODict items =>
      fun h => (<[p := ODict (dict_set field v items)]> h, Returned tt)
  | OList _ =>
      raise (Exception "list indices must be integers or slices, not str")
  end.

Section preprocess.
Context `{PyRuntime}.

(** [str(v)]; it reads the store for a container and writes nothing. *)
Definition hval_str (h : heap) (v : hval) : string :=
  match v with
  | HNone => "None"
  | HBool true => "True"
  | HBool false => "False"
  | HInt z => pretty z
  | HFloat f => float_str f
  | HStr s => s
  | HRef l => container_repr h l
  end.

Definition str (v : hval) : M string := fun h => (h, Returned (hval_str h v)).

(** Truth value of an object in a condition. *)
Definition truthy (v : hval) : M bool :=
  match v with
  | HNone => ret false
  | HBool b => ret b
  | HInt z => ret (negb (z =? 0))
  | HFloat (S754_zero _) => ret false
  | HFloat _ => ret true
  | HStr s => ret (negb (String.eqb s ""))
  | HRef l =>
      o <- load l ;;
      match o with
      | OList items => ret (match items with [] => false | _ => true end)
      | ODict items => ret (match items with [] => false | _ => true end)
      end
  end.

(** The elements a [for ... in v] visits: list items, dict keys, the
    characters of a string; a number is not iterable. *)
Definition iter (v : hval) : M (list hval) :=
  match v with
  | HStr s => ret (map HStr (py_chars s))
  | HRef l =>
      o <- load l ;;
      match o with
      | OList items => ret items
      | ODict items => ret (map (fun kv => HStr (fst kv)) items)
      end
  | _ =>
      fun h =>
        (h, Raised (Exception
                      ("'" +:+ type_name h v +:+ "' object is not iterable")))
  end.

Definition is_none (v : hval) : bool :=
  match v with HNone => true | _ => false end.

Definition numeric_fields : list string :=
  ["depositAmount"; "cliffAmount"; "startTime"; "stopTime"; "interval";
   "autoWithdrawInterval"].

Definition boolean_fields : list string := ["autoWithdraw"; "isFa"; "execute"].

Definition single_numeric_fields : list string :=
  ["startTime"; "stopTime"; "interval"; "autoWithdrawInterval"].

(** [if field in processed_args and processed_args[field] is not None:
       processed_args[field] = str(processed_args[field])] *)
Definition stringify_field (p : loc) (field : string) : M unit :=
  present <- contains p field ;;
  if present : bool then
    v <- getitem p field ;;
    if is_none v then ret tt
    else
      v' <- getitem p field ;;
      s <- str v' ;;
      setitem p field (HStr s)
  else ret tt.

(** [if field in processed_args:
       if isinstance(processed_args[field], str):
         processed_args[field] = processed_args[field].lower() == "true"] *)
Definition boolify_field (p : loc) (field : string) : M unit :=
  present <- contains p field ;;
  if present : bool then
    v <- getitem p field ;;
    match v with
    | HStr _ =>
        v' <- getitem p field ;;
        match v' with
        | HStr s => setitem p field (HBool (String.eqb (str_lower s) "true"))
        | _ => raise (Exception "object has no attribute 'lower'")
        end
    | _ => ret tt
    end
  else ret tt.

(** [if field in processed_args and processed_args[field]:
       processed_args[field] = [str(amt) for amt in processed_args[field]]]
    The comprehension builds a new list object. *)
Definition stringify_items (p : loc) (field : string) : M unit :=
  present <- contains p field ;;
  if present : bool then
    v <- getitem p field ;;
    t <- truthy v ;;
    if t : bool then
      v' <- getitem p field ;;
      xs <- iter v' ;;
      strs <- (fun h => (h, Returned (map (fun amt => HStr (hval_str h amt)) xs))) ;;
      l <- alloc (OList strs) ;;
      setitem p field (HRef l)
    else ret tt
  else ret tt.

(** [obj.copy()]: a new object with the same items, which are shared. *)
Definition copy (args : hval) : M loc :=
  match args with
  | HRef a => o <- load a ;; alloc o
  | _ =>
      fun h =>
        (h, Raised (Exception
                      ("'" +:+ type_name h args
                           +:+ "' object has no attribute 'copy'")))
  end.

(** [BaseAIService._preprocess_tool_args]. *)
Definition _preprocess_tool_args (tool_name : string) (args : hval) : M hval :=
  processed_args <- copy args ;;
  if String.eqb tool_name "create-stream" then
    for_each numeric_fields (stringify_field processed_args) ;;;
    for_each boolean_fields (boolify_field processed_args) ;;;
    ret (HRef processed_args)
  else if String.eqb tool_name "batch-create-streams" then
    stringify_items processed_args "depositAmounts" ;;;
    stringify_items processed_args "cliffAmounts" ;;;
    for_each single_numeric_fields (stringify_field processed_args) ;;;
    ret (HRef processed_args)
  else ret (HRef processed_args).
(** What follows the copy in [_preprocess_tool_args], on its own. *)
Definition after_copy (tool_name : string) (processed_args : loc) : M hval :=
  if String.eqb tool_name "create-stream" then
    for_each numeric_fields (stringify_field processed_args) ;;;
    for_each boolean_fields (boolify_field processed_args) ;;;
    ret (HRef processed_args)
  else if String.eqb tool_name "batch-create-streams" then
    stringify_items processed_args "depositAmounts" ;;;
    stringify_items processed_args "cliffAmounts" ;;;
    for_each single_numeric_fields (stringify_field processed_args) ;;;
    ret (HRef processed_args)
  else ret (HRef processed_args).

End preprocess.

(** ** The connection registry, [McpHub] *)

Inductive transport_kind : Type := stdio | sse.

(** A session object handed out by a transport library ([mcp.ClientSession]
    or [aiohttp.ClientSession]). The hub asks one thing of it besides
    calling it: whether it has a [shutdown] attribute. *)
Record session_obj : Type := {
  session_id : nat;
  has_shutdown : bool
}.

Record ToolDescriptor : Type := {
  tool_name : string;
  tool_description : string;
  inputSchema : value
}.

(** The server configuration dict; a missing key reads as [None]. *)
Record config : Type := {
  cfg_transportType : option string;
  cfg_command : option string;
  cfg_args : list string;
  cfg_env : list (string * string);
  cfg_url : option string
}.

(** The dict stored under a server name. The key ["error"] is only set by
    the failure handlers. *)
Record connection : Type := {
  conn_transport : transport_kind;
  conn_session : session_obj;
  conn_url : option string;
  conn_config : config;
  conn_tools : option (list ToolDescriptor);
  conn_status : string;
  conn_error : option string
}.

(** What the hub asks of the outside world, in order. *)
Inductive event : Type :=
| EvRemove (name : string)
| EvConnect (name : string) (attempt : Z)
| EvStore (name : string) (s : session_obj)
| EvSleep
| EvListTools (name : string)
| EvCallTool (name tool : string)
| EvShutdown (s : session_obj)
| EvAclose.

(** A context entered on the hub's [AsyncExitStack]. *)
Inductive resource : Type :=
| ResStdio
| ResSession (s : session_obj).

(** The hub: its registry, its exit stack and its two defaults, with the
    sequence of requests made so far. ([self.stdio], [self.write] and
    [self.session] are written and never read.) *)
Record McpHub : Type := {
  connections : gmap string connection;
  exit_stack : list resource;
  connection_timeout : Z;
  connection_retries : Z;
  trace : list event
}.

(** [McpHub.__init__]. *)
Definition new_hub : McpHub :=
  {| connections := ∅; exit_stack := []; connection_timeout := 30;
     connection_retries := 2; trace := [] |}.

Definition default_server_name : string := "moveflow-aptos".

Definition set_connections (f : gmap string connection -> gmap string connection)
    (hub : McpHub) : McpHub :=
  {| connections := f (connections hub); exit_stack := exit_stack hub;
     connection_timeout := connection_timeout hub;
     connection_retries := connection_retries hub; trace := trace hub |}.

Definition set_exit_stack (f : list resource -> list resource) (hub : McpHub)
  : McpHub :=
  {| connections := connections hub; exit_stack := f (exit_stack hub);
     connection_timeout := connection_timeout hub;
     connection_retries := connection_retries hub; trace := trace hub |}.

Definition log (ev : event) : ST McpHub unit :=
  fun hub =>
    ({| connections := connections hub; exit_stack := exit_stack hub;
        connection_timeout := connection_timeout hub;
        connection_retries := connection_retries hub;
        trace := (trace hub ++ [ev])%list |}, Returned tt).

(** [self.connections.get(name)]. *)
Definition lookup_connection (name : string) : ST McpHub (option connection) :=
  gets (fun hub => connections hub !! name).

(** [connection["tools"] = tools]: the dict is the one held by the
    registry, so the registry sees the update. *)
Definition set_tools (name : string) (ts : list ToolDescriptor)
  : ST McpHub unit :=
  modify (set_connections (alter (fun c =>
    {| conn_transport := conn_transport c; conn_session := conn_session c;
       conn_url := conn_url c; conn_config := conn_config c;
       conn_tools := Some ts; conn_status := conn_status c;
       conn_error := conn_error c |}) name)).

(** [if name in self.connections:
       self.connections[name]["status"] = "disconnected"
       self.connections[name]["error"] = err] *)
Definition mark_disconnected (name : string) (err : string) : ST McpHub unit :=
  modify (set_connections (alter (fun c =>
    {| conn_transport := conn_transport c; conn_session := conn_session c;
       conn_url := conn_url c; conn_config := conn_config c;
       conn_tools := conn_tools c; conn_status := "disconnected";
       conn_error := Some err |}) name)).

(** The replies to a tool-list request: of [session.list_tools()] on a pipe
    session, and of [GET url/tools/list] (status and decoded body) on an
    HTTP one. *)
Record tools_env : Type := {
  list_tools_reply : outcome (list ToolDescriptor);
  http_tools_reply : outcome (Z * list ToolDescriptor)
}.

(** [McpHub.load_tools]. *)
Definition load_tools (env : tools_env) (server_name : string)
  : ST McpHub (list ToolDescriptor) :=
  connection <- lookup_connection server_name ;;
  match connection with
  | None => ret []
  | Some connection =>
      try_except
        (match conn_transport connection with
         | stdio =>
             log (EvListTools server_name) ;;;
             tools <- reply (list_tools_reply env) ;;
             set_tools server_name tools ;;;
             ret tools
         | sse =>
             log (EvListTools server_name) ;;;
             response <- reply (http_tools_reply env) ;;
             if fst response =? 200 then
               set_tools server_name (snd response) ;;;
               ret (snd response)
             else ret []
         end)
        is_Exception
        (fun e => ret [])
  end.

(** The replies to a tool call: of [session.call_tool(...)] (its
    [content]) on a pipe session, and of [POST url/tools/call] (status,
    decoded body, body text) on an HTTP one. *)
Record call_env : Type := {
  call_tool_reply : outcome value;
  http_call_reply : outcome (Z * value * string)
}.

(** [McpHub.call_tool]. *)
Definition call_tool (env : call_env) (server_name tool_name : string)
    (tool_args : value) : ST McpHub value :=
  connection <- lookup_connection server_name ;;
  match connection with
  | None => raise (Exception ("未找到服务器连接: " +:+ server_name))
  | Some connection =>
      try_except
        (match conn_transport connection with
         | stdio =>
             log (EvCallTool server_name tool_name) ;;;
             reply (call_tool_reply env)
         | sse =>
             log (EvCallTool server_name tool_name) ;;;
             response <- reply (http_call_reply env) ;;
             let '(status, body, error_text) := response in
             if status =? 200 then ret body
             else
               raise (Exception ("调用工具失败: " +:+ pretty status +:+ ", "
                                   +:+ error_text))
         end)
        is_Exception
        (fun e => raise e)
  end.

(** [McpHub.get_all_servers]: the names of the registry. The registry
    being a finite map here, the names come sorted by key, where Python
    lists them in the order they were stored; what is stated of the listing
    below does not depend on its order. *)
Definition get_all_servers : ST McpHub (list string) :=
  gets (fun hub => (map_to_list (connections hub)).*1).

(** [x or default] on an optional integer: both [None] and [0] are falsy. *)
Definition int_or (x : option Z) (default : Z) : Z :=
  match x with
  | Some v => if v =? 0 then default else v
  | None => default
  end.

(** The replies of the outside world during one connection attempt, in the
    order the attempt asks for them. A [wait_for] that times out shows as a
    reply [Raised TimeoutError]. *)
Record attempt_env : Type := {
  (** entering [stdio_client(server_params)] *)
  stdio_client_reply : outcome unit;
  (** entering [ClientSession(self.stdio, self.write)] *)
  client_session_reply : outcome session_obj;
  (** [self.session.initialize()] *)
  initialize_reply : outcome unit;
  (** the [aiohttp.ClientSession] opened for the probe *)
  http_session : session_obj;
  (** [session.get(url)]: the response status *)
  probe_reply : outcome Z;
  (** does [wait_for(self.load_tools(name), timeout)] time out? *)
  load_tools_timed_out : bool;
  load_env : tools_env
}.

Definition transport_is (config : config) (kind : string) : bool :=
  match cfg_transportType config with
  | Some t => String.eqb t kind
  | None => false
  end.

Definition new_connection (kind : transport_kind) (s : session_obj)
    (u : option string) (config : config) : connection :=
  {| conn_transport := kind; conn_session := s; conn_url := u;
     conn_config := config; conn_tools := None; conn_status := "connected";
     conn_error := None |}.

(** [self.connections[name] = {...}]. *)
Definition store_connection (name : string) (c : connection) : ST McpHub unit :=
  log (EvStore name (conn_session c)) ;;;
  modify (set_connections <[name := c]>).

(** [await asyncio.wait_for(self.load_tools(name), timeout=timeout)]: on a
    timeout the request is out, the pending call is cancelled and nothing
    is stored. *)
Definition wait_for_load_tools (a : attempt_env) (name : string)
  : ST McpHub (list ToolDescriptor) :=
  if load_tools_timed_out a then
    log (EvListTools name) ;;; raise TimeoutError
  else load_tools (load_env a) name.

Definition is_TimeoutError (e : exn) : bool :=
  match e with TimeoutError => true | _ => false end.

(** How one turn of the [while] loop ends: with [continue] (or by reaching
    the end of the body) or with [return v]. *)
Inductive ctl : Type :=
| Continue
| Return (v : option bool).

(** [if attempt > retries: return False
     else: await asyncio.sleep(1)] *)
Definition give_up_or_sleep (retries attempt : Z) : ST McpHub ctl :=
  if retries <? attempt then ret (Return (Some false))
  else log EvSleep ;;; ret Continue.

(** [if name in self.connections: del self.connections[name]] *)
Definition remove_existing (name : string) : ST McpHub unit :=
  existing <- lookup_connection name ;;
  match existing with
  | Some _ => log (EvRemove name) ;;; modify (set_connections (delete name))
  | None => ret tt
  end.

(** The end of both branches: the tool list is loaded under the timeout, a
    timeout of that is passed over, and the attempt returns [True]. *)
Definition load_and_succeed (a : attempt_env) (name : string) : ST McpHub ctl :=
  try_except (_ <- wait_for_load_tools a name ;; ret tt)
    is_TimeoutError (fun _ => ret tt) ;;;
  ret (Return (Some true)).

(** The branch [config.get("transportType") == "stdio"]. *)
Definition connect_stdio (a : attempt_env) (name : string) (config : config)
    (attempt : Z) : ST McpHub ctl :=
  log (EvConnect name attempt) ;;;
  _ <- reply (stdio_client_reply a) ;;
  modify (set_exit_stack (fun st => (st ++ [ResStdio])%list)) ;;;
  session <- reply (client_session_reply a) ;;
  modify (set_exit_stack (fun st => (st ++ [ResSession session])%list)) ;;;
  _ <- reply (initialize_reply a) ;;
  store_connection name (new_connection stdio session None config) ;;;
  load_and_succeed a name.

(** The branch [config.get("transportType") == "sse"]. *)
Definition connect_sse (a : attempt_env) (name : string) (config : config)
    (retries attempt : Z) : ST McpHub ctl :=
  log (EvConnect name attempt) ;;;
  status <- reply (probe_reply a) ;;
  if status =? 200 then
    store_connection name
      (new_connection sse (http_session a) (cfg_url config) config) ;;;
    load_and_succeed a name
  else give_up_or_sleep retries attempt.

(** The [try] block of the loop body. *)
Definition attempt_try (a : attempt_env) (name : string) (config : config)
    (retries attempt : Z) : ST McpHub ctl :=
  remove_existing name ;;;
  if transport_is config "stdio" then connect_stdio a name config attempt
  else if transport_is config "sse" then
    connect_sse a name config retries attempt
  else ret (Return (Some false)).

(** The two handlers, [except asyncio.TimeoutError] and
    [except Exception as e]. *)
Definition on_failure (name : string) (retries attempt : Z) (e : exn)
  : ST McpHub ctl :=
  match e with
  | TimeoutError =>
      if retries <? attempt then
        mark_disconnected name "连接超时" ;;;
        ret (Return (Some false))
      else log EvSleep ;;; ret Continue
  | _ =>
      mark_disconnected name (exn_str e) ;;;
      give_up_or_sleep retries attempt
  end.

(** The body of the [while] loop of [connect_to_server], after
    [attempt += 1]. *)
Definition attempt_body (a : attempt_env) (name : string) (config : config)
    (retries attempt : Z) : ST McpHub ctl :=
  try_except (attempt_try a name config retries attempt)
    is_Exception (on_failure name retries attempt).

(** [while attempt <= retries: attempt += 1; ...]; falling out of the loop
    returns [None]. The fuel bounds the number of turns. *)
Fixpoint connect_loop (fuel : nat) (env : Z -> attempt_env) (name : string)
    (config : config) (retries attempt : Z) (hub : McpHub)
  : option (McpHub * outcome (option bool)) :=
  if attempt <=? retries then
    match fuel with
    | O => None
    | S fuel' =>
        let attempt := attempt + 1 in
        match attempt_body (env attempt) name config retries attempt hub with
        | (hub', Returned Continue) =>
            connect_loop fuel' env name config retries attempt hub'
        | (hub', Returned (Return v)) => Some (hub', Returned v)
        | (hub', Raised e) => Some (hub', Raised e)
        end
    end
  else Some (hub, Returned None).

(** [McpHub.connect_to_server]. The timeout only reaches the library calls,
    whose replies are given by [env], one record per attempt number. *)
Definition connect_to_server (env : Z -> attempt_env) (name : string)
    (config : config) (timeout retries : option Z) (hub : McpHub)
  : option (McpHub * outcome (option bool)) :=
  let timeout := int_or timeout (connection_timeout hub) in
  let retries := int_or retries (connection_retries hub) in
  connect_loop (Z.to_nat (retries + 1)) env name config retries 0 hub.

(** The replies during [cleanup]: of [session.shutdown()] under
    [shield(wait_for(..., 0.5))] per session, and of
    [self.exit_stack.aclose()] under [shield(wait_for(..., 1.0))]. *)
Record cleanup_env : Type := {
  shutdown_reply : session_obj -> outcome unit;
  aclose_reply : outcome unit
}.

(** [except (asyncio.TimeoutError, asyncio.CancelledError, Exception)]. *)
Definition timeout_cancelled_or_Exception (e : exn) : bool :=
  match e with
  | TimeoutError | CancelledError => true
  | _ => is_Exception e
  end.

(** The body of the [for] loop of [cleanup]. Every stored dict has the keys
    ["transport"] and ["session"]. *)
Definition close_connection (env : cleanup_env) (connection : connection)
  : ST McpHub unit :=
  match conn_transport connection with
  | stdio =>
      try_except
        (let session := conn_session connection in
         if has_shutdown session then
           try_except
             (log (EvShutdown session) ;;; reply (shutdown_reply env session))
             timeout_cancelled_or_Exception
             (fun _ => ret tt)
         else ret tt)
        is_Exception
        (fun _ => ret tt)
  | sse => ret tt
  end.

(** [self.exit_stack.aclose()]: the stack pops every context before it
    runs the exit of that context, and goes on popping when an exit raises
    or the wait is cut short, so nothing is left on it whatever the
    reply. *)
Definition aclose (env : cleanup_env) : ST McpHub unit :=
  log EvAclose ;;;
  modify (set_exit_stack (fun _ => [])) ;;;
  reply (aclose_reply env).

(** [McpHub.cleanup]. The loop runs over a snapshot of the items; the
    registry being a finite map here, the snapshot lists the sessions by
    name, where Python lists them in the order they were stored. *)
Definition cleanup (env : cleanup_env) : ST McpHub unit :=
  try_finally
    (try_except
       (items <- gets (fun hub => map_to_list (connections hub)) ;;
        for_each items (fun item => close_connection env (snd item)) ;;;
        modify (set_connections (fun _ => ∅)) ;;;
        try_except
          (aclose env)
          timeout_cancelled_or_Exception
          (fun _ => ret tt))
       is_Exception
       (fun _ => ret tt))
    (modify (set_connections (fun _ => ∅))).

(** ** The response loops of the AI services *)

(** The line feed of ["\n"]. *)
Definition nl : string := String (ascii_of_nat 10) EmptyString.

(** [sep.join(parts)]. *)
Fixpoint join (sep : string) (parts : list string) : string :=
  match parts with
  | [] => ""
  | [p] => p
  | p :: rest => p +:+ sep +:+ join sep rest
  end.

(** [f"\n[调用工具 {tool_name}，结果: {result_str}]"] *)
Definition tool_result_text (tool_name result_str : string) : string :=
  nl +:+ "[调用工具 " +:+ tool_name +:+ "，结果: " +:+ result_str +:+ "]".

(** [f"\n[调用工具 {tool_name} 失败: {str(e)}]"], the inline error marker. *)
Definition tool_error_text (tool_name : string) (e : exn) : string :=
  nl +:+ "[调用工具 " +:+ tool_name +:+ " 失败: " +:+ exn_str e +:+ "]".

Definition no_session_text : string := "错误: 无法获取服务器会话".

Definition placeholder_text : string := "处理完成，但没有返回结果".

(** A tool invocation of an OpenAI completion: the function name and its
    arguments as JSON text. *)
Record function_call : Type := {
  fn_name : string;
  fn_arguments : string
}.

(** [response.choices[i].message]; an absent or empty [tool_calls] is the
    empty list. *)
Record message : Type := {
  content : option string;
  tool_calls : list function_call
}.

(** An OpenAI completion; an absent or empty [choices] is the empty list. *)
Record completion : Type := {
  choices : list message
}.

(** A content block of an Anthropic response, by its ["type"]. A block of
    ["tool_use"] carries its parsed ["input"]. *)
Inductive block : Type :=
| TextBlock (text : string)
| ToolUse (name : string) (input : hval)
| OtherBlock.

Section dispatcher.
Context `{PyRuntime}.

(** The state of the remote tool server behind the session, and what a
    tool call returns. *)
Context {world tool_result : Type}.

(** [await session.call_tool(tool_name, processed_args)]: the server reads
    the arguments, changes its own state and answers or fails. *)
Variable session_call_tool :
  string -> heap -> hval -> world -> world * outcome tool_result.

(** [OpenAIService._format_tool_result]: it turns a result into text and
    does not raise, every path lying under a [try] whose last handler
    returns a string. *)
Variable _format_tool_result : tool_result -> string.

(** [str(result)], as the f-string of the Anthropic loop formats it. *)
Variable result_repr : tool_result -> string.

(** The dispatcher runs against the remote server and the object store. *)
Definition dispatch : Type -> Type := ST (world * heap).

Definition on_heap {A : Type} (m : M A) : dispatch A :=
  fun s => let '(h', r) := m (snd s) in ((fst s, h'), r).

Definition remote_call (tool_name : string) (args : hval)
  : dispatch tool_result :=
  fun s =>
    let '(w', r) := session_call_tool tool_name (snd s) args (fst s) in
    ((w', snd s), r).

(** One turn of the [for tool_call in message.tool_calls] loop of
    [OpenAIService.process_response]; [final_text] is the list built so
    far, and the result is the list after the turn. *)
Definition openai_tool_call (tool_call : function_call)
    (final_text : list string) : dispatch (list string) :=
  let tool_name := fn_name tool_call in
  tool_args <- on_heap (json_loads (fn_arguments tool_call)) ;;
  processed_args <- on_heap (_preprocess_tool_args tool_name tool_args) ;;
  try_except
    (result <- remote_call tool_name processed_args ;;
     let result_str := _format_tool_result result in
     ret (final_text ++ [tool_result_text tool_name result_str])%list)
    is_Exception
    (fun e => ret (final_text ++ [tool_error_text tool_name e])%list).

Fixpoint openai_tool_calls (calls : list function_call)
    (final_text : list string) : dispatch (list string) :=
  match calls with
  | [] => ret final_text
  | tool_call :: rest =>
      final_text' <- openai_tool_call tool_call final_text ;;
      openai_tool_calls rest final_text'
  end.

(** ["\n".join(final_text) if final_text else "处理完成，但没有返回结果"] *)
Definition final_result (final_text : list string) : string :=
  match final_text with
  | [] => placeholder_text
  | _ => join nl final_text
  end.

(** [if message.content: final_text.append(message.content)] *)
Definition content_text (m : message) : list string :=
  match content m with
  | Some c => if String.eqb c "" then [] else [c]
  | None => []
  end.

(** [OpenAIService.process_response]; [session] tells whether a session
    object was passed. *)
Definition openai_process_response (response : completion) (session : bool)
  : dispatch string :=
  if negb session then ret no_session_text
  else
    final_text <-
      match choices response with
      | message :: _ => openai_tool_calls (tool_calls message) (content_text message)
      | [] => ret []
      end ;;
    ret (final_result final_text).

(** One turn of the [for block in content] loop of
    [AnthropicService.process_response]. *)
Definition anthropic_block (b : block) (final_text : list string)
  : dispatch (list string) :=
  match b with
  | TextBlock text => ret (final_text ++ [text])%list
  | ToolUse tool_name tool_args =>
      processed_args <- on_heap (_preprocess_tool_args tool_name tool_args) ;;
      try_except
        (result <- remote_call tool_name processed_args ;;
         ret (final_text ++ [tool_result_text tool_name (result_repr result)])%list)
        is_Exception
        (fun e => ret (final_text ++ [tool_error_text tool_name e])%list)
  | OtherBlock => ret final_text
  end.

Fixpoint anthropic_blocks (blocks : list block) (final_text : list string)
  : dispatch (list string) :=
  match blocks with
  | [] => ret final_text
  | b :: rest =>
      final_text' <- anthropic_block b final_text ;;
      anthropic_blocks rest final_text'
  end.

(** [AnthropicService.process_response] on [response.get("content", [])]. *)
Definition anthropic_process_response (response : list block) (session : bool)
  : dispatch string :=
  if negb session then ret no_session_text
  else
    final_text <- anthropic_blocks response [] ;;
    ret (final_result final_text).

(** The annotation an invocation leaves in the text, by the outcome of its
    call. *)
Definition annotation (tool_name : string) (r : outcome tool_result) : string :=
  match r with
  | Returned result => tool_result_text tool_name (_format_tool_result result)
  | Raised e => tool_error_text tool_name e
  end.

(** Sequential dispatch as the specification words it: the invocations are
    taken in the order emitted, each one is decoded, preprocessed and called
    in the state its predecessor left, and leaves one annotation. *)
Inductive dispatched :
  list function_call -> world * heap -> list string -> world * heap -> Prop :=
| dispatched_nil s : dispatched [] s [] s
| dispatched_cons tc rest w h h1 tool_args h2 processed_args w' r anns s' :
    json_loads (fn_arguments tc) h = (h1, Returned tool_args) ->
    _preprocess_tool_args (fn_name tc) tool_args h1
      = (h2, Returned processed_args) ->
    session_call_tool (fn_name tc) h2 processed_args w = (w', r) ->
    (forall e, r = Raised e -> is_Exception e = true) ->
    dispatched rest (w', h2) anns s' ->
    dispatched (tc :: rest) (w, h) (annotation (fn_name tc) r :: anns) s'.

(** One invocation taken from a state: its arguments decode and are
    preprocessed, the call is made on the server as it then is, and it
    answers or fails with [r], an error being of class [Exception]. *)
Definition invoked (tc : function_call) (s : world * heap)
    (r : outcome tool_result) (s' : world * heap) : Prop :=
  exists h1 tool_args processed_args,
    json_loads (fn_arguments tc) (snd s) = (h1, Returned tool_args) /\
    _preprocess_tool_args (fn_name tc) tool_args h1
    = (snd s', Returned processed_args) /\
    session_call_tool (fn_name tc) (snd s') processed_args (fst s)
    = (fst s', r) /\
    (forall e, r = Raised e -> is_Exception e = true).
End dispatcher.

(** ** Reading the store *)

(** The tree a store value denotes, read back through its references; the
    fuel bounds the depth. *)
Fixpoint reify (fuel : nat) (h : heap) (v : hval) : option value :=
  match v with
  | HNone => Some VNone
  | HBool b => Some (VBool b)
  | HInt z => Some (VInt z)
  | HFloat f => Some (VFloat f)
  | HStr s => Some (VStr s)
  | HRef l =>
      match fuel with
      | O => None
      | S fuel' =>
          match h !! l with
          | Some (OList items) => VList <$> mapM (reify fuel' h) items
          | Some (ODict items) =>
              VDict <$> mapM (fun kv => pair (fst kv) <$> reify fuel' h (snd kv))
                          items
          | None => None
          end
      end
  end.

(** A computation leaves the first [n] objects of the store as they are,
    and the store does not shrink below them. *)
Definition frame {A : Type} (n : nat) (m : M A) : Prop :=
  forall h : heap,
    (n <= length h)%nat ->
    (n <= length (m h).1)%nat /\
    forall l : nat, (l < n)%nat -> (m h).1 !! l = h !! l.

(** A runtime to run the definitions on concrete inputs: it renders finite
    floats and containers by fixed texts and parses the one text [{}]. *)
Definition sample_runtime : PyRuntime :=
  {| float_repr_finite := fun _ _ _ => "<float>";
     container_repr := fun _ _ => "<object>";
     json_loads := fun text h =>
       if String.eqb text "{}" then ((h ++ [ODict []])%list, Returned (HRef (length h)))
       else (h, Raised (Exception "JSONDecodeError")) |}.

(** ** Observations on a run of the hub *)

(** Every state a computation can reach is related to the state it
    started from. *)
Definition steps {S A : Type} (R : S -> S -> Prop) (m : ST S A) : Prop :=
  forall s, R s (m s).1.

(** A close request to a session or to the exit stack. *)
Definition is_close (ev : event) : bool :=
  match ev with
  | EvShutdown _ | EvAclose => true
  | _ => false
  end.

(** The number of transport-level connection attempts among the requests. *)
Fixpoint count_connects (evs : list event) : nat :=
  match evs with
  | [] => 0%nat
  | EvConnect _ _ :: evs' => S (count_connects evs')
  | _ :: evs' => count_connects evs'
  end.

(** From [hub] to [hub']: requests were added and none of them is a close
    request, the exit stack still holds what it held, and the sessions of
    the other names are the same. *)
Definition grows (name : string) (hub hub' : McpHub) : Prop :=
  (exists evs, trace hub' = (trace hub ++ evs)%list /\
               Forall (fun ev => is_close ev = false) evs) /\
  exit_stack hub `prefix_of` exit_stack hub' /\
  (forall n, n <> name -> connections hub' !! n = connections hub !! n).

(** The registry holds a session for [name], and its status is
    [connected]. *)
Definition connected_at (name : string) (hub : McpHub) : Prop :=
  exists c, connections hub !! name = Some c /\ conn_status c = "connected".

(** A session for [name] that is connected stays so. *)
Definition keeps (name : string) (hub hub' : McpHub) : Prop :=
  connected_at name hub -> connected_at name hub'.

Definition raises_error {A : Type} (r : outcome A) : bool :=
  match r with
  | Raised e => is_Exception e
  | Returned _ => false
  end.

Definition returns {A : Type} (r : outcome A) : bool :=
  match r with
  | Returned _ => true
  | Raised _ => false
  end.

(** Does the connection attempt answered by [a] fail? On a pipe, one of
    the three steps raises an error (a timeout included); over HTTP the
    probe raises an error or answers with a status other than 200. *)
Definition attempt_fails (config : config) (a : attempt_env) : bool :=
  if transport_is config "stdio" then
    raises_error (stdio_client_reply a)
    || returns (stdio_client_reply a)
       && (raises_error (client_session_reply a)
           || returns (client_session_reply a)
              && raises_error (initialize_reply a))
  else if transport_is config "sse" then
    match probe_reply a with
    | Raised e => is_Exception e
    | Returned status => negb (status =? 200)
    end
  else false.

(** What the transport answers to the tool-list request of a connection:
    the list, or nothing when the request raises or is refused. *)
Definition fetched (env : tools_env) (c : connection)
  : outcome (option (list ToolDescriptor)) :=
  match conn_transport c with
  | stdio =>
      match list_tools_reply env with
      | Returned ts => Returned (Some ts)
      | Raised e => Raised e
      end
  | sse =>
      match http_tools_reply env with
      | Returned (status, ts) =>
          if status =? 200 then Returned (Some ts) else Returned None
      | Raised e => Raised e
      end
  end.

(** The configuration [setup_mcp_server] connects with. *)
Definition moveflow_config : config :=
  {| cfg_transportType := Some "stdio";
     cfg_command := Some "npx";
     cfg_args := ["-y"; "@amyseer/moveflow-aptos-mcp-server@latest"];
     cfg_env := [("APTOS_NETWORK", "testnet"); ("READ_ONLY_MODE", "true")];
     cfg_url := None |}.

Definition sample_session (n : nat) : session_obj :=
  {| session_id := n; has_shutdown := true |}.

Definition sample_tool (n : string) : ToolDescriptor :=
  {| tool_name := n; tool_description := ""; inputSchema := VDict [] |}.

Definition no_tools : tools_env :=
  {| list_tools_reply := Returned []; http_tools_reply := Returned (200, []) |}.

(** An attempt in which the child process cannot be started. *)
Definition failing_attempt : attempt_env :=
  {| stdio_client_reply := Raised (Exception "spawn failed");
     client_session_reply := Raised (Exception "no pipe");
     initialize_reply := Raised (Exception "no pipe");
     http_session := sample_session 0;
     probe_reply := Raised (Exception "connection refused");
     load_tools_timed_out := false;
     load_env := no_tools |}.

(** An attempt in which everything answers; the session made is number [n]. *)
Definition working_attempt (n : nat) (ts : list ToolDescriptor) : attempt_env :=
  {| stdio_client_reply := Returned tt;
     client_session_reply := Returned (sample_session n);
     initialize_reply := Returned tt;
     http_session := sample_session n;
     probe_reply := Returned 200;
     load_tools_timed_out := false;
     load_env := {| list_tools_reply := Returned ts;
                    http_tools_reply := Returned (200, ts) |} |}.

(** A connected pipe session with one tool cached. *)
Definition moveflow_connection : connection :=
  {| conn_transport := stdio; conn_session := sample_session 1;
     conn_url := None; conn_config := moveflow_config;
     conn_tools := Some [sample_tool "create-stream"];
     conn_status := "connected"; conn_error := None |}.

(** A hub holding that session under the default name. *)
Definition connected_hub : McpHub :=
  {| connections := {[ default_server_name := moveflow_connection ]};
     exit_stack := [ResStdio; ResSession (sample_session 1)];
     connection_timeout := 30; connection_retries := 2;
     trace := [] |}.

(** A tool server that counts the calls it gets, refuses [create-stream]
    and answers every other tool with the number of the call. *)
Definition sample_call (tool_name : string) (h : heap) (args : hval) (w : nat)
  : nat * outcome string :=
  (S w,
   if String.eqb tool_name "create-stream"
   then Raised (Exception "insufficient balance")
   else Returned ("call " +:+ pretty w)).

Definition create_then_get : completion :=
  {| choices :=
       [{| content := Some "ok";
           tool_calls := [{| fn_name := "create-stream"; fn_arguments := "{}" |};
                          {| fn_name := "get-stream"; fn_arguments := "{}" |}]
        |}] |}.

(** ** The hub: resources *)

(** [type(v).__name__] of a value. *)
Definition value_type_name (v : value) : string :=
  match v with
  | VNone => "NoneType"
  | VBool _ => "bool"
  | VInt _ => "int"
  | VFloat _ => "float"
  | VStr _ => "str"
  | VList _ => "list"
  | VDict _ => "dict"
  end.

(** [data.get(key, default)]: only a dict has the method. *)
Definition value_get (key : string) (default : value) (data : value)
  : outcome value :=
  match data with
  | VDict items =>
      Returned (match dict_get key items with Some v => v | None => default end)
  | _ =>
      Raised (Exception ("'" +:+ value_type_name data
                             +:+ "' object has no attribute 'get'"))
  end.

(** The replies to the resource requests: of [session.read_resource(uri)]
    (its [contents]) and [session.list_resources()] (its [resources], when
    the response has that attribute) on a pipe session; of
    [POST url/resources/read] (status, decoded body, body text) and
    [GET url/resources/list] (status, decoded body) on an HTTP one. *)
Record resource_env : Type := {
  read_resource_reply : outcome value;
  http_read_reply : outcome (Z * value * string);
  list_resources_reply : outcome (option value);
  http_resources_reply : outcome (Z * value)
}.

(** [McpHub.read_resource]. *)
Definition read_resource (env : resource_env) (server_name uri : string)
  : ST McpHub value :=
  connection <- lookup_connection server_name ;;
  match connection with
  | None => raise (Exception ("未找到服务器连接: " +:+ server_name))
  | Some connection =>
      try_except
        (match conn_transport connection with
         | stdio => reply (read_resource_reply env)
         | sse =>
             response <- reply (http_read_reply env) ;;
             let '(status, data, error_text) := response in
             if status =? 200 then reply (value_get "contents" (VList []) data)
             else
               raise (Exception ("读取资源失败: " +:+ pretty status +:+ ", "
                                   +:+ error_text))
         end)
        is_Exception
        (fun e => raise e)
  end.

(** [McpHub.get_resources]. *)
Definition get_resources (env : resource_env) (server_name : string)
  : ST McpHub value :=
  connection <- lookup_connection server_name ;;
  match connection with
  | None => ret (VList [])
  | Some connection =>
      try_except
        (match conn_transport connection with
         | stdio =>
             response <- reply (list_resources_reply env) ;;
             ret (match response with
                  | Some resources => resources
                  | None => VList []
                  end)
         | sse =>
             response <- reply (http_resources_reply env) ;;
             if fst response =? 200 then
               reply (value_get "resources" (VList []) (snd response))
             else ret (VList [])
         end)
        is_Exception
        (fun e => ret (VList []))
  end.

(** ** Observations on the attempts of a connect *)

(** Does the connection attempt answered by [a] go through? On a pipe all
    three steps return; over HTTP the probe answers 200. In both cases the
    loading of the tool list that follows must not be cancelled (a timeout
    or an error of it is passed over). *)
Definition load_cancelled (config : config) (a : attempt_env) : bool :=
  negb (load_tools_timed_out a)
  && match (if transport_is config "stdio"
            then match list_tools_reply (load_env a) with
                 | Raised e => Some e
                 | Returned _ => None
                 end
            else match http_tools_reply (load_env a) with
                 | Raised e => Some e
                 | Returned _ => None
                 end) with
     | Some e => negb (is_Exception e)
     | None => false
     end.

Definition attempt_works (config : config) (a : attempt_env) : bool :=
  (if transport_is config "stdio" then
     returns (stdio_client_reply a) && returns (client_session_reply a)
     && returns (initialize_reply a)
   else if transport_is config "sse" then
     match probe_reply a with
     | Returned status => status =? 200
     | Raised _ => false
     end
   else false)
  && negb (load_cancelled config a).

(** The session object a working attempt stores. *)
Definition attempt_session (config : config) (a : attempt_env) : session_obj :=
  if transport_is config "stdio" then
    match client_session_reply a with
    | Returned s => s
    | Raised _ => http_session a
    end
  else http_session a.

(** The tool list a working attempt leaves on the session: the list the
    server answers with, or none when the request times out, raises or is
    refused. *)
Definition attempt_tools (config : config) (a : attempt_env)
  : option (list ToolDescriptor) :=
  if load_tools_timed_out a then None
  else if transport_is config "stdio" then
    match list_tools_reply (load_env a) with
    | Returned ts => Some ts
    | Raised _ => None
    end
  else
    match http_tools_reply (load_env a) with
    | Returned (status, ts) => if status =? 200 then Some ts else None
    | Raised _ => None
    end.

(** The connection a working attempt leaves in the registry. *)
Definition attempt_connection (config : config) (a : attempt_env) : connection :=
  {| conn_transport := if transport_is config "stdio" then stdio else sse;
     conn_session := attempt_session config a;
     conn_url := if transport_is config "stdio" then None else cfg_url config;
     conn_config := config;
     conn_tools := attempt_tools config a;
     conn_status := "connected";
     conn_error := None |}.

(** What one attempt leaves under the name, whatever the replies: the
    session it made when it returns [True], nothing when it fails, and one
    or the other when it is cancelled. *)
Definition attempt_leaves (config : config) (a : attempt_env)
    (before after : gmap string connection) (name : string)
    (r : outcome ctl) : Prop :=
  match r with
  | Returned (Return (Some true)) =>
      after = <[name := attempt_connection config a]> before
  | Returned _ => after = before
  | Raised e =>
      is_Exception e = false /\
      (after = before \/ after = <[name := attempt_connection config a]> before)
  end.

(** What a connect leaves under a name that was not registered: the
    session of the attempt that went through, or nothing. *)
Definition connect_leaves (config : config) (env : Z -> attempt_env)
    (first last : Z) (before after : gmap string connection) (name : string)
    (r : outcome (option bool)) : Prop :=
  match r with
  | Returned (Some true) =>
      exists i, first <= i <= last /\
        after = <[name := attempt_connection config (env i)]> before
  | Returned _ => after = before
  | Raised e =>
      is_Exception e = false /\
      (after = before \/
       exists i, first <= i <= last /\
         after = <[name := attempt_connection config (env i)]> before)
  end.

(** The requests of [n] failed attempts that are each followed by another
    one, numbered from [attempt]. *)
Fixpoint failed_trace (name : string) (attempt : Z) (n : nat) : list event :=
  match n with
  | O => []
  | S n' =>
      EvConnect name attempt :: EvSleep :: failed_trace name (attempt + 1) n'
  end.

(** The removal an attempt starts with, when a session is registered. *)
Definition removal_trace (name : string) (hub : McpHub) : list event :=
  match connections hub !! name with
  | Some _ => [EvRemove name]
  | None => []
  end.

(** Replies in which the first two attempts fail and every later one works,
    making session 7 with one tool. *)
Definition flaky_env (i : Z) : attempt_env :=
  if i <=? 2 then failing_attempt
  else working_attempt 7 [sample_tool "create-stream"].

(** An attempt that connects but whose tool-list request times out. *)
Definition slow_tools_attempt : attempt_env :=
  {| stdio_client_reply := Returned tt;
     client_session_reply := Returned (sample_session 3);
     initialize_reply := Returned tt;
     http_session := sample_session 3;
     probe_reply := Returned 200;
     load_tools_timed_out := true;
     load_env := no_tools |}.

Definition pigeon_config : config :=
  {| cfg_transportType := Some "carrier-pigeon"; cfg_command := None;
     cfg_args := []; cfg_env := []; cfg_url := None |}.

Definition sse_config : config :=
  {| cfg_transportType := Some "sse"; cfg_command := None;
     cfg_args := []; cfg_env := []; cfg_url := Some "http://localhost:8080/sse" |}.

(** A hub holding one HTTP session under the name [remote]. *)
Definition remote_hub : McpHub :=
  {| connections :=
       {[ "remote" := new_connection sse (sample_session 4)
                        (Some "http://localhost:8080/sse") sse_config ]};
     exit_stack := [];
     connection_timeout := 30; connection_retries := 2;
     trace := [] |}.

Definition sample_resources : resource_env :=
  {| read_resource_reply := Returned (VList [VStr "stream 1"]);
     http_read_reply := Returned (404, VNone, "not found");
     list_resources_reply := Raised (Exception "broken pipe");
     http_resources_reply := Returned (500, VNone) |}.

(** ** Argument preprocessing, read on the items of the copy *)

Section preprocess_items.
Context `{PyRuntime}.

(** What [stringify_field] does to the items of the mapping, given [str]. *)
Definition stringify_item (strf : hval -> string) (field : string)
    (items : list (string * hval)) : list (string * hval) :=
  match dict_get field items with
  | Some v => if is_none v then items else dict_set field (HStr (strf v)) items
  | None => items
  end.

(** What [boolify_field] does to the items of the mapping. *)
Definition boolify_item (field : string) (items : list (string * hval))
  : list (string * hval) :=
  match dict_get field items with
  | Some (HStr s) =>
      dict_set field (HBool (String.eqb (str_lower s) "true")) items
  | _ => items
  end.

(** The loop over the numeric fields, on the items of the mapping held at
    location [length h0] of the store [h0 ++ ODict items :: rest]; [str]
    reads the store of the moment. *)
Fixpoint stringify_fields (h0 rest : heap) (fields : list string)
    (items : list (string * hval)) : list (string * hval) :=
  match fields with
  | [] => items
  | field :: fields' =>
      stringify_fields h0 rest fields'
        (stringify_item (hval_str (h0 ++ ODict items :: rest)%list) field items)
  end.

(** The loop over the boolean fields. *)
Fixpoint boolify_fields (fields : list string) (items : list (string * hval))
  : list (string * hval) :=
  match fields with
  | [] => items
  | field :: fields' => boolify_fields fields' (boolify_item field items)
  end.

(** Is the store value a scalar, not a reference to a list or dict? *)
Definition is_scalar_hval (v : hval) : bool :=
  match v with
  | HRef _ => false
  | _ => true
  end.
End preprocess_items.

(** The arguments of a [create-stream] request. *)
Definition stream_request : list (string * hval) :=
  [("depositAmount", HInt 7); ("isFa", HStr "True"); ("cliffAmount", HNone);
   ("recipient", HStr "0x1")].

(** ** The Anthropic loop, block by block *)

Section rendering.
Context `{PyRuntime} {world tool_result : Type}.
Variable session_call_tool :
  string -> heap -> hval -> world -> world * outcome tool_result.
Variable result_repr : tool_result -> string.

(** What a [tool_use] block leaves in the text, by the outcome of its
    call: the result goes through [str]. *)
Definition anthropic_annotation (tool_name : string)
    (r : outcome tool_result) : string :=
  match r with
  | Returned result => tool_result_text tool_name (result_repr result)
  | Raised e => tool_error_text tool_name e
  end.

(** The blocks of a response taken in order from a state: a text block
    gives its text, a [tool_use] block is preprocessed and called and gives
    its annotation, a block of another type gives nothing. *)
Inductive rendered :
  list block -> world * heap -> list string -> world * heap -> Prop :=
| rendered_nil s : rendered [] s [] s
| rendered_text text rest s texts s' :
    rendered rest s texts s' ->
    rendered (TextBlock text :: rest) s (text :: texts) s'
| rendered_other rest s texts s' :
    rendered rest s texts s' ->
    rendered (OtherBlock :: rest) s texts s'
| rendered_tool name input rest w h h2 processed_args w' r texts s' :
    _preprocess_tool_args name input h = (h2, Returned processed_args) ->
    session_call_tool name h2 processed_args w = (w', r) ->
    (forall e, r = Raised e -> is_Exception e = true) ->
    rendered rest (w', h2) texts s' ->
    rendered (ToolUse name input :: rest) (w, h)
      (anthropic_annotation name r :: texts) s'.

(** The text blocks of a response. *)
Definition block_texts (blocks : list block) : list string :=
  omap (fun b => match b with TextBlock text => Some text | _ => None end)
    blocks.

Definition is_tool_use (b : block) : bool :=
  match b with ToolUse _ _ => true | _ => false end.
End rendering.

(** ** The agent, [OpenAIAgent] *)

(** [needle in s] on strings. *)
Fixpoint str_contains (needle s : string) : bool :=
  String.prefix needle s ||
  match s with
  | EmptyString => false
  | String _ s' => str_contains needle s'
  end.

(** [c.isspace()] for one character, given by its UTF-8 bytes. The white
    space of Python is U+0009 to U+000D, U+001C to U+0020, U+0085, U+00A0,
    U+1680, U+2000 to U+200A, U+2028, U+2029, U+202F, U+205F and U+3000. *)
Definition py_isspace (c : string) : bool :=
  match map nat_of_ascii (String.list_ascii_of_string c) with
  | [n] => ((9 <=? n) && (n <=? 13) || (28 <=? n) && (n <=? 32))%nat
  | [a; n] => ((a =? 194) && ((n =? 133) || (n =? 160)))%nat
  | [a; b; n] =>
      ((a =? 225) && (b =? 154) && (n =? 128)
       || (a =? 226) && (b =? 128)
          && ((128 <=? n) && (n <=? 138) || (n =? 168) || (n =? 169)
              || (n =? 175))
       || (a =? 226) && (b =? 129) && (n =? 159)
       || (a =? 227) && (b =? 128) && (n =? 128))%nat
  | _ => false
  end.

Fixpoint drop_spaces (cs : list string) : list string :=
  match cs with
  | c :: cs' => if py_isspace c then drop_spaces cs' else cs
  | [] => []
  end.

(** [s.strip()]. *)
Definition str_strip (s : string) : string :=
  String.concat "" (rev (drop_spaces (rev (drop_spaces (py_chars s))))).

Definition not_connected_text (server_name : string) : string :=
  "错误: 服务器 " +:+ server_name +:+ " 未连接".

(** The f-string that [check_server_status] returns. *)
Definition status_text (read_only_mode has_private_key : bool) : string :=
  let mode_text :=
    if read_only_mode then "**只读模式**"
    else if has_private_key then "**读写模式**，并且已配置私钥"
    else "**读写模式**，但未配置私钥" in
  let action_text :=
    if read_only_mode then
      "我可以帮助你查询信息或生成交易数据，但无法直接执行需要私钥签名的操作（如发送交易）。"
    else if has_private_key then "我可以执行需要签名的交易操作。"
    else "虽然已设置为读写模式，但由于缺少私钥，我仍然无法执行需要签名的交易操作。" in
  "我当前处于" +:+ mode_text +:+ "。" +:+ action_text +:+ nl +:+ nl
  +:+ "如果你需要执行交易，"
  +:+ (if negb read_only_mode && has_private_key then "我可以直接帮你处理"
       else "可以让我生成交易数据，然后你使用私钥签名并提交")
  +:+ "。" +:+ nl +:+ nl
  +:+ "服务器配置信息:" +:+ nl
  +:+ "- 读写模式: "
  +:+ (if read_only_mode then "禁用 (只读)" else "启用 (读写)") +:+ nl
  +:+ "- 私钥配置: " +:+ (if has_private_key then "已配置" else "未配置").

(** [env.get("READ_ONLY_MODE", "true").lower() == "true"] *)
Definition read_only_mode (env : list (string * string)) : bool :=
  String.eqb (str_lower (default "true" (dict_get "READ_ONLY_MODE" env)))
    "true".

(** [bool(env.get("APTOS_PRIVATE_KEY", "").strip())] *)
Definition has_private_key (env : list (string * string)) : bool :=
  negb (String.eqb (str_strip (default "" (dict_get "APTOS_PRIVATE_KEY" env)))
          "").

(** [OpenAIAgent.check_server_status]. The environment of a configuration
    holds strings, on which nothing in the [try] block raises. *)
Definition check_server_status (hub : McpHub) (server_name : string)
  : string :=
  match connections hub !! server_name with
  | None => not_connected_text server_name
  | Some connection =>
      let env := cfg_env (conn_config connection) in
      status_text (read_only_mode env) (has_private_key env)
  end.

(** An entry of the [functions] list handed to the AI service. *)
Record function_spec : Type := {
  fs_name : string;
  fs_description : string;
  fs_parameters : value
}.

(** [getattr(tool, 'description', '') or f"Tool {tool.name}"]; a tool
    without description has the empty one. *)
Definition function_of_tool (tool : ToolDescriptor) : function_spec :=
  {| fs_name := tool_name tool;
     fs_description :=
       if String.eqb (tool_description tool) "" then "Tool " +:+ tool_name tool
       else tool_description tool;
     fs_parameters := inputSchema tool |}.

Definition no_tools_text : string := "错误: 无法获取服务器工具列表".

Definition no_functions_text : string := "错误: 无法构建工具函数列表".

(** [f"处理查询时发生错误: {str(e)}"] *)
Definition query_error_text (e : exn) : string :=
  "处理查询时发生错误: " +:+ exn_str e.

(** Is the query one of the status questions answered by the agent
    itself? *)
Definition is_status_query (query : string) : bool :=
  str_contains "当前是否是读写模式" query || str_contains "是否配置了私钥" query.

Section agent.
Context {world response : Type}.

(** Truth value of a session object. *)
Variable session_truthy : session_obj -> bool.

(** [await session.list_tools()]: the tools of the response, or [None] for
    a response that is falsy or has no [tools] attribute. *)
Variable session_list_tools :
  session_obj -> world -> world * outcome (option (list ToolDescriptor)).

(** The two methods of the AI service that the agent calls. *)
Variable generate_response :
  string -> list function_spec -> world -> world * outcome response.
Variable process_response :
  response -> string -> bool -> ST (world * heap) string.

(** A request that goes to the outside and leaves the store alone. *)
Definition outside {A : Type} (request : world -> world * outcome A)
  : ST (world * heap) A :=
  fun s => let '(w', r) := request (fst s) in ((w', snd s), r).

(** A method of the hub that reads it and leaves it as it is. *)
Definition read_hub {A : Type} (hub : McpHub) (m : ST McpHub A)
  : ST (world * heap) A :=
  fun s => (s, snd (m hub)).

(** [OpenAIAgent.process_query]. *)
Definition process_query (hub : McpHub) (query : string)
    (server_name : option string) : ST (world * heap) string :=
  let server_name := default default_server_name server_name in
  servers <- read_hub hub get_all_servers ;;
  if negb (bool_decide (server_name ∈ servers))
  then ret (not_connected_text server_name)
  else
    try_except
      (if is_status_query query then ret (check_server_status hub server_name)
       else
         connection <- read_hub hub (lookup_connection server_name) ;;
         match connection with
         | None => raise (Exception "'NoneType' object has no attribute 'get'")
         | Some connection =>
             let session := conn_session connection in
             if negb (session_truthy session) then ret no_session_text
             else
               tools_response <- outside (session_list_tools session) ;;
               match tools_response with
               | None | Some [] => ret no_tools_text
               | Some tools =>
                   match map function_of_tool tools with
                   | [] => ret no_functions_text
                   | functions =>
                       response <-
                         outside (generate_response query functions) ;;
                       process_response response server_name
                         (session_truthy session)
                   end
               end
         end)
      is_Exception
      (fun e => ret (query_error_text e)).
End agent.

(** ** The service factory *)

Inductive service_class : Type := OpenAIService | AnthropicService.

(** Does the string hold ASCII characters only? On such a string [lower]
    turns the letters [A] to [Z] into [a] to [z] and changes nothing else. *)
Definition is_ascii_str (s : string) : bool :=
  forallb (fun c => (nat_of_ascii c <? 128)%nat) (String.list_ascii_of_string s).

Section service_factory.
(** [s.lower()] on every string. *)
Variable py_lower : string -> string.

(** [AIServiceFactory.create_service], by the class it instantiates;
    [AI_SERVICE] is the environment variable, [None] when unset. Only the
    name taken from the environment is lowercased. *)
Definition create_service (service_type : option string)
    (AI_SERVICE : option string) : outcome service_class :=
  let from_env := py_lower (default "openai" AI_SERVICE) in
  let service_type :=
    match service_type with
    | Some s => if String.eqb s "" then from_env else s
    | None => from_env
    end in
  if String.eqb service_type "openai" then Returned OpenAIService
  else if String.eqb service_type "anthropic" || String.eqb service_type "claude"
  then Returned AnthropicService
  else Raised (Exception ("不支持的AI服务类型: " +:+ service_type)).

(** The service of [main]: it reads the variable itself and passes the
    name on as it is,
    [OpenAIAgent(mcp_hub, os.getenv("AI_SERVICE", "openai"))]. *)
Definition main_service (AI_SERVICE : option string) : outcome service_class :=
  create_service (Some (default "openai" AI_SERVICE)) AI_SERVICE.
End service_factory.

(** A session whose tool-list request breaks, and an AI service that always
    answers with [create_then_get]. *)
Definition broken_list_tools (s : session_obj) (w : nat)
  : nat * outcome (option (list ToolDescriptor)) :=
  (S w, Raised (Exception "broken pipe")).

Definition sample_generate (query : string) (functions : list function_spec)
    (w : nat) : nat * outcome completion :=
  (S w, Returned create_then_get).

(** A completion whose second invocation carries arguments that are no
    JSON. *)
Definition get_then_garbled : completion :=
  {| choices :=
       [{| content := Some "ok";
           tool_calls := [{| fn_name := "get-stream"; fn_arguments := "{}" |};
                          {| fn_name := "create-stream"; fn_arguments := "{" |};
                          {| fn_name := "get-stream"; fn_arguments := "{}" |}]
        |}] |}.

(** A completion in which the refused [create-stream] stands between two
    other invocations. *)
Definition get_create_get : completion :=
  {| choices :=
       [{| content := Some "ok";
           tool_calls := [{| fn_name := "get-stream"; fn_arguments := "{}" |};
                          {| fn_name := "create-stream"; fn_arguments := "{}" |};
                          {| fn_name := "get-account"; fn_arguments := "{}" |}]
        |}] |}.

(** A completion whose first invocation is refused by the server and whose
    second one carries arguments that are no JSON. *)
Definition create_then_garbled : completion :=
  {| choices :=
       [{| content := Some "ok";
           tool_calls := [{| fn_name := "create-stream"; fn_arguments := "{}" |};
                          {| fn_name := "get-stream"; fn_arguments := "{" |}]
        |}] |}.

(** A completion with two invocations, the second of which carries
    arguments that are no JSON. *)
Definition get_then_undecodable : completion :=
  {| choices :=
       [{| content := None;
           tool_calls := [{| fn_name := "get-stream"; fn_arguments := "{}" |};
                          {| fn_name := "cancel-stream";
                             fn_arguments := "stream 7" |}]
        |}] |}.

(** ** The configuration module, [config.py] *)

(** [DEFAULT_CONFIG]; the order of the keys plays no part in the module. *)
Definition DEFAULT_CONFIG : gmap string value :=
  list_to_map
    [("network", VStr "mainnet");
     ("node_url", VStr "https://fullnode.mainnet.aptoslabs.com/v1");
     ("read_only", VBool true);
     ("server_path",
      VStr "D:/projects/AI/mcp/moveflow_aptos_mcp/moveflow_aptos_mcp_server/build/index.js");
     ("server_type", VStr "stdio");
     ("server_config",
      VDict
        [("command", VStr "node");
         ("args",
          VList
            [VStr "D:/projects/AI/mcp/moveflow_aptos_mcp/moveflow_aptos_mcp_server/build/index.js"]);
         ("env", VDict []);
         ("url", VStr "http://localhost:8080/sse")])].

(** What reading the file at [CONFIG_FILE_PATH] gives: there is no file,
    opening or decoding it fails with an error of class [Exception], or it
    holds a JSON object. A file that decodes to a JSON value of another
    kind is not covered. *)
Inductive config_file : Type :=
| FileMissing
| FileUnreadable (msg : string)
| FileObject (items : gmap string value).

(** [env_mapping], in the order of the literal. *)
Definition env_mapping : list (string * string) :=
  [("APTOS_NETWORK", "network"); ("APTOS_NODE_URL", "node_url");
   ("MOVEFLOW_READ_ONLY", "read_only");
   ("MOVEFLOW_SERVER_PATH", "server_path")].

Section config_module.
(** The file system, with reading and writing of the configuration file:
    [json.load] on the open file, and [os.makedirs], [open] and [json.dump]
    in [save_config]. *)
Context {fs : Type}.
Variable read_config_file : fs -> config_file.
Variable write_config_file : gmap string value -> fs -> fs * outcome unit.

(** The state of the process: the module global [_config], [os.environ]
    and the files. *)
Record process : Type := {
  _config : option (gmap string value);
  environ : gmap string string;
  files : fs
}.

Definition set_config (config : gmap string value) (st : process) : process :=
  {| _config := Some config; environ := environ st; files := files st |}.

(** [d[key]]. *)
Definition config_item (key : string) (d : gmap string value)
  : ST process value :=
  match d !! key with
  | Some v => ret v
  | None => raise (Exception ("'" +:+ key +:+ "'"))
  end.

(** The body of the loop over [env_mapping]. *)
Definition override_from_env (config : gmap string value)
    (entry : string * string) : ST process (gmap string value) :=
  let '(env_var, config_key) := entry in
  env <- gets environ ;;
  match env !! env_var with
  | Some text =>
      if String.eqb config_key "read_only" then
        current <- config_item config_key config ;;
        match current with
        | VBool _ =>
            ret (<[config_key := VBool (String.eqb (str_lower text) "true")]>
                   config)
        | _ => ret (<[config_key := VStr text]> config)
        end
      else ret (<[config_key := VStr text]> config)
  | None => ret config
  end.

Fixpoint override_all (entries : list (string * string))
    (config : gmap string value) : ST process (gmap string value) :=
  match entries with
  | [] => ret config
  | entry :: entries' =>
      config' <- override_from_env config entry ;;
      override_all entries' config'
  end.

(** [load_config]. [config.update(file_config)] lets the file's entries
    win over the defaults. *)
Definition load_config : ST process (gmap string value) :=
  cached <- gets _config ;;
  match cached with
  | Some config => ret config
  | None =>
      let config := DEFAULT_CONFIG in
      config <-
        try_except
          (file <- gets (fun st => read_config_file (files st)) ;;
           match file with
           | FileMissing => ret config
           | FileUnreadable msg => raise (Exception msg)
           | FileObject file_config => ret (file_config ∪ config)
           end)
          is_Exception
          (fun _ => ret config) ;;
      config <- override_all env_mapping config ;;
      modify (set_config config) ;;;
      ret config
  end.

(** [save_config]: the global is set before the file is written. *)
Definition save_config (config : gmap string value) : ST process unit :=
  modify (set_config config) ;;;
  fun st =>
    let '(files', r) := write_config_file config (files st) in
    ({| _config := _config st; environ := environ st; files := files' |}, r).

Definition get_network : ST process value :=
  config <- load_config ;; config_item "network" config.

Definition get_node_url : ST process value :=
  config <- load_config ;; config_item "node_url" config.

Definition get_read_only : ST process value :=
  config <- load_config ;; config_item "read_only" config.

Definition get_server_path : ST process value :=
  config <- load_config ;; config_item "server_path" config.

Definition get_server_type : ST process value :=
  config <- load_config ;; config_item "server_type" config.

Definition get_server_config : ST process value :=
  config <- load_config ;; config_item "server_config" config.

(** [set_server_config]. *)
Definition set_server_config (config_type : value) (config : value)
  : ST process unit :=
  full_config <- load_config ;;
  save_config (<["server_config" := config]>
                 (<["server_type" := config_type]> full_config)).

(** [update_config]. *)
Definition update_config (key : string) (v : value) : ST process unit :=
  config <- load_config ;;
  save_config (<[key := v]> config).

(** The entries the file contributes. *)
Definition file_entries (st : process) : gmap string value :=
  match read_config_file (files st) with
  | FileObject items => items
  | _ => ∅
  end.

End config_module.

(** A process that has not loaded the configuration: the file names the
    test network and the environment sets MOVEFLOW_READ_ONLY to [yes]. The
    file system is the content of the one file, and writing it fails. *)
Definition sample_process : @process config_file :=
  {| _config := None;
     environ := {[ "MOVEFLOW_READ_ONLY" := "yes" ]};
     files := FileObject {[ "network" := VStr "testnet" ]} |}.

Definition failing_write (config : gmap string value) (f : config_file)
  : config_file * outcome unit :=
  (f, Raised (Exception "read-only file system")).

(** ** The command-line client, [client.py] *)

(** Truth value of a value in a condition. *)
Definition value_truthy (v : value) : bool :=
  match v with
  | VNone => false
  | VBool b => b
  | VInt z => negb (z =? 0)
  | VFloat (S754_zero _) => false
  | VFloat _ => true
  | VStr s => negb (String.eqb s "")
  | VList [] => false
  | VList _ => true
  | VDict [] => false
  | VDict _ => true
  end.

(** Truth value of a string that may be [None]. *)
Definition str_truthy (s : option string) : bool :=
  match s with
  | Some s => negb (String.eqb s "")
  | None => false
  end.

(** [needle in v] for a string [needle]: a substring of a string, an
    element of a list, a key of a dict; other values are no containers. *)
Definition value_contains (needle : string) (v : value) : outcome bool :=
  match v with
  | VStr s => Returned (str_contains needle s)
  | VList items =>
      Returned (existsb (fun x => match x with
                                  | VStr s => String.eqb needle s
                                  | _ => false
                                  end) items)
  | VDict items =>
      Returned (match dict_get needle items with
                | Some _ => true
                | None => false
                end)
  | _ =>
      Raised (Exception ("argument of type '" +:+ value_type_name v
                           +:+ "' is not iterable"))
  end.

(** The elements a [for ... in v] visits. *)
Definition value_iter (v : value) : outcome (list value) :=
  match v with
  | VList items => Returned items
  | VStr s => Returned (map VStr (py_chars s))
  | VDict items => Returned (map (fun kv => VStr (fst kv)) items)
  | _ =>
      Raised (Exception ("'" +:+ value_type_name v
                           +:+ "' object is not iterable"))
  end.

(** The class [[a-zA-Z0-9_]]. *)
Definition is_word_char (c : ascii) : bool :=
  let n := nat_of_ascii c in
  ((48 <=? n) && (n <=? 57) || (65 <=? n) && (n <=? 90)
   || (97 <=? n) && (n <=? 122) || (n =? 95))%nat.

(** The longest run of word characters at the head of a string. *)
Fixpoint take_word (s : string) : string :=
  match s with
  | String c s' => if is_word_char c then String c (take_word s') else ""
  | EmptyString => ""
  end.

(** The pattern [transactionId: ([a-zA-Z0-9_]+)] matched at the head of a
    text: the group, which is greedy. *)
Definition match_tx_id (text : string) : option string :=
  if String.prefix "transactionId: " text then
    match take_word (str_drop (String.length "transactionId: ") text) with
    | EmptyString => None
    | tx_id => Some tx_id
    end
  else None.

(** [re.search(r'transactionId: ([a-zA-Z0-9_]+)', text)], by its group 1:
    the leftmost match. *)
Fixpoint search_tx_id (text : string) : option string :=
  match match_tx_id text with
  | Some tx_id => Some tx_id
  | None =>
      match text with
      | String _ text' => search_tx_id text'
      | EmptyString => None
      end
  end.

(** [re.search] on a value: the pattern is a string pattern. The text of
    the error is that of Python 3.10; from 3.11 on it also names the type
    of the value. *)
Definition re_search_tx_id (text : value) : outcome (option string) :=
  match text with
  | VStr s => Returned (search_tx_id s)
  | _ => Raised (Exception "expected string or bytes-like object")
  end.

Definition prepared_marker : string := "Transaction prepared but not executed".

(** The text of a well-formed content item: a dict whose [text], when it
    has one, is a string. *)
Definition item_text (item : value) : option string :=
  match item with
  | VDict fields =>
      match dict_get "text" fields with
      | Some (VStr s) => Some s
      | Some _ => None
      | None => Some ""
      end
  | _ => None
  end.

(** The transaction a text announces as prepared and waiting for a
    signature. *)
Definition announced (text : string) : option string :=
  if str_contains prepared_marker text && str_contains "transactionId" text
  then search_tx_id text
  else None.

(** Is the value in the standard form of a tool response, a dict whose
    [content] is a list? *)
Definition is_standard (result : value) : bool :=
  match result with
  | VDict fields =>
      match dict_get "content" fields with
      | Some (VList _) => true
      | _ => false
      end
  | _ => false
  end.

Module MoveFlowClient.
Section client.
Context {world account : Type}.

(** [self.client.call_tool(tool_name, args)]. *)
Variable call_tool : string -> value -> ST world value.

(** [self._get_transaction_data(tx_id)] and
    [self._sign_transaction(payload)]. *)
Variable _get_transaction_data : string -> ST world value.
Variable _sign_transaction : value -> ST world value.

(** [str(result)]. *)
Variable py_str : value -> string.

(** [Account.load_key(private_key)] of the Aptos SDK. *)
Variable load_key : string -> outcome account.

(** [MoveFlowClient._handle_tool_call]. *)
Definition _handle_tool_call (tool_name : string) (params : value)
  : ST world value :=
  result <- call_tool tool_name params ;;
  if is_standard result then ret result
  else
    ret (VDict
           [("content",
             VList
               [VDict
                  [("type", VStr "text");
                   ("text",
                    VStr (match result with
                          | VNone => "操作完成，但无返回结果"
                          | _ => py_str result
                          end))]])]).

(** [MoveFlowClient.submit_signed_transaction]. *)
Definition submit_signed_transaction (tx_id : string) (signature : value)
  : ST world value :=
  try_except
    (call_tool "submit-signed-transaction"
       (VDict [("transactionId", VStr tx_id);
               ("signedTransaction", signature)]))
    is_Exception
    (fun e => raise e).

(** The [for item in content] loop of [_handle_transaction_preparation];
    falling out of it returns the response. *)
Fixpoint prepare_items (items : list value) (response : value)
  : ST world value :=
  match items with
  | [] => ret response
  | item :: rest =>
      text <- reply (value_get "text" (VStr "") item) ;;
      marked <- reply (value_contains prepared_marker text) ;;
      named <-
        (if marked : bool then reply (value_contains "transactionId" text)
         else ret false) ;;
      if marked && named then
        found <- reply (re_search_tx_id text) ;;
        match found with
        | Some tx_id =>
            tx_data <- _get_transaction_data tx_id ;;
            if value_truthy tx_data then
              signature <- _sign_transaction tx_data ;;
              submit_signed_transaction tx_id signature
            else prepare_items rest response
        | None => prepare_items rest response
        end
      else prepare_items rest response
  end.

(** [MoveFlowClient._handle_transaction_preparation]. *)
Definition _handle_transaction_preparation (response : value)
  : ST world value :=
  result <- reply (value_get "result" VNone response) ;;
  if negb (value_truthy result) then ret response
  else
    result <- reply (value_get "result" (VDict []) response) ;;
    content <- reply (value_get "content" (VList []) result) ;;
    if negb (value_truthy content) then ret response
    else
      items <- reply (value_iter content) ;;
      prepare_items items response.

(** The two attributes that the choice of the signing key reads and
    writes. An account object is truthy. *)
Record keys : Type := {
  _private_key : option string;
  _account : option account
}.

Definition no_key_text : string :=
  "未提供私钥，请通过构造函数传入私钥参数或设置APTOS_PRIVATE_KEY环境变量".

(** [MoveFlowClient._ensure_account_loaded]; [APTOS_PRIVATE_KEY] is the
    environment variable, [None] when unset. *)
Definition _ensure_account_loaded (APTOS_PRIVATE_KEY : option string)
  : ST keys account :=
  cached <- gets _account ;;
  match cached with
  | Some account => ret account
  | None =>
      private_key <- gets _private_key ;;
      let private_key :=
        if negb (str_truthy private_key) then APTOS_PRIVATE_KEY
        else private_key in
      match private_key with
      | Some key =>
          if String.eqb key "" then raise (Exception no_key_text)
          else
            account <- reply (load_key key) ;;
            modify (fun st => {| _private_key := _private_key st;
                                 _account := Some account |}) ;;;
            ret account
      | None => raise (Exception no_key_text)
      end
  end.

(** [MoveFlowClient.set_private_key]. *)
Definition set_private_key (private_key : option string) : ST keys unit :=
  modify (fun _ => {| _private_key := private_key; _account := None |}).
End client.

Section construction.
Context `{PyRuntime}.

(** What [get_network()], [get_node_url()] and [get_read_only()] give, be
    they the functions of [config] or the fallbacks of the import; they do
    not touch the objects of the store. *)
Variable get_network get_node_url get_read_only : outcome hval.

(** [s.lower()] on every string. *)
Variable py_lower : string -> string.

(** The module constant [DEFAULT_NPX_PACKAGE]. *)
Variable DEFAULT_NPX_PACKAGE : string.

(** [field in v]. *)
Definition contains_v (v : hval) (field : string) : M bool :=
  match v with
  | HRef p => contains p field
  | HStr s => ret (str_contains field s)
  | _ =>
      fun h =>
        (h, Raised (Exception ("argument of type '" +:+ type_name h v
                                 +:+ "' is not iterable")))
  end.

(** [v[field]]. *)
Definition getitem_v (v : hval) (field : string) : M hval :=
  match v with
  | HRef p => getitem p field
  | HStr _ => raise (Exception "string indices must be integers, not 'str'")
  | _ =>
      fun h =>
        (h, Raised (Exception ("'" +:+ type_name h v
                                 +:+ "' object is not subscriptable")))
  end.

(** [v[field] = x]. *)
Definition setitem_v (v : hval) (field : string) (x : hval) : M unit :=
  match v with
  | HRef p => setitem p field x
  | _ =>
      fun h =>
        (h, Raised (Exception ("'" +:+ type_name h v
                                 +:+ "' object does not support item assignment")))
  end.

(** Looking up the method [update]: only a dict has it. The result is the
    location of the dict. *)
Definition update_method (v : hval) : M loc :=
  match v with
  | HRef p =>
      o <- load p ;;
      match o with
      | ODict _ => ret p
      | OList _ => raise (Exception "'list' object has no attribute 'update'")
      end
  | _ =>
      fun h =>
        (h, Raised (Exception ("'" +:+ type_name h v
                                 +:+ "' object has no attribute 'update'")))
  end.

(** [x or y], with [y] evaluated only when needed. *)
Definition or_else (x : hval) (y : M hval) : M hval :=
  t <- truthy x ;;
  if t : bool then ret x else y.

(** The three entries written into the environment of the server. *)
Definition aptos_entries (network node_url : hval) (read_only_text : string)
  : list (string * hval) :=
  [("APTOS_NETWORK", network); ("APTOS_NODE_URL", node_url);
   ("READ_ONLY_MODE", HStr read_only_text)].

(** [MCPClient.__init__(server_config)], by the configuration it keeps: the
    object it is given when that is truthy, a new default one otherwise. *)
Definition MCPClient_init (server_config : hval) : M hval :=
  t <- truthy server_config ;;
  if t : bool then ret server_config
  else
    args <- alloc (OList [HStr "-y"; HStr DEFAULT_NPX_PACKAGE]) ;;
    env <- alloc (ODict []) ;;
    config <- alloc (ODict [("command", HStr "npx"); ("args", HRef args);
                            ("env", HRef env)]) ;;
    ret (HRef config).

(** The attributes of a new [MoveFlowClient] that depend on the arguments;
    [server_config] is the one its [MCPClient] keeps. *)
Record client_object : Type := {
  network : hval;
  node_url : hval;
  read_only : hval;
  npx_package : hval;
  server_config : hval;
  private_key : hval
}.

(** [MoveFlowClient.__init__]. *)
Definition __init__ (server_config network node_url read_only private_key
    npx_package : hval) : M client_object :=
  network <- or_else network (reply get_network) ;;
  node_url <- or_else node_url (reply get_node_url) ;;
  read_only <-
    (if is_none read_only then reply get_read_only else ret read_only) ;;
  npx_package <- or_else npx_package (ret (HStr DEFAULT_NPX_PACKAGE)) ;;
  server_config <-
    (if is_none server_config then
       args <- alloc (OList [HStr "-y"; npx_package]) ;;
       text <- str read_only ;;
       env <- alloc (ODict (aptos_entries network node_url (py_lower text))) ;;
       config <- alloc (ODict [("command", HStr "npx"); ("args", HRef args);
                               ("env", HRef env)]) ;;
       ret (HRef config)
     else
       present <- contains_v server_config "env" ;;
       (if present : bool then ret tt
        else
          env <- alloc (ODict []) ;;
          setitem_v server_config "env" (HRef env)) ;;;
       target <- getitem_v server_config "env" ;;
       env <- update_method target ;;
       text <- str read_only ;;
       entries <-
         alloc (ODict (aptos_entries network node_url (py_lower text))) ;;
       for_each (aptos_entries network node_url (py_lower text))
         (fun entry => setitem env (fst entry) (snd entry)) ;;;
       ret server_config) ;;
  kept <- MCPClient_init server_config ;;
  ret {| network := network; node_url := node_url; read_only := read_only;
         npx_package := npx_package; server_config := kept;
         private_key := private_key |}.
End construction.
End MoveFlowClient.

(** ** The signer, [aptos_signer.py] *)

Module AptosSigner.
Section signer.
Context {account : Type}.

(** [Account.load_key(private_key)] of the Aptos SDK. *)
Variable load_key : string -> outcome account.

(** The signer's cached account, with the number of times the user has
    been asked for a key. An account object is truthy. *)
Record signer : Type := {
  _account : option account;
  prompts : nat
}.

(** [AptosSigner.load_account_from_key]. *)
Definition load_account_from_key (private_key : string) : ST signer account :=
  account <- reply (load_key private_key) ;;
  modify (fun st => {| _account := Some account; prompts := prompts st |}) ;;;
  ret account.

(** [AptosSigner.load_account_from_env]. *)
Definition load_account_from_env (APTOS_PRIVATE_KEY : option string)
  : ST signer (option account) :=
  match APTOS_PRIVATE_KEY with
  | Some private_key =>
      if String.eqb private_key "" then ret None
      else account <- load_account_from_key private_key ;; ret (Some account)
  | None => ret None
  end.

(** [AptosSigner.load_account_interactive]; [typed] is what
    [getpass.getpass] gives. *)
Definition load_account_interactive (typed : outcome string)
  : ST signer account :=
  modify (fun st => {| _account := _account st; prompts := S (prompts st) |}) ;;;
  private_key <- reply typed ;;
  if String.eqb private_key "" then raise (Exception "未提供私钥")
  else load_account_from_key private_key.

(** [AptosSigner.ensure_account_loaded]. *)
Definition ensure_account_loaded (APTOS_PRIVATE_KEY : option string)
    (typed : outcome string) : ST signer account :=
  cached <- gets _account ;;
  match cached with
  | Some account => ret account
  | None =>
      account <- load_account_from_env APTOS_PRIVATE_KEY ;;
      match account with
      | Some account => ret account
      | None => load_account_interactive typed
      end
  end.
End signer.
End AptosSigner.

(** A content item that is well formed and announces nothing. *)
Definition quiet (item : value) : Prop :=
  exists text, item_text item = Some text /\ announced text = None.

(** What loading the account of a key does to the client: the account is
    kept when the key is accepted. *)
Definition client_loaded {account : Type} (load_key : string -> outcome account)
    (key : string) (st : @MoveFlowClient.keys account)
  : @MoveFlowClient.keys account * outcome account :=
  match load_key key with
  | Returned a =>
      ({| MoveFlowClient._private_key := MoveFlowClient._private_key st;
          MoveFlowClient._account := Some a |}, Returned a)
  | Raised e => (st, Raised e)
  end.

(** A tool server for the client: it counts the requests and answers every
    tool with a text that names it. *)
Definition echo_call (tool_name : string) (args : value) : ST nat value :=
  fun w =>
    (S w,
     Returned
       (VDict [("result",
                VDict [("content",
                        VList [VDict [("type", VStr "text");
                                      ("text", VStr tool_name)]])])])).

Definition sample_get_data (tx_id : string) : ST nat value :=
  fun w => (S w, Returned (VDict [("rawTxn", VStr tx_id)])).

Definition sample_sign (payload : value) : ST nat value :=
  fun w => (w, Returned (VDict [("signature", VStr "0xsig")])).

(** A response whose second item announces the prepared transaction
    [tx_42]. *)
Definition prepared_text : string :=
  "Transaction prepared but not executed. transactionId: tx_42.".

Definition prepared_items : list value :=
  [VDict [("type", VStr "text"); ("text", VStr "Stream ready.")];
   VDict [("type", VStr "text"); ("text", VStr prepared_text)]].

Definition prepared_response : value :=
  VDict [("result", VDict [("content", VList prepared_items)])].

(** A key loader that accepts the texts that begin with [0x]; the account
    is the length of the key. *)
Definition sample_load_key (key : string) : outcome nat :=
  if String.prefix "0x" key then Returned (String.length key)
  else Raised (Exception "invalid key").

(** A store in which the caller holds a server configuration (object 0)
    whose environment (object 1) names the main network. *)
Definition callers_store : heap :=
  [ODict [("command", HStr "node"); ("env", HRef 1%nat)];
   ODict [("APTOS_NETWORK", HStr "mainnet"); ("DEBUG", HStr "1")]].

(** * Properties *)

(** ** The numeric-safety transform *)

Section numeric_safety_facts.
Context `{PyRuntime}.

Lemma exceeds_safe_bool b : exceeds_safe (VBool b) = false.
Proof. by destruct b. Qed.

Lemma exceeds_safe_scalar v : exceeds_safe v = true -> is_scalar v = true.
Proof. by destruct v. Qed.

Lemma convert_bigint_scalar v :
  is_scalar v = true ->
  convert_bigint v = if exceeds_safe v then VStr (scalar_str v) else v.
Proof. by destruct v. Qed.

(** The two copies of the transform are the same function. *)
Lemma convert_args_bigint_eq v : convert_args_bigint v = convert_bigint v.
Proof. reflexivity. Qed.

(** The code computes the image the specification describes. *)
Lemma convert_bigint_safe_image v : safe_image v (convert_bigint v).
Proof.
  induction v as [|b|z|f|s|items IH|items IH] using value_nested_ind.
  - by apply si_scalar.
  - destruct b; by apply si_scalar.
  - simpl. destruct (MAX_SAFE_INTEGER <? Z.abs z) eqn:E.
    + apply si_big_int. by apply Z.ltb_lt.
    + by apply si_scalar.
  - simpl. destruct (float_abs_gt f MAX_SAFE_INTEGER) eqn:E.
    + by apply si_big_float.
    + by apply si_scalar.
  - by apply si_scalar.
  - simpl. apply si_list.
    induction IH as [|x l Hx _ IHl]; simpl; by constructor.
  - simpl. apply si_dict.
    induction IH as [|[k x] l Hx _ IHl]; simpl in *; by constructor.
Qed.

(** A tree without a number beyond the safe range is left as it is. *)
Lemma convert_bigint_all_safe v : all_safe v = true -> convert_bigint v = v.
Proof.
  induction v as [|b|z|f|s|items IH|items IH] using value_nested_ind;
    intros Hs;
    try (apply negb_true_iff in Hs;
         rewrite convert_bigint_scalar by done; by rewrite Hs).
  - simpl in *. f_equal.
    induction IH as [|x l Hx _ IHl]; simpl in *; [done|].
    apply andb_true_iff in Hs as [Hx' Hl]. by rewrite Hx, IHl.
  - simpl in *. f_equal.
    induction IH as [|[k x] l Hx _ IHl]; simpl in *; [done|].
    apply andb_true_iff in Hs as [Hx' Hl]. by rewrite Hx, IHl.
Qed.
(** Applying the transform to its own result changes nothing. *)
Lemma convert_bigint_twice_scalar v :
  is_scalar v = true -> convert_bigint (convert_bigint v) = convert_bigint v.
Proof.
  intros Hv. rewrite (convert_bigint_scalar v Hv).
  destruct (exceeds_safe v) eqn:E; [done|].
  by rewrite (convert_bigint_scalar v Hv), E.
Qed.

Lemma convert_bigint_twice v :
  convert_bigint (convert_bigint v) = convert_bigint v.
Proof.
  induction v as [|b|z|f|s|items IH|items IH] using value_nested_ind;
    try by apply convert_bigint_twice_scalar.
  - simpl. f_equal. rewrite map_map.
    induction IH as [|x l Hx _ IHl]; simpl; [done|]. by rewrite Hx, IHl.
  - simpl. f_equal. rewrite map_map.
    induction IH as [|[k x] l Hx _ IHl]; simpl in *; [done|].
    by rewrite Hx, IHl.
Qed.
End numeric_safety_facts.

(** C3 (as amended): on every value tree the transform turns each integer
    whose absolute value exceeds 2^53-1 into its decimal digits, which
    determine the integer, and each float whose absolute value exceeds
    2^53-1 into [str] of the float; every other scalar is left unchanged and
    lists and dicts keep their shape and keys. Both copies of the transform
    do so, and 9223372036854775807 becomes the string of its digits. *)
Theorem numeric_safety_transform `{PyRuntime} :
  (forall v, safe_image v (convert_bigint v)) /\
  (forall v, safe_image v (convert_args_bigint v)) /\
  Inj (=) (=) (fun z : Z => scalar_str (VInt z)) /\
  convert_bigint (VInt 9223372036854775807) = VStr "9223372036854775807" /\
  convert_args_bigint (VInt 9223372036854775807)
    = VStr "9223372036854775807".
Proof.
  split; [apply convert_bigint_safe_image|].
  split; [intros v; rewrite convert_args_bigint_eq;
          apply convert_bigint_safe_image|].
  split; [intros z z' Hz; simpl in Hz; by apply (inj pretty) in Hz|].
  split; reflexivity.
Qed.

(** C3 fails as stated: positive infinity is a float whose absolute value
    exceeds 2^53-1, and the transform turns it into the text [inf], which is
    no decimal numeral. *)
Lemma numeric_safety_infinity :
  exceeds_safe (VFloat (S754_infinity false)) = true /\
  @convert_bigint sample_runtime (VFloat (S754_infinity false)) = VStr "inf" /\
  is_decimal_numeral "inf" = false.
Proof. repeat split. Qed.

(** C10: the big-integer conversion is idempotent; the strings made by a
    first pass go through a second pass unchanged. *)
Theorem convert_bigint_idempotent `{PyRuntime} :
  (forall v, convert_bigint (convert_bigint v) = convert_bigint v) /\
  (forall v, convert_args_bigint (convert_args_bigint v)
             = convert_args_bigint v) /\
  (forall s, convert_bigint (VStr s) = VStr s).
Proof.
  split; [apply convert_bigint_twice|].
  split; [intros v; rewrite !convert_args_bigint_eq;
          apply convert_bigint_twice|].
  reflexivity.
Qed.


(** ** Argument preprocessing leaves the caller's objects alone *)

Section preprocess_facts.
Context `{PyRuntime}.

Lemma frame_read {A : Type} n (m : M A) : (forall h, (m h).1 = h) -> frame n m.
Proof. intros Hm h Hn. by rewrite Hm. Qed.

Lemma frame_bind {A B : Type} n (m : M A) (k : A -> M B) :
  frame n m -> (forall a, frame n (k a)) -> frame n (bind m k).
Proof.
  intros Hm Hk h Hn. unfold bind.
  destruct (Hm h Hn) as [Hlen Hlk]. destruct (m h) as [h1 [a|e]]; simpl in *.
  - destruct (Hk a h1 Hlen) as [Hlen' Hlk']. split; [done|].
    intros l Hl. rewrite Hlk' by done. by apply Hlk.
  - done.
Qed.

Lemma frame_ret {A : Type} n (a : A) : frame n (ret a).
Proof. by apply frame_read. Qed.

Lemma frame_raise {A : Type} n e : frame n (raise e : M A).
Proof. by apply frame_read. Qed.

Lemma frame_load n l : frame n (load l).
Proof. apply frame_read. intros h. unfold load. by destruct (h !! l). Qed.

Lemma frame_alloc n o : frame n (alloc o).
Proof.
  intros h Hn. unfold alloc. simpl. split.
  - rewrite length_app. lia.
  - intros l Hl. apply lookup_app_l. lia.
Qed.

Lemma frame_contains n p field : frame n (contains p field).
Proof.
  apply frame_bind; [apply frame_load|].
  intros [items|items]; apply frame_ret.
Qed.

Lemma frame_getitem n p field : frame n (getitem p field).
Proof.
  apply frame_bind; [apply frame_load|].
  intros [items|items]; [apply frame_raise|].
  destruct (dict_get field items); [apply frame_ret|apply frame_raise].
Qed.

(** The one update in place touches the object it is given, no other. *)
Lemma frame_setitem n p field v : (n <= p)%nat -> frame n (setitem p field v).
Proof.
  intros Hp. apply frame_bind; [apply frame_load|].
  intros [items|items]; [apply frame_raise|].
  intros h Hn. cbn [fst]. split.
  - by rewrite length_insert.
  - intros l Hl. apply list_lookup_insert_ne. lia.
Qed.

Lemma frame_str n v : frame n (str v).
Proof. by apply frame_read. Qed.

Lemma frame_truthy n v : frame n (truthy v).
Proof.
  destruct v as [| | |f| |l]; try apply frame_ret.
  - destruct f; apply frame_ret.
  - apply frame_bind; [apply frame_load|].
    intros [items|items]; apply frame_ret.
Qed.

Lemma frame_iter n v : frame n (iter v).
Proof.
  destruct v as [| | | | |l]; try (by apply frame_read); try apply frame_ret.
  apply frame_bind; [apply frame_load|].
  intros [items|items]; apply frame_ret.
Qed.

Lemma frame_for_each {A : Type} n (xs : list A) (body : A -> M unit) :
  (forall x, frame n (body x)) -> frame n (for_each xs body).
Proof.
  intros Hbody. induction xs as [|x xs IH]; simpl; [apply frame_ret|].
  apply frame_bind; [apply Hbody|]. by intros _.
Qed.

Lemma frame_stringify_field n p field :
  (n <= p)%nat -> frame n (stringify_field p field).
Proof.
  intros Hp. apply frame_bind; [apply frame_contains|].
  intros [|]; [|apply frame_ret].
  apply frame_bind; [apply frame_getitem|]. intros v.
  destruct (is_none v); [apply frame_ret|].
  apply frame_bind; [apply frame_getitem|]. intros v'.
  apply frame_bind; [apply frame_str|]. intros s.
  by apply frame_setitem.
Qed.

Lemma frame_boolify_field n p field :
  (n <= p)%nat -> frame n (boolify_field p field).
Proof.
  intros Hp. apply frame_bind; [apply frame_contains|].
  intros [|]; [|apply frame_ret].
  apply frame_bind; [apply frame_getitem|]. intros v.
  destruct v; try apply frame_ret.
  apply frame_bind; [apply frame_getitem|]. intros v'.
  destruct v'; try apply frame_raise. by apply frame_setitem.
Qed.

Lemma frame_stringify_items n p field :
  (n <= p)%nat -> frame n (stringify_items p field).
Proof.
  intros Hp. apply frame_bind; [apply frame_contains|].
  intros [|]; [|apply frame_ret].
  apply frame_bind; [apply frame_getitem|]. intros v.
  apply frame_bind; [apply frame_truthy|].
  intros [|]; [|apply frame_ret].
  apply frame_bind; [apply frame_getitem|]. intros v'.
  apply frame_bind; [apply frame_iter|]. intros xs.
  apply frame_bind; [by apply frame_read|]. intros strs.
  apply frame_bind; [apply frame_alloc|]. intros l.
  by apply frame_setitem.
Qed.

(** The copy is a new object: it gets the first free location. *)
Lemma copy_cases args h :
  (exists e, copy args h = (h, Raised e)) \/
  (exists o, copy args h = ((h ++ [o])%list, Returned (length h))).
Proof.
  destruct args as [| | | | |a]; simpl; try (left; by eexists).
  unfold bind, load. destruct (h !! a) as [o|]; [right|left]; by eexists.
Qed.

Lemma frame_after_copy n tool_name p :
  (n <= p)%nat -> frame n (after_copy tool_name p).
Proof.
  intros Hp. unfold after_copy.
  destruct (String.eqb tool_name "create-stream").
  { apply frame_bind;
      [apply frame_for_each; intros; by apply frame_stringify_field|intros _].
    apply frame_bind;
      [apply frame_for_each; intros; by apply frame_boolify_field|intros _].
    apply frame_ret. }
  destruct (String.eqb tool_name "batch-create-streams"); [|apply frame_ret].
  apply frame_bind; [by apply frame_stringify_items|intros _].
  apply frame_bind; [by apply frame_stringify_items|intros _].
  apply frame_bind;
    [apply frame_for_each; intros; by apply frame_stringify_field|intros _].
  apply frame_ret.
Qed.

Lemma bind_returned {A B : Type} (m : M A) (k : A -> M B) h b :
  (bind m k h).2 = Returned b ->
  exists a h1, m h = (h1, Returned a) /\ (k a h1).2 = Returned b.
Proof.
  unfold bind. destruct (m h) as [h1 [a|e]]; [|done]. intros Hk. by exists a, h1.
Qed.

Lemma after_copy_returns tool_name p h r :
  (after_copy tool_name p h).2 = Returned r -> r = HRef p.
Proof.
  unfold after_copy.
  destruct (String.eqb tool_name "create-stream").
  { intros Hr. apply bind_returned in Hr as (? & ? & _ & Hr).
    apply bind_returned in Hr as (? & ? & _ & Hr). simpl in Hr. congruence. }
  destruct (String.eqb tool_name "batch-create-streams").
  { intros Hr. apply bind_returned in Hr as (? & ? & _ & Hr).
    apply bind_returned in Hr as (? & ? & _ & Hr).
    apply bind_returned in Hr as (? & ? & _ & Hr). simpl in Hr. congruence. }
  simpl. congruence.
Qed.

Lemma preprocess_unfold tool_name args :
  _preprocess_tool_args tool_name args
  = bind (copy args) (after_copy tool_name).
Proof. reflexivity. Qed.

(** Every object the store held before the call is the same after it. *)
Lemma preprocess_old_objects tool_name args h l :
  (l < length h)%nat ->
  (_preprocess_tool_args tool_name args h).1 !! l = h !! l.
Proof.
  intros Hl. rewrite preprocess_unfold. unfold bind.
  destruct (copy_cases args h) as [[e ->]|[o ->]]; [done|].
  destruct (frame_after_copy (length h) tool_name (length h) (le_n _)
              (h ++ [o])%list) as [_ Hlk].
  { rewrite length_app. lia. }
  rewrite Hlk by done. apply lookup_app_l. lia.
Qed.

(** The mapping returned is a new object, not the caller's. *)
Lemma preprocess_result_fresh tool_name args h r :
  (_preprocess_tool_args tool_name args h).2 = Returned r ->
  exists p, r = HRef p /\ (length h <= p)%nat.
Proof.
  rewrite preprocess_unfold. intros Hr.
  apply bind_returned in Hr as (p & h1 & Hcopy & Hr).
  apply after_copy_returns in Hr as ->. exists p. split; [done|].
  destruct (copy_cases args h) as [[e He]|[o Ho]]; rewrite Hcopy in *.
  - congruence.
  - inversion Ho. lia.
Qed.
End preprocess_facts.

(** Reading a tree back depends only on the objects it reaches. *)
Lemma reify_mono fuel (h h' : heap) v t :
  (forall l o, h !! l = Some o -> h' !! l = Some o) ->
  reify fuel h v = Some t -> reify fuel h' v = Some t.
Proof.
  intros Hext. revert v t.
  induction fuel as [|fuel IH]; intros v t; destruct v as [| | | | |l];
    simpl; try done.
  destruct (h !! l) as [o|] eqn:El; [|done]. rewrite (Hext _ _ El).
  destruct o as [items|items]; intros Ht;
    apply fmap_Some in Ht as (ts & Hts & ->);
    apply fmap_Some; eexists; split; [|done| |done];
    apply mapM_Some; apply mapM_Some in Hts;
    eapply Forall2_impl; [apply Hts| |apply Hts|]; simpl.
  - intros x y. apply IH.
  - intros [k x] y Hy. simpl in *.
    apply fmap_Some in Hy as (y' & Hy' & ->). by rewrite (IH _ _ Hy').
Qed.

(** C9: [_preprocess_tool_args] does not mutate what it is given. Every
    object of the store before the call is unchanged after it, so the
    caller's mapping and the lists nested in it read back as the same tree;
    the mapping returned is a new object. *)
Theorem preprocess_tool_args_no_mutation `{PyRuntime} tool_name args
    (h : heap) :
  let h' := (_preprocess_tool_args tool_name args h).1 in
  (forall l : nat, (l < length h)%nat -> h' !! l = h !! l) /\
  (forall fuel t, reify fuel h args = Some t -> reify fuel h' args = Some t) /\
  (forall r, (_preprocess_tool_args tool_name args h).2 = Returned r ->
             exists p : nat, r = HRef p /\ (length h <= p)%nat).
Proof.
  intros h'. split; [|split].
  - intros l Hl. by apply preprocess_old_objects.
  - intros fuel t. apply reify_mono. intros l o Hl.
    unfold h'. rewrite preprocess_old_objects; [done|].
    by apply lookup_lt_Some in Hl.
  - apply preprocess_result_fresh.
Qed.

(** A run on a store where the caller's mapping (object 0) holds a list
    (object 1): the strings go to a new list (object 3) in a new mapping
    (object 2), and objects 0 and 1 stay. *)
Example preprocess_batch_run :
  @_preprocess_tool_args sample_runtime "batch-create-streams" (HRef 0%nat)
    [ODict [("depositAmounts", HRef 1%nat); ("startTime", HInt 5)];
     OList [HInt 1; HInt 18446744073709551616]]
  = ([ODict [("depositAmounts", HRef 1%nat); ("startTime", HInt 5)];
      OList [HInt 1; HInt 18446744073709551616];
      ODict [("depositAmounts", HRef 3%nat); ("startTime", HStr "5")];
      OList [HStr "1"; HStr "18446744073709551616"]],
     Returned (HRef 2%nat)).
Proof. vm_compute. reflexivity. Qed.

Example preprocess_create_run :
  @_preprocess_tool_args sample_runtime "create-stream" (HRef 0%nat)
    [ODict [("depositAmount", HInt 7); ("isFa", HStr "True");
            ("cliffAmount", HNone)]]
  = ([ODict [("depositAmount", HInt 7); ("isFa", HStr "True");
             ("cliffAmount", HNone)];
      ODict [("depositAmount", HStr "7"); ("isFa", HBool true);
             ("cliffAmount", HNone)]],
     Returned (HRef 1%nat)).
Proof. vm_compute. reflexivity. Qed.

(** ** The hub: tool calls *)

(** C5: a tool call on a name the registry lacks fails with the
    session-not-found error and leaves the hub, and so its record of
    requests, as it was: no transport is reached. On a registered name an
    error of the transport reaches the caller: the exception a pipe session
    raises, the exception an HTTP request raises, and an error built from
    the status and body of an HTTP reply other than 200. *)
Theorem call_tool_errors env server_name tool tool_args hub :
  (connections hub !! server_name = None ->
   call_tool env server_name tool tool_args hub
   = (hub, Raised (Exception ("未找到服务器连接: " +:+ server_name)))) /\
  (forall c e,
     connections hub !! server_name = Some c ->
     conn_transport c = stdio ->
     call_tool_reply env = Raised e ->
     (call_tool env server_name tool tool_args hub).2 = Raised e) /\
  (forall c e,
     connections hub !! server_name = Some c ->
     conn_transport c = sse ->
     http_call_reply env = Raised e ->
     (call_tool env server_name tool tool_args hub).2 = Raised e) /\
  (forall c status body error_text,
     connections hub !! server_name = Some c ->
     conn_transport c = sse ->
     http_call_reply env = Returned (status, body, error_text) ->
     status <> 200 ->
     (call_tool env server_name tool tool_args hub).2
     = Raised (Exception ("调用工具失败: " +:+ pretty status +:+ ", "
                            +:+ error_text))).
Proof.
  unfold call_tool, lookup_connection, gets, bind, try_except, reply, log.
  repeat split.
  - by intros ->.
  - intros c e -> -> ->. simpl. by destruct (is_Exception e).
  - intros c e -> -> ->. simpl. by destruct (is_Exception e).
  - intros c status body error_text -> -> -> Hs. simpl.
    by destruct (status =? 200) eqn:E; [apply Z.eqb_eq in E|].
Qed.

(** [call_tool("missing-server", "x", {})] on a hub with another session. *)
Lemma call_tool_missing_server :
  call_tool {| call_tool_reply := Returned VNone;
               http_call_reply := Returned (200, VNone, "") |}
    "missing-server" "x" (VDict []) connected_hub
  = (connected_hub, Raised (Exception "未找到服务器连接: missing-server")).
Proof.
  apply (proj1 (call_tool_errors _ "missing-server" "x" (VDict [])
                  connected_hub)).
  vm_compute. reflexivity.
Defined.

(** ** The hub: tool lists *)

Lemma load_tools_missing env server_name hub :
  connections hub !! server_name = None ->
  load_tools env server_name hub = (hub, Returned []).
Proof.
  intros Hn. unfold load_tools, lookup_connection, gets, bind. by rewrite Hn.
Qed.

(** Whatever the session has cached, a request goes out. *)
Lemma load_tools_always_fetches env server_name hub c :
  connections hub !! server_name = Some c ->
  trace (load_tools env server_name hub).1
  = (trace hub ++ [EvListTools server_name])%list.
Proof.
  intros Hc.
  unfold load_tools, lookup_connection, gets, bind, try_except, reply, log.
  rewrite Hc. simpl.
  destruct (conn_transport c); simpl.
  - destruct (list_tools_reply env) as [ts|e]; simpl; [done|].
    by destruct (is_Exception e).
  - destruct (http_tools_reply env) as [[status ts]|e]; simpl.
    + by destruct (status =? 200).
    + by destruct (is_Exception e).
Qed.

Lemma load_tools_fetched env server_name hub c ts :
  connections hub !! server_name = Some c ->
  fetched env c = Returned (Some ts) ->
  (load_tools env server_name hub).2 = Returned ts /\
  conn_tools <$> connections (load_tools env server_name hub).1 !! server_name
  = Some (Some ts).
Proof.
  intros Hc. unfold fetched.
  unfold load_tools, lookup_connection, gets, bind, try_except, reply, log,
    set_tools, modify, set_connections.
  rewrite Hc. simpl.
  destruct (conn_transport c); simpl.
  - destruct (list_tools_reply env) as [ts'|e]; simpl; [|done].
    intros [= ->]. split; [done|]. by rewrite lookup_alter_eq, Hc.
  - destruct (http_tools_reply env) as [[status ts']|e]; simpl; [|done].
    destruct (status =? 200); simpl; [|done].
    intros [= ->]. split; [done|]. by rewrite lookup_alter_eq, Hc.
Qed.

Lemma load_tools_failed env server_name hub c :
  connections hub !! server_name = Some c ->
  (fetched env c = Returned None \/
   exists e, fetched env c = Raised e /\ is_Exception e = true) ->
  (load_tools env server_name hub).2 = Returned [] /\
  connections (load_tools env server_name hub).1 = connections hub.
Proof.
  intros Hc. unfold fetched.
  unfold load_tools, lookup_connection, gets, bind, try_except, reply, log,
    set_tools, modify, set_connections.
  rewrite Hc. simpl.
  destruct (conn_transport c); simpl.
  - destruct (list_tools_reply env) as [ts'|e]; simpl.
    + intros [?|(e & ? & _)]; done.
    + intros [?|(e' & [= <-] & ->)]; done.
  - destruct (http_tools_reply env) as [[status ts']|e]; simpl.
    + destruct (status =? 200); simpl; [|done].
      intros [?|(e & ? & _)]; done.
    + intros [?|(e' & [= <-] & ->)]; done.
Qed.

(** C6 (as amended): [load_tools] returns an empty list and asks nothing
    when the name has no session. For a name with a session it sends the
    tool-list request on every call, whether or not a list is cached; when
    the request is answered it stores the list on the session and returns
    it; when the request raises an error or is refused it returns an empty
    list and leaves the registry as it was. *)
Theorem load_tools_fetches_and_caches env server_name hub :
  (connections hub !! server_name = None ->
   load_tools env server_name hub = (hub, Returned [])) /\
  (forall c,
     connections hub !! server_name = Some c ->
     trace (load_tools env server_name hub).1
     = (trace hub ++ [EvListTools server_name])%list) /\
  (forall c ts,
     connections hub !! server_name = Some c ->
     fetched env c = Returned (Some ts) ->
     (load_tools env server_name hub).2 = Returned ts /\
     conn_tools <$> connections (load_tools env server_name hub).1
                      !! server_name
     = Some (Some ts)) /\
  (forall c,
     connections hub !! server_name = Some c ->
     (fetched env c = Returned None \/
      exists e, fetched env c = Raised e /\ is_Exception e = true) ->
     (load_tools env server_name hub).2 = Returned [] /\
     connections (load_tools env server_name hub).1 = connections hub).
Proof.
  split; [apply load_tools_missing|].
  split; [apply load_tools_always_fetches|].
  split; [apply load_tools_fetched|apply load_tools_failed].
Qed.

(** C6 fails as stated: the session of [connected_hub] has the list
    [create-stream] cached, yet [load_tools] sends a request and returns the
    list the server answers with. *)
Lemma load_tools_ignores_cache :
  let env := {| list_tools_reply := Returned [sample_tool "close-stream"];
                http_tools_reply := Returned (200, []) |} in
  conn_tools <$> connections connected_hub !! default_server_name
  = Some (Some [sample_tool "create-stream"]) /\
  (load_tools env default_server_name connected_hub).2
  = Returned [sample_tool "close-stream"] /\
  trace (load_tools env default_server_name connected_hub).1
  = [EvListTools default_server_name].
Proof. vm_compute. repeat split. Qed.

(** A cached list is replaced by a later answer. *)
Lemma load_tools_fetches_and_caches_run :
  let env := {| list_tools_reply := Returned [sample_tool "close-stream"];
                http_tools_reply := Returned (200, []) |} in
  (load_tools env default_server_name connected_hub).2
  = Returned [sample_tool "close-stream"] /\
  conn_tools <$> connections (load_tools env default_server_name
                                connected_hub).1 !! default_server_name
  = Some (Some [sample_tool "close-stream"]).
Proof.
  intros env.
  apply (proj1 (proj2 (proj2 (load_tools_fetches_and_caches env
                                default_server_name connected_hub)))
           moveflow_connection).
  - vm_compute. reflexivity.
  - vm_compute. reflexivity.
Defined.

(** ** The hub: cleanup *)

Lemma close_connection_returns env c hub :
  (close_connection env c hub).2 = Returned tt.
Proof.
  unfold close_connection, try_except, bind, log, reply.
  destruct (conn_transport c); [|done].
  destruct (has_shutdown (conn_session c)); [|done]. simpl.
  destruct (shutdown_reply env (conn_session c)) as [[]|[| |msg]]; done.
Qed.

Lemma for_each_returns {S A : Type} (xs : list A) (body : A -> ST S unit) :
  (forall x s, (body x s).2 = Returned tt) ->
  forall s, (for_each xs body s).2 = Returned tt.
Proof.
  intros Hbody. induction xs as [|x xs IH]; intros s; simpl; [done|].
  unfold bind. specialize (Hbody x s).
  destruct (body x s) as [s' r]. simpl in Hbody. subst r. apply IH.
Qed.

(** One call of [cleanup] returns and leaves the registry empty, whatever
    the sessions and the exit stack answer. *)
Lemma cleanup_returns_empty env hub :
  (cleanup env hub).2 = Returned tt /\ connections (cleanup env hub).1 = ∅.
Proof.
  unfold cleanup, try_finally, try_except, bind, gets, modify.
  pose proof (for_each_returns (map_to_list (connections hub))
                (fun item => close_connection env item.2)
                (fun x s => close_connection_returns env x.2 s) hub) as Hloop.
  destruct (for_each _ _ hub) as [hub1 r]. simpl in Hloop. subst r.
  unfold aclose, bind, log, reply, modify. simpl.
  destruct (aclose_reply env) as [[]|[| |msg]]; done.
Qed.

(** On an empty registry [cleanup] closes no session: it only closes the
    exit stack. *)
Lemma cleanup_empty_trace env hub :
  connections hub = ∅ ->
  trace (cleanup env hub).1 = (trace hub ++ [EvAclose])%list.
Proof.
  intros Hempty.
  unfold cleanup, try_finally, try_except, bind, gets, modify.
  rewrite Hempty, map_to_list_empty.
  unfold aclose, bind, log, reply, modify. simpl.
  destruct (aclose_reply env) as [[]|[| |msg]]; done.
Qed.

(** C4: [cleanup] never raises and leaves the registry empty, from every
    hub state and whatever the sessions and the exit stack answer
    (a timeout, a cancellation or an error included); called again on the
    state it left, it again returns with an empty registry, and asks no
    session to shut down a second time. *)
Theorem cleanup_never_raises env env' hub :
  let hub1 := (cleanup env hub).1 in
  let hub2 := (cleanup env' hub1).1 in
  (cleanup env hub).2 = Returned tt /\
  connections hub1 = ∅ /\
  (cleanup env' hub1).2 = Returned tt /\
  connections hub2 = ∅ /\
  trace hub2 = (trace hub1 ++ [EvAclose])%list.
Proof.
  intros hub1 hub2.
  destruct (cleanup_returns_empty env hub) as [Hr Hc].
  destruct (cleanup_returns_empty env' hub1) as [Hr' Hc'].
  repeat split; try done. by apply cleanup_empty_trace.
Qed.

(** A run: the one session is asked to shut down and is cancelled in the
    middle, the closing of the exit stack times out, and [cleanup] still
    returns, with nothing left in the registry or on the stack. *)
Example cleanup_run :
  cleanup {| shutdown_reply := fun _ => Raised CancelledError;
             aclose_reply := Raised TimeoutError |} connected_hub
  = ({| connections := ∅;
        exit_stack := [];
        connection_timeout := 30; connection_retries := 2;
        trace := [EvShutdown (sample_session 1); EvAclose] |}, Returned tt).
Proof. vm_compute. reflexivity. Qed.

(** ** The hub: connecting *)

Section steps_facts.
Context {S : Type} (R : S -> S -> Prop) `{!PreOrder R}.

Lemma steps_ret {A : Type} (a : A) : steps R (ret a).
Proof. intros s. reflexivity. Qed.

Lemma steps_raise {A : Type} e : steps R (raise e : ST S A).
Proof. intros s. reflexivity. Qed.

Lemma steps_reply {A : Type} (r : outcome A) : steps R (reply r).
Proof. intros s. reflexivity. Qed.

Lemma steps_gets {A : Type} (f : S -> A) : steps R (gets f).
Proof. intros s. reflexivity. Qed.

Lemma steps_modify (f : S -> S) : (forall s, R s (f s)) -> steps R (modify f).
Proof. intros Hf s. apply Hf. Qed.

Lemma steps_bind {A B : Type} (m : ST S A) (k : A -> ST S B) :
  steps R m -> (forall a, steps R (k a)) -> steps R (bind m k).
Proof.
  intros Hm Hk s. unfold bind. specialize (Hm s).
  destruct (m s) as [s1 [a|e]]; simpl in *; [|done].
  etrans; [apply Hm|apply Hk].
Qed.

Lemma steps_try_except {A : Type} (m : ST S A) catches handler :
  steps R m -> (forall e, steps R (handler e)) ->
  steps R (try_except m catches handler).
Proof.
  intros Hm Hh s. unfold try_except. specialize (Hm s).
  destruct (m s) as [s1 [a|e]]; simpl in *; [done|].
  destruct (catches e); [|done]. etrans; [apply Hm|apply Hh].
Qed.
End steps_facts.

Lemma bind_run {S A B : Type} (m : ST S A) (k : A -> ST S B) s s1 a :
  m s = (s1, Returned a) -> bind m k s = k a s1.
Proof. intros Hm. unfold bind. by rewrite Hm. Qed.

Lemma bind_inv {S A B : Type} (m : ST S A) (k : A -> ST S B) s s' b :
  bind m k s = (s', Returned b) ->
  exists a s1, m s = (s1, Returned a) /\ k a s1 = (s', Returned b).
Proof.
  unfold bind. destruct (m s) as [s1 [a|e]]; [|done]. intros Hk. by exists a, s1.
Qed.

Lemma count_connects_app evs evs' :
  count_connects (evs ++ evs') = (count_connects evs + count_connects evs')%nat.
Proof.
  induction evs as [|ev evs IH]; simpl; [done|].
  destruct ev; simpl; by rewrite IH.
Qed.

Global Instance grows_preorder name : PreOrder (grows name).
Proof.
  split.
  - intros hub. split; [|done]. exists []. split; [by rewrite app_nil_r|done].
  - intros h1 h2 h3 ((evs & Ht & Hc) & Hx & Hn) ((evs' & Ht' & Hc') & Hx' & Hn').
    split; [|split].
    + exists (evs ++ evs')%list. split.
      * by rewrite Ht', Ht, app_assoc.
      * by apply Forall_app.
    + by etrans.
    + intros n Hne. rewrite Hn' by done. by apply Hn.
Qed.

Lemma grows_log name ev : is_close ev = false -> steps (grows name) (log ev).
Proof.
  intros Hev hub. split; [|done]. exists [ev]. split; [done|]. by constructor.
Qed.

Lemma grows_push name r :
  steps (grows name) (modify (set_exit_stack (fun st => (st ++ [r])%list))).
Proof.
  apply steps_modify. intros hub. split; [|split]; simpl.
  - exists []. split; [by rewrite app_nil_r|done].
  - by apply prefix_app_r.
  - done.
Qed.

Lemma grows_set_connections name f :
  (forall m n, n <> name -> f m !! n = m !! n) ->
  steps (grows name) (modify (set_connections f)).
Proof.
  intros Hf. apply steps_modify. intros hub. split; [|split]; simpl.
  - exists []. split; [by rewrite app_nil_r|done].
  - done.
  - intros n Hn. by apply Hf.
Qed.

Lemma grows_mark_disconnected name err :
  steps (grows name) (mark_disconnected name err).
Proof.
  apply grows_set_connections. intros m n Hn. by apply lookup_alter_ne.
Qed.

Lemma grows_set_tools name ts : steps (grows name) (set_tools name ts).
Proof.
  apply grows_set_connections. intros m n Hn. by apply lookup_alter_ne.
Qed.

Lemma grows_store_connection name c :
  steps (grows name) (store_connection name c).
Proof.
  apply steps_bind; [apply _|by apply grows_log|intros _].
  apply grows_set_connections. intros m n Hn. by apply lookup_insert_ne.
Qed.

Lemma grows_remove_existing name : steps (grows name) (remove_existing name).
Proof.
  apply steps_bind; [apply _|apply steps_gets; apply _|intros [c|]].
  - apply steps_bind; [apply _|by apply grows_log|intros _].
    apply grows_set_connections. intros m n Hn. by apply lookup_delete_ne.
  - apply steps_ret; apply _.
Qed.

Lemma grows_load_tools name env : steps (grows name) (load_tools env name).
Proof.
  apply steps_bind; [apply _|apply steps_gets; apply _|intros [c|]].
  2: { apply steps_ret; apply _. }
  apply steps_try_except; [apply _| |intros e; apply steps_ret; apply _].
  destruct (conn_transport c).
  - apply steps_bind; [apply _|by apply grows_log|intros _].
    apply steps_bind; [apply _|apply steps_reply; apply _|intros ts].
    apply steps_bind; [apply _|apply grows_set_tools|intros _].
    apply steps_ret; apply _.
  - apply steps_bind; [apply _|by apply grows_log|intros _].
    apply steps_bind; [apply _|apply steps_reply; apply _|intros response].
    destruct (response.1 =? 200); [|apply steps_ret; apply _].
    apply steps_bind; [apply _|apply grows_set_tools|intros _].
    apply steps_ret; apply _.
Qed.

Lemma grows_load_and_succeed name a : steps (grows name) (load_and_succeed a name).
Proof.
  apply steps_bind; [apply _| |intros _; apply steps_ret; apply _].
  apply steps_try_except; [apply _| |intros e; apply steps_ret; apply _].
  apply steps_bind; [apply _| |intros _; apply steps_ret; apply _].
  unfold wait_for_load_tools. destruct (load_tools_timed_out a).
  - apply steps_bind; [apply _|by apply grows_log|intros _].
    apply steps_raise; apply _.
  - apply grows_load_tools.
Qed.

Lemma grows_give_up_or_sleep name retries attempt :
  steps (grows name) (give_up_or_sleep retries attempt).
Proof.
  unfold give_up_or_sleep. destruct (retries <? attempt).
  - apply steps_ret; apply _.
  - apply steps_bind; [apply _|by apply grows_log|intros _].
    apply steps_ret; apply _.
Qed.

Lemma grows_connect_stdio name a config attempt :
  steps (grows name) (connect_stdio a name config attempt).
Proof.
  apply steps_bind; [apply _|by apply grows_log|intros _].
  apply steps_bind; [apply _|apply steps_reply; apply _|intros _].
  apply steps_bind; [apply _|apply grows_push|intros _].
  apply steps_bind; [apply _|apply steps_reply; apply _|intros session].
  apply steps_bind; [apply _|apply grows_push|intros _].
  apply steps_bind; [apply _|apply steps_reply; apply _|intros _].
  apply steps_bind; [apply _|apply grows_store_connection|intros _].
  apply grows_load_and_succeed.
Qed.

Lemma grows_connect_sse name a config retries attempt :
  steps (grows name) (connect_sse a name config retries attempt).
Proof.
  apply steps_bind; [apply _|by apply grows_log|intros _].
  apply steps_bind; [apply _|apply steps_reply; apply _|intros status].
  destruct (status =? 200); [|apply grows_give_up_or_sleep].
  apply steps_bind; [apply _|apply grows_store_connection|intros _].
  apply grows_load_and_succeed.
Qed.

(** What follows the removal in the [try] block. *)
Lemma grows_transport_branch name a config retries attempt :
  steps (grows name)
    (if transport_is config "stdio" then connect_stdio a name config attempt
     else if transport_is config "sse" then
       connect_sse a name config retries attempt
     else ret (Return (Some false))).
Proof.
  destruct (transport_is config "stdio"); [apply grows_connect_stdio|].
  destruct (transport_is config "sse"); [apply grows_connect_sse|].
  apply steps_ret; apply _.
Qed.

Lemma grows_on_failure name retries attempt e :
  steps (grows name) (on_failure name retries attempt e).
Proof.
  destruct e as [| |msg]; simpl.
  - destruct (retries <? attempt).
    + apply steps_bind; [apply _|apply grows_mark_disconnected|intros _].
      apply steps_ret; apply _.
    + apply steps_bind; [apply _|by apply grows_log|intros _].
      apply steps_ret; apply _.
  - apply steps_bind; [apply _|apply grows_mark_disconnected|intros _].
    apply grows_give_up_or_sleep.
  - apply steps_bind; [apply _|apply grows_mark_disconnected|intros _].
    apply grows_give_up_or_sleep.
Qed.

Lemma grows_attempt_body name a config retries attempt :
  steps (grows name) (attempt_body a name config retries attempt).
Proof.
  apply steps_try_except; [apply _| |apply grows_on_failure].
  apply steps_bind; [apply _|apply grows_remove_existing|intros _].
  apply grows_transport_branch.
Qed.

Global Instance keeps_preorder name : PreOrder (keeps name).
Proof.
  split.
  - intros hub Hc. exact Hc.
  - intros h1 h2 h3 H12 H23 Hc. apply H23, H12, Hc.
Qed.

Lemma keeps_log name ev : steps (keeps name) (log ev).
Proof. intros hub Hc. exact Hc. Qed.

Lemma keeps_set_tools name n ts : steps (keeps name) (set_tools n ts).
Proof.
  intros hub (c & Hc & Hs). unfold connected_at. simpl.
  destruct (decide (n = name)) as [->|Hne].
  - rewrite lookup_alter_eq, Hc. simpl. by eexists.
  - rewrite lookup_alter_ne by done. by exists c.
Qed.

Lemma keeps_load_tools name env : steps (keeps name) (load_tools env name).
Proof.
  apply steps_bind; [apply _|apply steps_gets; apply _|intros [c|]].
  2: { apply steps_ret; apply _. }
  apply steps_try_except; [apply _| |intros e; apply steps_ret; apply _].
  destruct (conn_transport c).
  - apply steps_bind; [apply _|by apply keeps_log|intros _].
    apply steps_bind; [apply _|apply steps_reply; apply _|intros ts].
    apply steps_bind; [apply _|apply keeps_set_tools|intros _].
    apply steps_ret; apply _.
  - apply steps_bind; [apply _|by apply keeps_log|intros _].
    apply steps_bind; [apply _|apply steps_reply; apply _|intros response].
    destruct (response.1 =? 200); [|apply steps_ret; apply _].
    apply steps_bind; [apply _|apply keeps_set_tools|intros _].
    apply steps_ret; apply _.
Qed.

Lemma keeps_load_and_succeed name a : steps (keeps name) (load_and_succeed a name).
Proof.
  apply steps_bind; [apply _| |intros _; apply steps_ret; apply _].
  apply steps_try_except; [apply _| |intros e; apply steps_ret; apply _].
  apply steps_bind; [apply _| |intros _; apply steps_ret; apply _].
  unfold wait_for_load_tools. destruct (load_tools_timed_out a).
  - apply steps_bind; [apply _|by apply keeps_log|intros _].
    apply steps_raise; apply _.
  - apply keeps_load_tools.
Qed.

Lemma store_then_load_connected name c a hub hub1 r :
  conn_status c = "connected" ->
  (store_connection name c ;;; load_and_succeed a name) hub = (hub1, r) ->
  connected_at name hub1.
Proof.
  intros Hc Hrun. unfold store_connection in Hrun.
  unfold bind at 1 2 in Hrun. unfold log, modify in Hrun. simpl in Hrun.
  match type of Hrun with
  | load_and_succeed _ _ ?h = _ =>
      pose proof (keeps_load_and_succeed name a h) as Hk
  end.
  rewrite Hrun in Hk. apply Hk. exists c. split; [|done].
  simpl. apply lookup_insert_eq.
Qed.

Lemma give_up_or_sleep_result retries attempt hub :
  (give_up_or_sleep retries attempt hub).2
  = Returned (if retries <? attempt then Return (Some false) else Continue).
Proof. unfold give_up_or_sleep. by destruct (retries <? attempt). Qed.

(** Both handlers end the same way: [False] after the last attempt, another
    turn otherwise. *)
Lemma on_failure_result name retries attempt e hub :
  (on_failure name retries attempt e hub).2
  = Returned (if retries <? attempt then Return (Some false) else Continue).
Proof.
  destruct e as [| |msg]; simpl; unfold bind, mark_disconnected, modify; simpl;
    try apply give_up_or_sleep_result.
  by destruct (retries <? attempt).
Qed.

Lemma connect_stdio_success a name config attempt hub hub1 :
  connect_stdio a name config attempt hub = (hub1, Returned (Return (Some true))) ->
  connected_at name hub1.
Proof.
  unfold connect_stdio. intros Hrun.
  apply bind_inv in Hrun as (? & h1 & _ & Hrun).
  apply bind_inv in Hrun as (? & h2 & _ & Hrun).
  apply bind_inv in Hrun as (? & h3 & _ & Hrun).
  apply bind_inv in Hrun as (session & h4 & _ & Hrun).
  apply bind_inv in Hrun as (? & h5 & _ & Hrun).
  apply bind_inv in Hrun as (? & h6 & _ & Hrun).
  by eapply store_then_load_connected in Hrun.
Qed.

Lemma connect_sse_success a name config retries attempt hub hub1 :
  connect_sse a name config retries attempt hub
  = (hub1, Returned (Return (Some true))) ->
  connected_at name hub1.
Proof.
  unfold connect_sse. intros Hrun.
  apply bind_inv in Hrun as (? & h1 & _ & Hrun).
  apply bind_inv in Hrun as (status & h2 & _ & Hrun).
  destruct (status =? 200).
  - by eapply store_then_load_connected in Hrun.
  - pose proof (give_up_or_sleep_result retries attempt h2) as Hg.
    rewrite Hrun in Hg. simpl in Hg. by destruct (retries <? attempt).
Qed.

(** An attempt that returns [True] has stored a connected session. *)
Lemma attempt_body_success a name config retries attempt hub hub1 :
  attempt_body a name config retries attempt hub
  = (hub1, Returned (Return (Some true))) ->
  connected_at name hub1.
Proof.
  unfold attempt_body, try_except.
  destruct (attempt_try a name config retries attempt hub) as [h1 [c|e]] eqn:E.
  - intros [= -> ->]. unfold attempt_try in E.
    apply bind_inv in E as (? & h0 & _ & E).
    destruct (transport_is config "stdio");
      [by eapply connect_stdio_success|].
    destruct (transport_is config "sse"); [by eapply connect_sse_success|].
    done.
  - destruct (is_Exception e); [|done]. intros Hrun.
    pose proof (on_failure_result name retries attempt e h1) as Hf.
    rewrite Hrun in Hf. simpl in Hf. by destruct (retries <? attempt).
Qed.

(** The loop relates the hub it ends in to the hub it started from. *)
Lemma connect_loop_grows fuel env name config retries attempt hub hub' r :
  connect_loop fuel env name config retries attempt hub = Some (hub', r) ->
  grows name hub hub'.
Proof.
  revert attempt hub. induction fuel as [|fuel IH]; intros attempt hub; simpl.
  - destruct (attempt <=? retries); [done|]. by intros [= <- _].
  - destruct (attempt <=? retries); [|by intros [= <- _]].
    pose proof (grows_attempt_body name (env (attempt + 1)) config retries
                  (attempt + 1) hub) as Hbody.
    destruct (attempt_body _ _ _ _ _ hub) as [hub1 [[|v]|e]]; simpl in Hbody.
    + intros Hrest. etrans; [apply Hbody|]. by eapply IH.
    + by intros [= <- _].
    + by intros [= <- _].
Qed.

Lemma connect_loop_success fuel env name config retries attempt hub hub' :
  connect_loop fuel env name config retries attempt hub
  = Some (hub', Returned (Some true)) ->
  connected_at name hub'.
Proof.
  revert attempt hub. induction fuel as [|fuel IH]; intros attempt hub; simpl.
  - by destruct (attempt <=? retries).
  - destruct (attempt <=? retries); [|done].
    destruct (attempt_body _ _ _ _ _ hub) as [hub1 [[|v]|e]] eqn:E.
    + apply IH.
    + intros [= -> ->]. by eapply attempt_body_success.
    + done.
Qed.

(** The loop ends: [retries + 1 - attempt] turns are enough. *)
Lemma connect_loop_terminates fuel env name config retries attempt hub :
  (Z.to_nat (retries + 1 - attempt) <= fuel)%nat ->
  is_Some (connect_loop fuel env name config retries attempt hub).
Proof.
  revert attempt hub. induction fuel as [|fuel IH]; intros attempt hub Hf; simpl.
  - destruct (attempt <=? retries) eqn:E; [|done].
    apply Z.leb_le in E. lia.
  - destruct (attempt <=? retries) eqn:E; [|done].
    apply Z.leb_le in E.
    destruct (attempt_body _ _ _ _ _ hub) as [hub1 [[|v]|e]]; [|done|done].
    apply IH. lia.
Qed.

(** [connect_to_server] returns, whatever the replies. *)
Lemma connect_to_server_returns env name config timeout retries hub :
  is_Some (connect_to_server env name config timeout retries hub).
Proof.
  unfold connect_to_server. apply connect_loop_terminates. lia.
Qed.

(** *** Reconnecting under a registered name *)

Lemma remove_existing_present name hub old :
  connections hub !! name = Some old ->
  exists hubR,
    remove_existing name hub = (hubR, Returned tt) /\
    trace hubR = (trace hub ++ [EvRemove name])%list /\
    exit_stack hubR = exit_stack hub /\
    connections hubR = delete name (connections hub).
Proof.
  intros Hold. unfold remove_existing, lookup_connection, gets, bind.
  rewrite Hold. simpl. by eexists.
Qed.

(** With a session registered, the first thing an attempt does is to remove
    it; all that follows adds no close request. *)
Lemma attempt_body_removes_first a name config retries attempt hub old :
  connections hub !! name = Some old ->
  exists hubR,
    trace hubR = (trace hub ++ [EvRemove name])%list /\
    exit_stack hubR = exit_stack hub /\
    connections hubR = delete name (connections hub) /\
    grows name hubR (attempt_body a name config retries attempt hub).1.
Proof.
  intros Hold.
  destruct (remove_existing_present name hub old Hold)
    as (hubR & Hrun & Ht & Hx & Hc).
  exists hubR. split; [done|]. split; [done|]. split; [done|].
  pose proof (steps_try_except (grows name) _ is_Exception
                (on_failure name retries attempt)
                (grows_transport_branch name a config retries attempt)
                (grows_on_failure name retries attempt) hubR) as Hg.
  unfold attempt_body, attempt_try, try_except in *.
  rewrite (bind_run _ _ _ _ _ Hrun). apply Hg.
Qed.

Lemma connect_loop_removes_first fuel env name config retries attempt hub old
    hub' r :
  connections hub !! name = Some old ->
  attempt <= retries ->
  connect_loop fuel env name config retries attempt hub = Some (hub', r) ->
  (exists evs, trace hub' = (trace hub ++ EvRemove name :: evs)%list /\
               Forall (fun ev => is_close ev = false) evs) /\
  exit_stack hub `prefix_of` exit_stack hub' /\
  (forall n, n <> name -> connections hub' !! n = connections hub !! n).
Proof.
  intros Hold Hle Hrun.
  assert (exists hubR,
            trace hubR = (trace hub ++ [EvRemove name])%list /\
            exit_stack hubR = exit_stack hub /\
            connections hubR = delete name (connections hub) /\
            grows name hubR hub') as (hubR & Ht & Hx & Hc & Hg).
  { destruct fuel as [|fuel]; simpl in Hrun;
      apply Z.leb_le in Hle; rewrite Hle in Hrun; [done|].
    destruct (attempt_body_removes_first (env (attempt + 1)) name config
                retries (attempt + 1) hub old Hold)
      as (hubR & Ht & Hx & Hc & Hg).
    exists hubR. repeat (split; [done|]).
    destruct (attempt_body _ _ _ _ _ hub) as [hub1 [[|v]|e]]; simpl in Hg.
    - etrans; [apply Hg|]. by eapply connect_loop_grows.
    - by injection Hrun as <- _.
    - by injection Hrun as <- _. }
  destruct Hg as ((evs & Hevs & Hclose) & Hstack & Hother).
  split; [|split].
  - exists evs. split; [|done]. by rewrite Hevs, Ht, <- app_assoc.
  - by rewrite <- Hx.
  - intros n Hn. rewrite Hother, Hc by done. by apply lookup_delete_ne.
Qed.

(** *** Attempts that all fail *)

Lemma remove_existing_effect name hub :
  exists hubR,
    remove_existing name hub = (hubR, Returned tt) /\
    connections hubR !! name = None /\
    count_connects (trace hubR) = count_connects (trace hub).
Proof.
  unfold remove_existing, lookup_connection, gets, bind. simpl.
  destruct (connections hub !! name) as [c|] eqn:E; simpl.
  - eexists. split; [done|]. simpl. split; [apply lookup_delete_eq|].
    rewrite count_connects_app. simpl. lia.
  - by eexists.
Qed.

(** The handlers record a failure on the session of the name, if the
    registry has one; when it has none they record nothing. *)
Lemma on_failure_effect name retries attempt e hub :
  connections hub !! name = None ->
  connections (on_failure name retries attempt e hub).1 !! name = None /\
  count_connects (trace (on_failure name retries attempt e hub).1)
  = count_connects (trace hub).
Proof.
  intros Hn.
  destruct e as [| |msg]; simpl;
    unfold bind, mark_disconnected, modify, give_up_or_sleep, log; simpl;
    destruct (retries <? attempt); simpl;
    rewrite ?lookup_alter_eq, ?Hn, ?count_connects_app; simpl;
    split; try done; lia.
Qed.

Lemma give_up_or_sleep_effect name retries attempt hub :
  connections (give_up_or_sleep retries attempt hub).1 !! name
  = connections hub !! name /\
  count_connects (trace (give_up_or_sleep retries attempt hub).1)
  = count_connects (trace hub).
Proof.
  unfold give_up_or_sleep, bind, log. destruct (retries <? attempt); simpl;
    rewrite ?count_connects_app; simpl; split; try done; lia.
Qed.

(** A failing attempt makes one connection request, leaves no session under
    the name, and ends the call with [False] only when it was the last. *)
Lemma attempt_body_fails a name config retries attempt hub :
  attempt_fails config a = true ->
  exists hub1,
    attempt_body a name config retries attempt hub
    = (hub1, Returned (if retries <? attempt then Return (Some false)
                       else Continue)) /\
    connections hub1 !! name = None /\
    count_connects (trace hub1) = S (count_connects (trace hub)).
Proof.
  intros Hfail.
  destruct (remove_existing_effect name hub) as (hubR & Hrun & Hn & Hcount).
  unfold attempt_body, attempt_try, try_except.
  rewrite (bind_run _ _ _ _ _ Hrun).
  unfold attempt_fails in Hfail.
  assert (forall hubF e,
            connections hubF !! name = None ->
            count_connects (trace hubF) = S (count_connects (trace hub)) ->
            exists hub1,
              on_failure name retries attempt e hubF
              = (hub1, Returned (if retries <? attempt
                                 then Return (Some false) else Continue)) /\
              connections hub1 !! name = None /\
              count_connects (trace hub1) = S (count_connects (trace hub)))
    as Hhandler.
  { intros hubF e HnF HcF.
    destruct (on_failure_effect name retries attempt e hubF HnF) as [H1 H2].
    pose proof (on_failure_result name retries attempt e hubF) as H3.
    destruct (on_failure name retries attempt e hubF) as [hub1 r].
    simpl in *. subst r. exists hub1. by rewrite H2. }
  assert (count_connects (trace hubR ++ [EvConnect name attempt])
          = S (count_connects (trace hub))) as Hone.
  { rewrite count_connects_app. simpl. lia. }
  destruct (transport_is config "stdio").
  - unfold connect_stdio, bind, log, reply, modify. simpl.
    destruct (stdio_client_reply a) as [[]|e1]; simpl in *.
    + destruct (client_session_reply a) as [s|e2]; simpl in *.
      * destruct (initialize_reply a) as [[]|e3]; simpl in *; [done|].
        rewrite ?orb_false_r in Hfail. rewrite Hfail. by apply Hhandler.
      * rewrite ?orb_false_r in Hfail. rewrite Hfail. by apply Hhandler.
    + rewrite ?orb_false_r in Hfail. rewrite Hfail. by apply Hhandler.
  - destruct (transport_is config "sse"); [|done].
    unfold connect_sse, bind, log, reply. simpl.
    destruct (probe_reply a) as [status|e]; simpl.
    + destruct (status =? 200); [done|].
      pose proof (give_up_or_sleep_result retries attempt
                    {| connections := connections hubR;
                       exit_stack := exit_stack hubR;
                       connection_timeout := connection_timeout hubR;
                       connection_retries := connection_retries hubR;
                       trace := (trace hubR ++ [EvConnect name attempt])%list |})
        as Hres.
      destruct (give_up_or_sleep_effect name retries attempt
                  {| connections := connections hubR;
                     exit_stack := exit_stack hubR;
                     connection_timeout := connection_timeout hubR;
                     connection_retries := connection_retries hubR;
                     trace := (trace hubR ++ [EvConnect name attempt])%list |})
        as [He1 He2].
      destruct (give_up_or_sleep retries attempt _) as [hub1 r].
      simpl in *. subst r. exists hub1. rewrite He1, He2. by rewrite Hone.
    + rewrite Hfail. by apply Hhandler.
Qed.

Lemma connect_loop_all_fail fuel env name config retries attempt hub :
  (forall i, attempt_fails config (env i) = true) ->
  attempt <= retries ->
  (Z.to_nat (retries + 1 - attempt) <= fuel)%nat ->
  exists hub',
    connect_loop fuel env name config retries attempt hub
    = Some (hub', Returned (Some false)) /\
    connections hub' !! name = None /\
    count_connects (trace hub')
    = (count_connects (trace hub) + Z.to_nat (retries + 1 - attempt))%nat.
Proof.
  intros Hfail. revert attempt hub.
  induction fuel as [|fuel IH]; intros attempt hub Hle Hfuel; [lia|].
  simpl. destruct (attempt <=? retries) eqn:E; [|apply Z.leb_gt in E; lia].
  destruct (attempt_body_fails (env (attempt + 1)) name config retries
              (attempt + 1) hub (Hfail _)) as (hub1 & -> & Hn & Hc).
  destruct (retries <? attempt + 1) eqn:Elast.
  - apply Z.ltb_lt in Elast. exists hub1. split; [done|]. split; [done|]. lia.
  - apply Z.ltb_ge in Elast.
    destruct (IH (attempt + 1) hub1) as (hub' & Hrun & Hn' & Hc'); [lia|lia|].
    exists hub'. split; [done|]. split; [done|]. lia.
Qed.

(** With a retry bound in force of [r >= 0] (the bound given, or the
    default when none or zero is given), a connect whose attempts all fail
    makes [r + 1] connection requests and returns [False], and the registry
    then has no session under the name. *)
Lemma connect_all_fail env name config timeout retries hub :
  (forall i, attempt_fails config (env i) = true) ->
  0 <= int_or retries (connection_retries hub) ->
  exists hub',
    connect_to_server env name config timeout retries hub
    = Some (hub', Returned (Some false)) /\
    connections hub' !! name = None /\
    count_connects (trace hub')
    = (count_connects (trace hub)
       + Z.to_nat (int_or retries (connection_retries hub) + 1))%nat.
Proof.
  intros Hfail Hr. unfold connect_to_server.
  destruct (connect_loop_all_fail
              (Z.to_nat (int_or retries (connection_retries hub) + 1))
              env name config (int_or retries (connection_retries hub)) 0 hub
              Hfail Hr) as (hub' & Hrun & Hn & Hc); [lia|].
  exists hub'. split; [done|]. split; [done|].
  rewrite Hc. f_equal. f_equal. lia.
Qed.

(** C1 at a failing input: a connect with [retries = 0] to the default
    server, whose process cannot be started. Three connection requests go
    out, not one, with a sleep between them; the call returns [False]; and
    the registry is empty afterwards, so no session carries the status
    [disconnected] or an error. *)
Theorem connect_retries_zero_run :
  connect_to_server (fun _ => failing_attempt) default_server_name
    moveflow_config None (Some 0) new_hub
  = Some ({| connections := ∅; exit_stack := [];
             connection_timeout := 30; connection_retries := 2;
             trace := [EvConnect default_server_name 1; EvSleep;
                       EvConnect default_server_name 2; EvSleep;
                       EvConnect default_server_name 3] |},
          Returned (Some false)).
Proof. vm_compute. reflexivity. Qed.

(** With [retries = 1] the count is as claimed, two requests, but a failed
    reconnect removes the session that was registered and records no
    status and no error. *)
Example connect_retries_one_run :
  connect_to_server (fun _ => failing_attempt) default_server_name
    moveflow_config None (Some 1) connected_hub
  = Some ({| connections := ∅;
             exit_stack := [ResStdio; ResSession (sample_session 1)];
             connection_timeout := 30; connection_retries := 2;
             trace := [EvRemove default_server_name;
                       EvConnect default_server_name 1; EvSleep;
                       EvConnect default_server_name 2] |},
          Returned (Some false)).
Proof. vm_compute. reflexivity. Qed.

(** An unsupported transport kind returns [False] at once, with no
    connection request and no sleep. *)
Example connect_unsupported_run :
  connect_to_server (fun _ => failing_attempt) default_server_name
    {| cfg_transportType := Some "carrier-pigeon"; cfg_command := None;
       cfg_args := []; cfg_env := []; cfg_url := None |} None None new_hub
  = Some (new_hub, Returned (Some false)).
Proof. vm_compute. reflexivity. Qed.

(** ** The response loops *)

Section dispatcher_facts.
Context `{PyRuntime} {world tool_result : Type}.
Variable call : string -> heap -> hval -> world -> world * outcome tool_result.
Variable fmt : tool_result -> string.
Variable rpr : tool_result -> string.

(** One turn of the OpenAI loop on an invocation whose arguments decode. *)
Lemma openai_tool_call_run tc final_text w (h h1 h2 : heap) tool_args
    processed_args w' r :
  json_loads (fn_arguments tc) h = (h1, Returned tool_args) ->
  _preprocess_tool_args (fn_name tc) tool_args h1
  = (h2, Returned processed_args) ->
  call (fn_name tc) h2 processed_args w = (w', r) ->
  (forall e, r = Raised e -> is_Exception e = true) ->
  openai_tool_call call fmt tc final_text (w, h)
  = ((w', h2), Returned (final_text ++ [annotation fmt (fn_name tc) r])%list).
Proof.
  intros Hloads Hpre Hcall Herr.
  unfold openai_tool_call, bind, on_heap, try_except, remote_call. simpl.
  rewrite Hloads. simpl. rewrite Hpre. simpl. rewrite Hcall.
  destruct r as [result|e]; simpl; [done|]. by rewrite (Herr e eq_refl).
Qed.

Lemma anthropic_tool_use_run name input final_text w (h h2 : heap)
    processed_args w' e :
  _preprocess_tool_args name input h = (h2, Returned processed_args) ->
  call name h2 processed_args w = (w', Raised e) ->
  is_Exception e = true ->
  anthropic_block call rpr (ToolUse name input) final_text (w, h)
  = ((w', h2), Returned (final_text ++ [tool_error_text name e])%list).
Proof.
  intros Hpre Hcall Herr.
  unfold anthropic_block, bind, on_heap, try_except, remote_call. simpl.
  rewrite Hpre. simpl. rewrite Hcall. simpl. by rewrite Herr.
Qed.

(** An error that leaves one turn of the OpenAI loop was raised while the
    arguments were decoded or preprocessed, not by the tool call. *)
Lemma openai_tool_call_raises tc final_text s s' e :
  openai_tool_call call fmt tc final_text s = (s', Raised e) ->
  is_Exception e = true ->
  exists h h',
    json_loads (fn_arguments tc) h = (h', Raised e) \/
    exists tool_args,
      _preprocess_tool_args (fn_name tc) tool_args h = (h', Raised e).
Proof.
  unfold openai_tool_call, bind, on_heap, try_except, remote_call.
  destruct s as [w h]. simpl.
  destruct (json_loads (fn_arguments tc) h) as [h1 [tool_args|e1]] eqn:E1;
    simpl.
  2: { intros [= <- <-] _. exists h, h1. by left. }
  destruct (_preprocess_tool_args (fn_name tc) tool_args h1)
    as [h2 [processed_args|e2]] eqn:E2; simpl.
  2: { intros [= <- <-] _. exists h1, h2. right. by exists tool_args. }
  destruct (call (fn_name tc) h2 processed_args w) as [w' [result|e3]];
    simpl; [done|].
  destruct (is_Exception e3) eqn:E3; [done|]. intros [= <- <-]. congruence.
Qed.

Lemma openai_tool_calls_raises calls final_text s s' e :
  openai_tool_calls call fmt calls final_text s = (s', Raised e) ->
  is_Exception e = true ->
  exists tc h h',
    tc ∈ calls /\
    (json_loads (fn_arguments tc) h = (h', Raised e) \/
     exists tool_args,
       _preprocess_tool_args (fn_name tc) tool_args h = (h', Raised e)).
Proof.
  revert final_text s. induction calls as [|tc rest IH]; intros ft s; simpl.
  - done.
  - unfold bind.
    destruct (openai_tool_call call fmt tc ft s) as [s1 [ft1|e1]] eqn:E1.
    + intros Hrest He. destruct (IH _ _ Hrest He) as (tc' & h & h' & Hin & Hc).
      exists tc', h, h'. split; [by apply list_elem_of_further|done].
    + intros [= <- <-] He.
      destruct (openai_tool_call_raises _ _ _ _ _ E1 He) as (h & h' & Hc).
      exists tc, h, h'. split; [apply list_elem_of_here|done].
Qed.

Lemma anthropic_block_raises b final_text s s' e :
  anthropic_block call rpr b final_text s = (s', Raised e) ->
  is_Exception e = true ->
  exists name input h h',
    b = ToolUse name input /\
    _preprocess_tool_args name input h = (h', Raised e).
Proof.
  destruct b as [text|name input|]; simpl; [done| |done].
  unfold bind, on_heap, try_except, remote_call.
  destruct s as [w h]. simpl.
  destruct (_preprocess_tool_args name input h)
    as [h2 [processed_args|e2]] eqn:E2; simpl.
  2: { intros [= <- <-] _. by exists name, input, h, h2. }
  destruct (call name h2 processed_args w) as [w' [result|e3]];
    simpl; [done|].
  destruct (is_Exception e3) eqn:E3; [done|]. intros [= <- <-]. congruence.
Qed.

Lemma anthropic_blocks_raises blocks final_text s s' e :
  anthropic_blocks call rpr blocks final_text s = (s', Raised e) ->
  is_Exception e = true ->
  exists name input h h',
    ToolUse name input ∈ blocks /\
    _preprocess_tool_args name input h = (h', Raised e).
Proof.
  revert final_text s. induction blocks as [|b rest IH]; intros ft s; simpl.
  - done.
  - unfold bind.
    destruct (anthropic_block call rpr b ft s) as [s1 [ft1|e1]] eqn:E1.
    + intros Hrest He.
      destruct (IH _ _ Hrest He) as (name & input & h & h' & Hin & Hc).
      exists name, input, h, h'. split; [by apply list_elem_of_further|done].
    + intros [= <- <-] He.
      destruct (anthropic_block_raises _ _ _ _ _ E1 He)
        as (name & input & h & h' & -> & Hc).
      exists name, input, h, h'. split; [apply list_elem_of_here|done].
Qed.
Lemma openai_tool_calls_dispatched calls final_text s anns s' :
  dispatched call fmt calls s anns s' ->
  openai_tool_calls call fmt calls final_text s
  = (s', Returned (final_text ++ anns)%list).
Proof.
  intros Hd. revert final_text.
  induction Hd as [s|tc rest w h h1 tool_args h2 processed_args w' r anns s'
                     Hloads Hpre Hcall Herr Hd IH]; intros ft; simpl.
  - by rewrite app_nil_r.
  - unfold bind.
    rewrite (openai_tool_call_run _ _ _ _ _ _ _ _ _ _ Hloads Hpre Hcall Herr).
    rewrite IH. by rewrite <- app_assoc.
Qed.

Lemma append_assoc (s1 s2 s3 : string) :
  (s1 +:+ s2) +:+ s3 = s1 +:+ (s2 +:+ s3).
Proof.
  induction s1 as [|c s1 IH]; [done|].
  change (String c ((s1 +:+ s2) +:+ s3) = String c (s1 +:+ (s2 +:+ s3))).
  by rewrite IH.
Qed.

End dispatcher_facts.

(** ** The hub: what a connect leaves behind *)

Lemma alter_absent (f : connection -> connection)
    (m : gmap string connection) name :
  m !! name = None -> alter f name m = m.
Proof.
  intros Hn. apply map_eq. intros j. rewrite lookup_alter.
  case_decide; [subst; by rewrite Hn|done].
Qed.

(** The removal, as a function of the hub. *)
Lemma remove_existing_run name hub :
  remove_existing name hub
  = ({| connections := delete name (connections hub);
        exit_stack := exit_stack hub;
        connection_timeout := connection_timeout hub;
        connection_retries := connection_retries hub;
        trace := (trace hub ++ removal_trace name hub)%list |}, Returned tt).
Proof.
  unfold remove_existing, lookup_connection, gets, bind, removal_trace. simpl.
  destruct (connections hub !! name) as [c|] eqn:E; simpl; [done|].
  rewrite app_nil_r, (delete_id _ _ E). by destruct hub.
Qed.

Lemma remove_existing_absent name hub :
  connections hub !! name = None -> remove_existing name hub = (hub, Returned tt).
Proof.
  intros Hn. unfold remove_existing, lookup_connection, gets, bind. simpl.
  by rewrite Hn.
Qed.

(** An attempt behaves as if the removal had been done before it. *)
Lemma attempt_body_after_removal a name config retries attempt hub :
  attempt_body a name config retries attempt hub
  = attempt_body a name config retries attempt (remove_existing name hub).1.
Proof.
  unfold attempt_body, attempt_try, try_except.
  rewrite (bind_run _ _ hub _ _ (remove_existing_run name hub)).
  rewrite (remove_existing_run name hub). cbn [fst].
  symmetry. erewrite bind_run; [done|].
  apply remove_existing_absent. simpl. apply lookup_delete_eq.
Qed.

Lemma connect_loop_after_removal fuel env name config retries attempt hub :
  attempt <= retries ->
  connect_loop fuel env name config retries attempt hub
  = connect_loop fuel env name config retries attempt
      (remove_existing name hub).1.
Proof.
  intros Hle. apply Z.leb_le in Hle.
  destruct fuel as [|fuel]; simpl; rewrite Hle; [done|].
  by rewrite attempt_body_after_removal.
Qed.

(** The handlers, when the registry has no session under the name. *)
Lemma on_failure_absent name retries attempt e hub :
  connections hub !! name = None ->
  exists hub1,
    on_failure name retries attempt e hub
    = (hub1, Returned (if retries <? attempt then Return (Some false)
                       else Continue)) /\
    connections hub1 = connections hub /\
    exit_stack hub1 = exit_stack hub /\
    trace hub1
    = (trace hub ++ if retries <? attempt then [] else [EvSleep])%list.
Proof.
  intros Hn.
  destruct e as [| |msg]; simpl;
    unfold bind, mark_disconnected, modify, give_up_or_sleep, log; simpl;
    destruct (retries <? attempt); simpl; eexists; (split; [reflexivity|]);
    simpl; rewrite ?app_nil_r, ?(alter_absent _ _ _ Hn); done.
Qed.

Lemma failing_attempt_absent a name config retries attempt hub :
  connections hub !! name = None ->
  attempt_fails config a = true ->
  exists hub1,
    attempt_body a name config retries attempt hub
    = (hub1, Returned (if retries <? attempt then Return (Some false)
                       else Continue)) /\
    connections hub1 = connections hub /\
    exit_stack hub `prefix_of` exit_stack hub1 /\
    trace hub1
    = (trace hub ++ EvConnect name attempt
         :: if retries <? attempt then [] else [EvSleep])%list.
Proof.
  intros Hn Hfail.
  unfold attempt_body, attempt_try, try_except.
  rewrite (bind_run _ _ hub _ _ (remove_existing_absent name hub Hn)).
  unfold attempt_fails in Hfail.
  assert (forall hubF e,
            connections hubF = connections hub ->
            exit_stack hub `prefix_of` exit_stack hubF ->
            trace hubF = (trace hub ++ [EvConnect name attempt])%list ->
            exists hub1,
              on_failure name retries attempt e hubF
              = (hub1, Returned (if retries <? attempt
                                 then Return (Some false) else Continue)) /\
              connections hub1 = connections hub /\
              exit_stack hub `prefix_of` exit_stack hub1 /\
              trace hub1
              = (trace hub ++ EvConnect name attempt
                   :: if retries <? attempt then [] else [EvSleep])%list)
    as Hhandler.
  { intros hubF e HcF HxF HtF.
    destruct (on_failure_absent name retries attempt e hubF)
      as (hub1 & -> & Hc1 & Hx1 & Ht1); [by rewrite HcF|].
    exists hub1. split; [done|]. split; [by rewrite Hc1|].
    split; [by rewrite Hx1|]. by rewrite Ht1, HtF, <- app_assoc. }
  destruct (transport_is config "stdio").
  - unfold connect_stdio, bind, log, reply, modify. simpl.
    destruct (stdio_client_reply a) as [[]|e1]; simpl in *.
    + destruct (client_session_reply a) as [s|e2]; simpl in *.
      * destruct (initialize_reply a) as [[]|e3]; simpl in *; [done|].
        rewrite ?orb_false_r in Hfail. rewrite Hfail.
        apply Hhandler; simpl; [done| |done].
        rewrite <- app_assoc. by apply prefix_app_r.
      * rewrite ?orb_false_r in Hfail. rewrite Hfail.
        apply Hhandler; simpl; [done| |done]. by apply prefix_app_r.
    + rewrite ?orb_false_r in Hfail. rewrite Hfail. by apply Hhandler.
  - destruct (transport_is config "sse"); [|done].
    unfold connect_sse, bind, log, reply. simpl.
    destruct (probe_reply a) as [status|e]; simpl.
    + destruct (status =? 200); [done|].
      unfold give_up_or_sleep, bind, log.
      destruct (retries <? attempt); simpl; eexists;
        (split; [reflexivity|]); simpl; rewrite <- ?app_assoc; done.
    + rewrite Hfail. by apply Hhandler.
Qed.

(** The loading of the tool list after a connection is stored. *)
Lemma load_and_succeed_run a name config hub c0 :
  connections hub !! name = Some c0 ->
  conn_transport c0 = (if transport_is config "stdio" then stdio else sse) ->
  load_cancelled config a = false ->
  exists hub1,
    load_and_succeed a name hub = (hub1, Returned (Return (Some true))) /\
    exit_stack hub1 = exit_stack hub /\
    trace hub1 = (trace hub ++ [EvListTools name])%list /\
    connections hub1
    = match attempt_tools config a with
      | Some ts =>
          alter (fun c =>
                   {| conn_transport := conn_transport c;
                      conn_session := conn_session c;
                      conn_url := conn_url c; conn_config := conn_config c;
                      conn_tools := Some ts; conn_status := conn_status c;
                      conn_error := conn_error c |}) name (connections hub)
      | None => connections hub
      end.
Proof.
  intros Hc Ht Hcancel.
  unfold load_and_succeed, wait_for_load_tools, attempt_tools.
  unfold load_cancelled in Hcancel.
  destruct (load_tools_timed_out a); simpl in Hcancel.
  { unfold bind, try_except, log, raise, ret. simpl. by eexists. }
  unfold load_tools, lookup_connection, gets, bind, try_except, log, reply,
    ret, set_tools, modify.
  simpl. rewrite Hc. simpl. rewrite Ht.
  destruct (transport_is config "stdio"); simpl.
  - destruct (list_tools_reply (load_env a)) as [ts|e]; simpl.
    + by eexists.
    + destruct e; simpl in *; try done; by eexists.
  - destruct (http_tools_reply (load_env a)) as [[status ts]|e]; simpl.
    + destruct (status =? 200); simpl; by eexists.
    + destruct e; simpl in *; try done; by eexists.
Qed.

Lemma working_attempt_absent a name config retries attempt hub :
  connections hub !! name = None ->
  attempt_works config a = true ->
  exists hub1,
    attempt_body a name config retries attempt hub
    = (hub1, Returned (Return (Some true))) /\
    connections hub1
    = <[name := attempt_connection config a]> (connections hub) /\
    exit_stack hub `prefix_of` exit_stack hub1 /\
    trace hub1
    = (trace hub ++ [EvConnect name attempt;
                     EvStore name (attempt_session config a);
                     EvListTools name])%list.
Proof.
  intros Hn Hworks.
  unfold attempt_body, attempt_try, try_except.
  rewrite (bind_run _ _ hub _ _ (remove_existing_absent name hub Hn)).
  unfold attempt_works in Hworks. apply andb_true_iff in Hworks as [Hw Hl].
  apply negb_true_iff in Hl.
  assert (forall hubS c0,
            c0 = new_connection (if transport_is config "stdio" then stdio
                                 else sse)
                   (attempt_session config a)
                   (if transport_is config "stdio" then None
                    else cfg_url config) config ->
            connections hubS = <[name := c0]> (connections hub) ->
            exit_stack hub `prefix_of` exit_stack hubS ->
            trace hubS = (trace hub ++ [EvConnect name attempt;
                                        EvStore name (attempt_session config a)])%list ->
            exists hub1,
              load_and_succeed a name hubS
              = (hub1, Returned (Return (Some true))) /\
              connections hub1
              = <[name := attempt_connection config a]> (connections hub) /\
              exit_stack hub `prefix_of` exit_stack hub1 /\
              trace hub1
              = (trace hub ++ [EvConnect name attempt;
                               EvStore name (attempt_session config a);
                               EvListTools name])%list) as Hload.
  { intros hubS c0 -> HcS HxS HtS.
    destruct (load_and_succeed_run a name config hubS
                (new_connection (if transport_is config "stdio" then stdio
                                 else sse)
                   (attempt_session config a)
                   (if transport_is config "stdio" then None
                    else cfg_url config) config))
      as (hub1 & Hrun & Hx1 & Ht1 & Hc1); [|done|done|].
    { rewrite HcS. apply lookup_insert_eq. }
    exists hub1. split; [done|]. split; [|split].
    - rewrite Hc1, HcS. unfold attempt_connection.
      destruct (attempt_tools config a) as [ts|].
      + by rewrite alter_insert_eq.
      + done.
    - by rewrite Hx1.
    - rewrite Ht1, HtS, <- app_assoc. done. }
  destruct (transport_is config "stdio") eqn:Estdio.
  - unfold attempt_session in *. rewrite Estdio in *.
    unfold connect_stdio, store_connection.
    unfold bind at 1 2 3 4 5 6 7 8. unfold log, reply, modify. simpl.
    destruct (stdio_client_reply a) as [[]|e1]; simpl in *; [|done].
    destruct (client_session_reply a) as [s|e2]; simpl in *; [|done].
    destruct (initialize_reply a) as [[]|e3]; simpl in *; [|done].
    match goal with
    | |- context [load_and_succeed a name ?h] =>
        destruct (Hload h _ eq_refl) as (hub1 & Hrun & Hrest); simpl
    end.
    + done.
    + rewrite <- app_assoc. by apply prefix_app_r.
    + by rewrite <- app_assoc.
    + rewrite Hrun. by exists hub1.
  - destruct (transport_is config "sse") eqn:Esse; [|done].
    unfold attempt_session in *. rewrite Estdio in *.
    unfold connect_sse. unfold bind at 1 2. unfold log, reply. simpl.
    destruct (probe_reply a) as [status|e]; simpl in *; [|done].
    rewrite Hw. unfold store_connection.
    unfold bind at 1 2. unfold log, modify. simpl.
    match goal with
    | |- context [load_and_succeed a name ?h] =>
        destruct (Hload h _ eq_refl) as (hub1 & Hrun & Hrest); simpl
    end.
    + done.
    + done.
    + by rewrite <- app_assoc.
    + rewrite Hrun. by exists hub1.
Qed.

Lemma connect_loop_failures k fuel env name config retries attempt hub :
  connections hub !! name = None ->
  (forall i, attempt < i <= attempt + Z.of_nat k ->
             attempt_fails config (env i) = true) ->
  attempt + Z.of_nat k <= retries ->
  exists hubk,
    connect_loop (k + fuel) env name config retries attempt hub
    = connect_loop fuel env name config retries (attempt + Z.of_nat k) hubk /\
    connections hubk = connections hub /\
    exit_stack hub `prefix_of` exit_stack hubk /\
    trace hubk = (trace hub ++ failed_trace name (attempt + 1) k)%list.
Proof.
  revert attempt hub. induction k as [|k IH]; intros attempt hub Hn Hfail Hle.
  - exists hub. replace (attempt + Z.of_nat 0) with attempt by lia.
    simpl. by rewrite app_nil_r.
  - simpl. assert ((attempt <=? retries) = true) as -> by (apply Z.leb_le; lia).
    destruct (failing_attempt_absent (env (attempt + 1)) name config retries
                (attempt + 1) hub Hn) as (hub1 & -> & Hc1 & Hx1 & Ht1).
    { apply Hfail. lia. }
    assert ((retries <? attempt + 1) = false) as Hlast
        by (apply Z.ltb_ge; lia).
    rewrite Hlast in *.
    destruct (IH (attempt + 1) hub1) as (hubk & Hrun & Hck & Hxk & Htk).
    { by rewrite Hc1. }
    { intros i Hi. apply Hfail. lia. }
    { lia. }
    exists hubk. split; [|split; [|split]].
    + rewrite Hrun. f_equal. lia.
    + by rewrite Hck.
    + by etrans.
    + rewrite Htk, Ht1, <- app_assoc. done.
Qed.

Lemma count_failed_trace name attempt k :
  count_connects (failed_trace name attempt k) = k.
Proof.
  revert attempt. induction k as [|k IH]; intros attempt; simpl; [done|].
  by rewrite IH.
Qed.

(** A connect in which [k] attempts fail and the next one goes through. *)
Lemma connect_after_failures env name config timeout retries hub (k : nat) :
  Z.of_nat k <= int_or retries (connection_retries hub) ->
  (forall i, 1 <= i <= Z.of_nat k -> attempt_fails config (env i) = true) ->
  attempt_works config (env (Z.of_nat k + 1)) = true ->
  exists hub',
    connect_to_server env name config timeout retries hub
    = Some (hub', Returned (Some true)) /\
    connections hub'
    = <[name := attempt_connection config (env (Z.of_nat k + 1))]>
        (connections hub) /\
    exit_stack hub `prefix_of` exit_stack hub' /\
    trace hub'
    = (trace hub ++ removal_trace name hub ++ failed_trace name 1 k
         ++ [EvConnect name (Z.of_nat k + 1);
             EvStore name (attempt_session config (env (Z.of_nat k + 1)));
             EvListTools name])%list.
Proof.
  intros Hk Hfail Hworks. unfold connect_to_server.
  set (R := int_or retries (connection_retries hub)) in *.
  rewrite connect_loop_after_removal by lia.
  rewrite remove_existing_run. cbn [fst].
  set (hub0 := {| connections := delete name (connections hub) |}).
  replace (Z.to_nat (R + 1)) with (k + S (Z.to_nat R - k))%nat by lia.
  destruct (connect_loop_failures k (S (Z.to_nat R - k)) env name config R 0
              hub0) as (hubk & -> & Hck & Hxk & Htk).
  { apply lookup_delete_eq. }
  { intros i Hi. apply Hfail. lia. }
  { lia. }
  simpl. assert ((0 + Z.of_nat k <=? R) = true) as -> by (apply Z.leb_le; lia).
  replace (0 + Z.of_nat k + 1) with (Z.of_nat k + 1) by lia.
  destruct (working_attempt_absent (env (Z.of_nat k + 1)) name config R
              (Z.of_nat k + 1) hubk) as (hub' & -> & Hc' & Hx' & Ht');
    [rewrite Hck; apply lookup_delete_eq|done|].
  exists hub'. split; [done|]. split; [|split].
  - rewrite Hc', Hck. apply insert_delete_eq.
  - etrans; [exact Hxk|done].
  - rewrite Ht', Htk. simpl. by rewrite <- !app_assoc.
Qed.

(** X1: After a connect that returns [True] the name is listed by
    [get_all_servers] and its session has the status [connected],
    whatever the replies were. *)
Theorem connect_true_is_listed env name config timeout retries hub hub' :
  connect_to_server env name config timeout retries hub
  = Some (hub', Returned (Some true)) ->
  connected_at name hub' /\
  exists names, get_all_servers hub' = (hub', Returned names) /\ name ∈ names.
Proof.
  intros Hrun. unfold connect_to_server in Hrun.
  apply connect_loop_success in Hrun. split; [done|].
  destruct Hrun as (c & Hc & _).
  eexists. split; [reflexivity|].
  apply list_elem_of_fmap. exists (name, c). split; [done|].
  by apply elem_of_map_to_list.
Qed.

(** X2: A transport kind that is neither [stdio] nor [sse] makes a connect
    return [False] at once: no connection request, no sleep and no retry,
    for every retry bound that is not negative. It still removes the
    session registered under the name, if there is one. *)
Theorem connect_unsupported_transport env name config timeout retries hub :
  transport_is config "stdio" = false ->
  transport_is config "sse" = false ->
  0 <= int_or retries (connection_retries hub) ->
  exists hub',
    connect_to_server env name config timeout retries hub
    = Some (hub', Returned (Some false)) /\
    trace hub' = (trace hub ++ removal_trace name hub)%list /\
    connections hub' = delete name (connections hub) /\
    exit_stack hub' = exit_stack hub.
Proof.
  intros Hstdio Hsse Hr. unfold connect_to_server.
  set (R := int_or retries (connection_retries hub)) in *.
  replace (Z.to_nat (R + 1)) with (S (Z.to_nat R)) by lia. simpl.
  assert ((0 <=? R) = true) as -> by by apply Z.leb_le.
  unfold attempt_body, attempt_try, try_except.
  rewrite (bind_run _ _ hub _ _ (remove_existing_run name hub)).
  rewrite Hstdio, Hsse. simpl. by eexists.
Qed.

(** X3: When the first [k] attempts fail and the next one goes through within
    the retry bound, the connect returns [True] after exactly [k + 1]
    connection requests, with a sleep after each failed one and none after
    the last; the requests are, in order: the removal of a registered
    session, the failed attempts, then the connection, the storing of the
    new session and one tool-list request. *)
Theorem connect_succeeds_after_failures env name config timeout retries hub
    (k : nat) :
  Z.of_nat k <= int_or retries (connection_retries hub) ->
  (forall i, 1 <= i <= Z.of_nat k -> attempt_fails config (env i) = true) ->
  attempt_works config (env (Z.of_nat k + 1)) = true ->
  exists hub',
    connect_to_server env name config timeout retries hub
    = Some (hub', Returned (Some true)) /\
    trace hub'
    = (trace hub ++ removal_trace name hub ++ failed_trace name 1 k
         ++ [EvConnect name (Z.of_nat k + 1);
             EvStore name (attempt_session config (env (Z.of_nat k + 1)));
             EvListTools name])%list /\
    count_connects (failed_trace name 1 k) = k.
Proof.
  intros Hk Hfail Hworks.
  destruct (connect_after_failures env name config timeout retries hub k
              Hk Hfail Hworks) as (hub' & Hrun & _ & _ & Ht).
  exists hub'. split; [done|]. split; [done|]. apply count_failed_trace.
Qed.

(** X4: The session a successful connect leaves in the registry: it is the
    session object of the attempt that went through, with status
    [connected] and no error, and it carries the tool list the server
    answered with; when the tool-list request times out, raises an error or
    is refused, the connect still succeeds and the session has no tool
    list. *)
Theorem connect_stores_session_and_tools env name config timeout retries hub
    (k : nat) :
  Z.of_nat k <= int_or retries (connection_retries hub) ->
  (forall i, 1 <= i <= Z.of_nat k -> attempt_fails config (env i) = true) ->
  attempt_works config (env (Z.of_nat k + 1)) = true ->
  exists hub' c,
    connect_to_server env name config timeout retries hub
    = Some (hub', Returned (Some true)) /\
    connections hub' !! name = Some c /\
    conn_session c = attempt_session config (env (Z.of_nat k + 1)) /\
    conn_status c = "connected" /\
    conn_error c = None /\
    conn_tools c = attempt_tools config (env (Z.of_nat k + 1)) /\
    (load_tools_timed_out (env (Z.of_nat k + 1)) = true ->
     conn_tools c = None) /\
    (forall n, n <> name -> connections hub' !! n = connections hub !! n).
Proof.
  intros Hk Hfail Hworks.
  destruct (connect_after_failures env name config timeout retries hub k
              Hk Hfail Hworks) as (hub' & Hrun & Hc & _ & _).
  exists hub', (attempt_connection config (env (Z.of_nat k + 1))).
  split; [done|]. split; [rewrite Hc; apply lookup_insert_eq|].
  repeat (split; [done|]). split.
  - intros Hto. simpl. unfold attempt_tools. by rewrite Hto.
  - intros n Hn. rewrite Hc. by apply lookup_insert_ne.
Qed.

(** X5: When every attempt fails, a connect with a retry bound in force of
    [r >= 0] makes [r + 1] connection requests with a sleep between each
    two, none after the last, and returns [False]; the registry then has no
    session under the name, not even the one registered before. *)
Theorem connect_exhausts_retries env name config timeout retries hub :
  (forall i, attempt_fails config (env i) = true) ->
  0 <= int_or retries (connection_retries hub) ->
  exists hub',
    connect_to_server env name config timeout retries hub
    = Some (hub', Returned (Some false)) /\
    trace hub'
    = (trace hub ++ removal_trace name hub
         ++ failed_trace name 1
              (Z.to_nat (int_or retries (connection_retries hub)))
         ++ [EvConnect name (int_or retries (connection_retries hub) + 1)])%list /\
    connections hub' = delete name (connections hub).
Proof.
  intros Hfail Hr. unfold connect_to_server.
  set (R := int_or retries (connection_retries hub)) in *.
  rewrite connect_loop_after_removal by lia.
  rewrite remove_existing_run. cbn [fst].
  set (hub0 := {| connections := delete name (connections hub) |}).
  replace (Z.to_nat (R + 1)) with (Z.to_nat R + 1)%nat by lia.
  destruct (connect_loop_failures (Z.to_nat R) 1 env name config R 0 hub0)
    as (hubk & -> & Hck & Hxk & Htk).
  { apply lookup_delete_eq. }
  { intros i Hi. apply Hfail. }
  { lia. }
  simpl.
  assert ((0 + Z.of_nat (Z.to_nat R) <=? R) = true) as ->
      by (apply Z.leb_le; lia).
  replace (0 + Z.of_nat (Z.to_nat R) + 1) with (R + 1) by lia.
  destruct (failing_attempt_absent (env (R + 1)) name config R (R + 1) hubk)
    as (hub' & -> & Hc' & Hx' & Ht'); [rewrite Hck; apply lookup_delete_eq|done|].
  assert ((R <? R + 1) = true) as Hlast by (apply Z.ltb_lt; lia).
  rewrite Hlast in *.
  exists hub'. split; [done|]. split.
  - rewrite Ht', Htk. simpl. by rewrite <- !app_assoc.
  - by rewrite Hc', Hck.
Qed.

(** *** Reconnecting: what the registry then holds *)

(** The loading of the tool list after a connection is stored, whatever the
    replies: it ends the attempt with [True] or it is cancelled, and either
    way the session holds the tool list the attempt leaves on it. *)
Lemma load_and_succeed_registry a name config hub c0 :
  connections hub !! name = Some c0 ->
  conn_transport c0 = (if transport_is config "stdio" then stdio else sse) ->
  exists hub1 r,
    load_and_succeed a name hub = (hub1, r) /\
    (r = Returned (Return (Some true)) \/
     exists e, r = Raised e /\ is_Exception e = false) /\
    connections hub1
    = match attempt_tools config a with
      | Some ts =>
          alter (fun c =>
                   {| conn_transport := conn_transport c;
                      conn_session := conn_session c;
                      conn_url := conn_url c; conn_config := conn_config c;
                      conn_tools := Some ts; conn_status := conn_status c;
                      conn_error := conn_error c |}) name (connections hub)
      | None => connections hub
      end.
Proof.
  intros Hc Ht.
  unfold load_and_succeed, wait_for_load_tools, attempt_tools.
  destruct (load_tools_timed_out a).
  { unfold bind, try_except, log, raise, ret. simpl.
    eexists _, _. split; [reflexivity|]. split; [by left|done]. }
  unfold load_tools, lookup_connection, gets, bind, try_except, log, reply,
    ret, set_tools, modify.
  simpl. rewrite Hc. simpl. rewrite Ht.
  destruct (transport_is config "stdio"); simpl.
  - destruct (list_tools_reply (load_env a)) as [ts|e]; simpl.
    + eexists _, _. split; [reflexivity|]. split; [by left|done].
    + destruct e; simpl; eexists _, _; (split; [reflexivity|]);
        (split; [|done]); [by left|right; by eexists|by left].
  - destruct (http_tools_reply (load_env a)) as [[status ts]|e]; simpl.
    + destruct (status =? 200); simpl; eexists _, _;
        (split; [reflexivity|]); (split; [by left|done]).
    + destruct e; simpl; eexists _, _; (split; [reflexivity|]);
        (split; [|done]); [by left|right; by eexists|by left].
Qed.

Lemma attempt_body_registry a name config retries attempt hub :
  connections hub !! name = None ->
  exists hub1 r,
    attempt_body a name config retries attempt hub = (hub1, r) /\
    attempt_leaves config a (connections hub) (connections hub1) name r.
Proof.
  intros Hn.
  unfold attempt_body, attempt_try, try_except.
  rewrite (bind_run _ _ hub _ _ (remove_existing_absent name hub Hn)).
  assert (forall hubF e,
            connections hubF = connections hub ->
            exists hub1 r,
              (if is_Exception e then on_failure name retries attempt e hubF
               else (hubF, Raised e)) = (hub1, r) /\
              attempt_leaves config a (connections hub) (connections hub1)
                name r) as Hhandler.
  { intros hubF e HcF. destruct (is_Exception e) eqn:He.
    - destruct (on_failure_absent name retries attempt e hubF)
        as (hub1 & Hrun & Hc1 & _ & _); [by rewrite HcF|].
      eexists _, _. split; [exact Hrun|]. unfold attempt_leaves.
      rewrite Hc1, HcF. by destruct (retries <? attempt).
    - eexists _, _. split; [reflexivity|]. split; [done|]. by left. }
  assert (forall hubS c0,
            c0 = new_connection (if transport_is config "stdio" then stdio
                                 else sse)
                   (attempt_session config a)
                   (if transport_is config "stdio" then None
                    else cfg_url config) config ->
            connections hubS = <[name := c0]> (connections hub) ->
            exists hub1 r,
              match load_and_succeed a name hubS with
              | (s1, Returned c) => (s1, Returned c)
              | (s1, Raised e) =>
                  if is_Exception e then on_failure name retries attempt e s1
                  else (s1, Raised e)
              end = (hub1, r) /\
              attempt_leaves config a (connections hub) (connections hub1)
                name r) as Hload.
  { intros hubS c0 -> HcS.
    destruct (load_and_succeed_registry a name config hubS
                (new_connection (if transport_is config "stdio" then stdio
                                 else sse)
                   (attempt_session config a)
                   (if transport_is config "stdio" then None
                    else cfg_url config) config))
      as (hub1 & r & Hrun & Hr & Hc1); [|done|].
    { rewrite HcS. apply lookup_insert_eq. }
    assert (connections hub1
            = <[name := attempt_connection config a]> (connections hub))
      as Hstored.
    { rewrite Hc1, HcS. unfold attempt_connection.
      destruct (attempt_tools config a) as [ts|]; [|done].
      by rewrite alter_insert_eq. }
    rewrite Hrun. destruct Hr as [->|(e & -> & He)].
    - eexists _, _. split; [reflexivity|]. exact Hstored.
    - rewrite He. eexists _, _. split; [reflexivity|].
      split; [done|]. by right. }
  destruct (transport_is config "stdio") eqn:Estdio.
  - unfold attempt_session in Hload. rewrite Estdio in Hload.
    unfold connect_stdio, store_connection.
    unfold bind at 1 2 3 4 5 6 7 8. unfold log, reply, modify. simpl.
    destruct (stdio_client_reply a) as [[]|e1]; simpl;
      [|by apply Hhandler].
    destruct (client_session_reply a) as [s|e2]; simpl in *;
      [|by apply Hhandler].
    destruct (initialize_reply a) as [[]|e3]; simpl;
      [|by apply Hhandler].
    by apply (Hload _ _ eq_refl).
  - destruct (transport_is config "sse") eqn:Esse.
    2: { eexists _, _. split; [reflexivity|]. done. }
    unfold attempt_session in Hload. rewrite Estdio in Hload.
    unfold connect_sse. unfold bind at 1 2. unfold log, reply. simpl.
    destruct (probe_reply a) as [status|e]; simpl; [|by apply Hhandler].
    destruct (status =? 200).
    + unfold store_connection. unfold bind at 1 2. unfold log, modify. simpl.
      by apply (Hload _ _ eq_refl).
    + unfold give_up_or_sleep, bind, log.
      destruct (retries <? attempt); simpl; eexists _, _;
        (split; [reflexivity|]); done.
Qed.

Lemma connect_loop_registry fuel env name config retries attempt hub hub' r :
  connections hub !! name = None ->
  connect_loop fuel env name config retries attempt hub = Some (hub', r) ->
  connect_leaves config env (attempt + 1) (retries + 1)
    (connections hub) (connections hub') name r.
Proof.
  revert attempt hub. induction fuel as [|fuel IH]; intros attempt hub Hn; simpl.
  - destruct (attempt <=? retries); [done|]. by intros [= <- <-].
  - destruct (attempt <=? retries) eqn:Hle; [|by intros [= <- <-]].
    apply Z.leb_le in Hle.
    destruct (attempt_body_registry (env (attempt + 1)) name config retries
                (attempt + 1) hub Hn) as (hub1 & r1 & -> & Hleaves).
    destruct r1 as [[|v]|e]; simpl in Hleaves.
    + intros Hrest. rewrite <- Hleaves in *.
      apply IH in Hrest; [|done].
      destruct r as [[[|]|]|e]; simpl in *; try done.
      * destruct Hrest as (i & Hi & Hc). exists i. split; [lia|done].
      * destruct Hrest as [He [Hc|(i & Hi & Hc)]]; (split; [done|]);
          [by left|right]. exists i. split; [lia|done].
    + intros [= <- <-]. destruct v as [[|]|]; simpl; try done.
      exists (attempt + 1). split; [lia|done].
    + intros [= <- <-]. simpl. destruct Hleaves as [He [Hc|Hc]];
        (split; [done|]); [by left|right].
      exists (attempt + 1). split; [lia|done].
Qed.

(** C2 (as amended): connecting again under a registered name, with a
    retry bound that is not negative, returns; the first thing it does is to
    remove the registered session from the registry, before anything is
    stored; it sends no close request to the old session or to the exit
    stack, on which the old session stays; the sessions of other names are
    untouched. What the registry holds under the name afterwards is never
    the old session: when the call returns [True] it is the one session
    made by the attempt that went through, connected; when it returns
    [False] it is nothing, the old session being gone and no status or
    error recorded; and when the call is cancelled it is one or the
    other. *)
Theorem reconnect_removes_without_close env name config timeout retries hub
    old :
  connections hub !! name = Some old ->
  0 <= int_or retries (connection_retries hub) ->
  exists hub' r,
    connect_to_server env name config timeout retries hub = Some (hub', r) /\
    (exists evs, trace hub' = (trace hub ++ EvRemove name :: evs)%list /\
                 Forall (fun ev => is_close ev = false) evs) /\
    exit_stack hub `prefix_of` exit_stack hub' /\
    (forall n, n <> name -> connections hub' !! n = connections hub !! n) /\
    (r = Returned (Some true) -> connected_at name hub') /\
    match r with
    | Returned (Some true) =>
        exists i, 1 <= i <= int_or retries (connection_retries hub) + 1 /\
          connections hub' !! name = Some (attempt_connection config (env i))
    | Returned _ => connections hub' !! name = None
    | Raised e =>
        is_Exception e = false /\
        (connections hub' !! name = None \/
         exists i, 1 <= i <= int_or retries (connection_retries hub) + 1 /\
           connections hub' !! name = Some (attempt_connection config (env i)))
    end.
Proof.
  intros Hold Hretries.
  destruct (connect_to_server_returns env name config timeout retries hub)
    as [[hub' r] Hrun].
  exists hub', r. split; [done|]. unfold connect_to_server in Hrun.
  destruct (connect_loop_removes_first _ _ _ _ _ _ _ _ _ _ Hold Hretries Hrun)
    as (Hfirst & Hstack & Hother).
  repeat (split; [done|]).
  split; [intros ->; by eapply connect_loop_success|].
  rewrite connect_loop_after_removal in Hrun by done.
  rewrite remove_existing_run in Hrun. cbn [fst] in Hrun.
  apply connect_loop_registry in Hrun; [|apply lookup_delete_eq].
  cbn [connections] in Hrun. unfold connect_leaves in Hrun.
  replace (0 + 1) with 1 in Hrun by lia.
  destruct r as [[[|]|]|e].
  - destruct Hrun as (i & Hi & ->). exists i. split; [done|].
    apply lookup_insert_eq.
  - rewrite Hrun. apply lookup_delete_eq.
  - rewrite Hrun. apply lookup_delete_eq.
  - destruct Hrun as [He [->|(i & Hi & ->)]]; (split; [done|]).
    + left. apply lookup_delete_eq.
    + right. exists i. split; [done|]. apply lookup_insert_eq.
Qed.

(** Reconnecting the default server, all going well. *)
Lemma reconnect_default_server :
  exists hub' r,
    connect_to_server (fun _ => working_attempt 2 []) default_server_name
      moveflow_config None None connected_hub = Some (hub', r) /\
    (exists evs,
        trace hub'
        = (trace connected_hub ++ EvRemove default_server_name :: evs)%list /\
        Forall (fun ev => is_close ev = false) evs) /\
    exit_stack connected_hub `prefix_of` exit_stack hub' /\
    (forall n, n <> default_server_name ->
               connections hub' !! n = connections connected_hub !! n) /\
    (r = Returned (Some true) -> connected_at default_server_name hub') /\
    match r with
    | Returned (Some true) =>
        exists i, 1 <= i <= 2 + 1 /\
          connections hub' !! default_server_name
          = Some (attempt_connection moveflow_config (working_attempt 2 []))
    | Returned _ => connections hub' !! default_server_name = None
    | Raised e =>
        is_Exception e = false /\
        (connections hub' !! default_server_name = None \/
         exists i, 1 <= i <= 2 + 1 /\
           connections hub' !! default_server_name
           = Some (attempt_connection moveflow_config (working_attempt 2 [])))
    end.
Proof.
  apply (reconnect_removes_without_close (fun _ => working_attempt 2 [])
           default_server_name moveflow_config
           None None connected_hub moveflow_connection).
  - vm_compute. reflexivity.
  - simpl. lia.
Defined.

(** C2 fails as stated: the session registered in [connected_hub] is
    session 1; connecting again stores session 2, and the requests made
    contain no shutdown of session 1 and no closing of the exit stack, on
    which the handle of session 1 stays. *)
Lemma reconnect_sends_no_close :
  let run := connect_to_server (fun _ => working_attempt 2 [])
               default_server_name moveflow_config None None connected_hub in
  conn_session <$> connections connected_hub !! default_server_name
  = Some (sample_session 1) /\
  snd <$> run = Some (Returned (Some true)) /\
  trace <$> (fst <$> run)
  = Some [EvRemove default_server_name;
          EvConnect default_server_name 1;
          EvStore default_server_name (sample_session 2);
          EvListTools default_server_name] /\
  exit_stack <$> (fst <$> run)
  = Some [ResStdio; ResSession (sample_session 1);
          ResStdio; ResSession (sample_session 2)] /\
  (run ≫= fun out => conn_session <$> connections out.1 !! default_server_name)
  = Some (sample_session 2).
Proof. vm_compute. repeat split. Qed.

(** A reconnect whose attempts all fail: the session that was registered is
    gone afterwards, and it has not been asked to close. *)
Example failed_reconnect_drops_the_session :
  let run := connect_to_server (fun _ => failing_attempt)
               default_server_name moveflow_config None None connected_hub in
  snd <$> run = Some (Returned (Some false)) /\
  (run ≫= fun out => connections out.1 !! default_server_name) = None /\
  exit_stack <$> (fst <$> run)
  = Some [ResStdio; ResSession (sample_session 1)].
Proof. vm_compute. repeat split. Qed.

(** ** The hub: resources and listings *)

(** X6: Reading a resource under a name the registry lacks fails with the
    session-not-found error, whatever the transport would answer; under a
    registered name the error of the transport reaches the caller, a reply
    other than 200 becomes an error carrying status and body, and a reply
    200 gives the [contents] of the body, or the empty list when the body
    has none. The hub is left as it was. *)
Theorem read_resource_errors env server_name uri hub :
  (read_resource env server_name uri hub).1 = hub /\
  (connections hub !! server_name = None ->
   (read_resource env server_name uri hub).2
   = Raised (Exception ("未找到服务器连接: " +:+ server_name))) /\
  (forall c,
     connections hub !! server_name = Some c ->
     conn_transport c = stdio ->
     (read_resource env server_name uri hub).2 = read_resource_reply env) /\
  (forall c e,
     connections hub !! server_name = Some c ->
     conn_transport c = sse ->
     http_read_reply env = Raised e ->
     (read_resource env server_name uri hub).2 = Raised e) /\
  (forall c status data error_text,
     connections hub !! server_name = Some c ->
     conn_transport c = sse ->
     http_read_reply env = Returned (status, data, error_text) ->
     status <> 200 ->
     (read_resource env server_name uri hub).2
     = Raised (Exception ("读取资源失败: " +:+ pretty status +:+ ", "
                            +:+ error_text))) /\
  (forall c items error_text,
     connections hub !! server_name = Some c ->
     conn_transport c = sse ->
     http_read_reply env = Returned (200, VDict items, error_text) ->
     (read_resource env server_name uri hub).2
     = Returned (match dict_get "contents" items with
                 | Some v => v
                 | None => VList []
                 end)).
Proof.
  unfold read_resource, lookup_connection, gets, bind, try_except, reply.
  simpl. split; [|repeat split].
  - destruct (connections hub !! server_name) as [c|]; [|done].
    destruct (conn_transport c); simpl.
    + destruct (read_resource_reply env) as [v|e]; simpl; [done|].
      by destruct (is_Exception e).
    + destruct (http_read_reply env) as [[[status data] text]|e]; simpl.
      * destruct (status =? 200); simpl; [|done].
        destruct (value_get "contents" (VList []) data) as [v|e]; simpl;
          [done|]. by destruct (is_Exception e).
      * by destruct (is_Exception e).
  - by intros ->.
  - intros c -> ->. simpl.
    destruct (read_resource_reply env) as [v|e]; simpl; [done|].
    by destruct (is_Exception e).
  - intros c e -> -> ->. simpl. by destruct (is_Exception e).
  - intros c status data error_text -> -> -> Hs. simpl.
    by destruct (status =? 200) eqn:E; [apply Z.eqb_eq in E|].
  - intros c items error_text -> -> ->. done.
Qed.

(** X7: [get_resources] raises no error: a name without session, an error of
    the transport, a reply other than 200 and a body that is no mapping all
    give the empty list; only a cancellation gets through. The hub is left
    as it was. *)
Theorem get_resources_never_fails env server_name hub :
  (get_resources env server_name hub).1 = hub /\
  (forall e, (get_resources env server_name hub).2 = Raised e ->
             e = CancelledError) /\
  (connections hub !! server_name = None ->
   (get_resources env server_name hub).2 = Returned (VList [])) /\
  (forall c e,
     connections hub !! server_name = Some c ->
     (conn_transport c = stdio /\ list_resources_reply env = Raised e \/
      conn_transport c = sse /\ http_resources_reply env = Raised e) ->
     is_Exception e = true ->
     (get_resources env server_name hub).2 = Returned (VList [])) /\
  (forall c status data,
     connections hub !! server_name = Some c ->
     conn_transport c = sse ->
     http_resources_reply env = Returned (status, data) ->
     status <> 200 ->
     (get_resources env server_name hub).2 = Returned (VList [])).
Proof.
  unfold get_resources, lookup_connection, gets, bind, try_except, reply, ret.
  simpl. split; [|split; [|repeat split]].
  - destruct (connections hub !! server_name) as [c|]; [|done].
    destruct (conn_transport c); simpl.
    + destruct (list_resources_reply env) as [v|e]; simpl; [done|].
      by destruct (is_Exception e).
    + destruct (http_resources_reply env) as [[status data]|e]; simpl.
      * destruct (status =? 200); simpl; [|done].
        destruct (value_get "resources" (VList []) data) as [v|e]; simpl;
          [done|]. by destruct (is_Exception e).
      * by destruct (is_Exception e).
  - intros e.
    destruct (connections hub !! server_name) as [c|]; [|done].
    destruct (conn_transport c); simpl.
    + destruct (list_resources_reply env) as [v|e']; simpl; [done|].
      destruct e'; simpl; congruence.
    + destruct (http_resources_reply env) as [[status data]|e']; simpl.
      * destruct (status =? 200); simpl; [|done].
        destruct data; simpl; done.
      * destruct e'; simpl; congruence.
  - by intros ->.
  - intros c e -> [[-> ->]|[-> ->]] He; simpl; by rewrite He.
  - intros c status data -> -> -> Hs. simpl.
    by destruct (status =? 200) eqn:E; [apply Z.eqb_eq in E|].
Qed.

(** X8: After [cleanup] no name is registered: the listing is empty, a tool
    call and a resource read under any name fail with the session-not-found
    error, and loading tools or listing resources gives the empty list,
    each without a request to any transport. *)
Theorem after_cleanup_nothing_is_registered env hub name :
  let hub1 := (cleanup env hub).1 in
  get_all_servers hub1 = (hub1, Returned []) /\
  (forall cenv tool tool_args,
     call_tool cenv name tool tool_args hub1
     = (hub1, Raised (Exception ("未找到服务器连接: " +:+ name)))) /\
  (forall renv uri,
     read_resource renv name uri hub1
     = (hub1, Raised (Exception ("未找到服务器连接: " +:+ name)))) /\
  (forall tenv, load_tools tenv name hub1 = (hub1, Returned [])) /\
  (forall renv, get_resources renv name hub1 = (hub1, Returned (VList []))).
Proof.
  intros hub1.
  destruct (cleanup_returns_empty env hub) as [_ Hempty]. fold hub1 in Hempty.
  assert (connections hub1 !! name = None) as Hn
      by (rewrite Hempty; apply lookup_empty).
  split; [|split; [|split; [|split]]].
  - unfold get_all_servers, gets. by rewrite Hempty, map_to_list_empty.
  - intros cenv tool tool_args.
    unfold call_tool, lookup_connection, gets, bind. simpl. by rewrite Hn.
  - intros renv uri.
    unfold read_resource, lookup_connection, gets, bind. simpl. by rewrite Hn.
  - intros tenv. by apply load_tools_missing.
  - intros renv.
    unfold get_resources, lookup_connection, gets, bind. simpl. by rewrite Hn.
Qed.

(** X9: Tool calls and tool-list requests never add or remove a session: a
    tool call leaves the registry and the exit stack as they were, and
    loading tools changes nothing but the cached tool list of the one
    session named. *)
Theorem requests_keep_the_registry cenv tenv name tool tool_args hub :
  connections (call_tool cenv name tool tool_args hub).1 = connections hub /\
  exit_stack (call_tool cenv name tool tool_args hub).1 = exit_stack hub /\
  exit_stack (load_tools tenv name hub).1 = exit_stack hub /\
  dom (connections (load_tools tenv name hub).1) = dom (connections hub) /\
  (forall n, n <> name ->
             connections (load_tools tenv name hub).1 !! n
             = connections hub !! n) /\
  (forall c,
     connections hub !! name = Some c ->
     exists ts,
       connections (load_tools tenv name hub).1 !! name
       = Some {| conn_transport := conn_transport c;
                 conn_session := conn_session c; conn_url := conn_url c;
                 conn_config := conn_config c; conn_tools := ts;
                 conn_status := conn_status c; conn_error := conn_error c |}).
Proof.
  assert (forall hub',
            (hub' = hub \/
             exists ts,
               hub' = (set_tools name ts
                         (log (EvListTools name) hub).1).1 \/
               hub' = (log (EvListTools name) hub).1) ->
            exit_stack hub' = exit_stack hub /\
            dom (connections hub') = dom (connections hub) /\
            (forall n, n <> name ->
                       connections hub' !! n = connections hub !! n) /\
            (forall c,
               connections hub !! name = Some c ->
               exists ts,
                 connections hub' !! name
                 = Some {| conn_transport := conn_transport c;
                           conn_session := conn_session c;
                           conn_url := conn_url c;
                           conn_config := conn_config c; conn_tools := ts;
                           conn_status := conn_status c;
                           conn_error := conn_error c |})) as Hshape.
  { intros hub' [->|(ts & [->| ->])]; simpl.
    - repeat split; try done. intros c Hc. exists (conn_tools c).
      rewrite Hc. by destruct c.
    - split; [done|]. split; [|split].
      + apply set_eq. intros n. rewrite !elem_of_dom.
        rewrite lookup_alter. case_decide; [subst|done].
        by rewrite fmap_is_Some.
      + intros n Hn. by apply lookup_alter_ne.
      + intros c Hc. exists (Some ts). by rewrite lookup_alter_eq, Hc.
    - repeat split; try done. intros c Hc. exists (conn_tools c).
      rewrite Hc. by destruct c. }
  split; [|split].
  - unfold call_tool, lookup_connection, gets, bind, try_except, reply, log,
      raise.
    simpl. destruct (connections hub !! name) as [c|]; [|done].
    destruct (conn_transport c); simpl.
    + destruct (call_tool_reply cenv) as [v|e]; simpl; [done|].
      by destruct (is_Exception e).
    + destruct (http_call_reply cenv) as [[[status body] text]|e]; simpl.
      * destruct (status =? 200); simpl; done.
      * by destruct (is_Exception e).
  - unfold call_tool, lookup_connection, gets, bind, try_except, reply, log,
      raise.
    simpl. destruct (connections hub !! name) as [c|]; [|done].
    destruct (conn_transport c); simpl.
    + destruct (call_tool_reply cenv) as [v|e]; simpl; [done|].
      by destruct (is_Exception e).
    + destruct (http_call_reply cenv) as [[[status body] text]|e]; simpl.
      * destruct (status =? 200); simpl; done.
      * by destruct (is_Exception e).
  - apply Hshape.
    unfold load_tools, lookup_connection, gets, bind, try_except, reply, ret.
    simpl. destruct (connections hub !! name) as [c|]; [|by left].
    right. destruct (conn_transport c); simpl.
    + destruct (list_tools_reply tenv) as [ts|e]; simpl.
      * exists ts. by left.
      * exists []. right. by destruct (is_Exception e).
    + destruct (http_tools_reply tenv) as [[status ts]|e]; simpl.
      * exists ts. destruct (status =? 200); simpl; [by left|by right].
      * exists []. right. by destruct (is_Exception e).
Qed.

(** ** The numeric-safety transform leaves nothing unsafe *)

(** X10: After the transform no integer or float beyond the safe range is left
    anywhere in the tree. *)
Theorem convert_bigint_result_is_safe `{PyRuntime} v :
  all_safe (convert_bigint v) = true /\
  all_safe (convert_args_bigint v) = true.
Proof.
  assert (all_safe (convert_bigint v) = true) as Hs.
  { induction v as [|b|z|f|s|items IH|items IH] using value_nested_ind.
    - done.
    - by destruct b.
    - simpl. destruct (MAX_SAFE_INTEGER <? Z.abs z) eqn:E; [done|].
      simpl. by rewrite E.
    - simpl. destruct (float_abs_gt f MAX_SAFE_INTEGER) eqn:E; [done|].
      simpl. by rewrite E.
    - done.
    - simpl. apply forallb_forall. intros x Hx.
      apply in_map_iff in Hx as (y & <- & Hy).
      rewrite Forall_forall in IH. apply IH. by apply list_elem_of_In.
    - simpl. apply forallb_forall. intros kv Hkv.
      apply in_map_iff in Hkv as (y & <- & Hy). simpl.
      rewrite Forall_forall in IH. apply (IH y). by apply list_elem_of_In. }
  split; [done|]. by rewrite convert_args_bigint_eq.
Qed.

(** ** Argument preprocessing: what is coerced *)

Section preprocess_items_facts.
Context `{PyRuntime}.

Lemma dict_get_set_eq {A : Type} k (v : A) d :
  dict_get k (dict_set k v d) = Some v.
Proof.
  induction d as [|[k' v'] d IH]; simpl.
  - by rewrite String.eqb_refl.
  - destruct (String.eqb k k') eqn:E; simpl.
    + by rewrite String.eqb_refl.
    + by rewrite E.
Qed.

Lemma dict_get_set_ne {A : Type} k k' (v : A) d :
  k <> k' -> dict_get k' (dict_set k v d) = dict_get k' d.
Proof.
  intros Hne. induction d as [|[k0 v0] d IH]; simpl.
  - assert (String.eqb k' k = false) as -> by by apply String.eqb_neq.
    done.
  - destruct (String.eqb k k0) eqn:E; simpl.
    + apply String.eqb_eq in E as <-.
      assert (String.eqb k' k = false) as -> by by apply String.eqb_neq.
      done.
    + by rewrite IH.
Qed.

(** Setting a key that is there keeps the keys and their order. *)
Lemma dict_set_keys {A : Type} k (v v0 : A) d :
  dict_get k d = Some v0 -> (dict_set k v d).*1 = d.*1.
Proof.
  induction d as [|[k' v'] d IH]; simpl; [done|].
  destruct (String.eqb k k') eqn:E.
  - apply String.eqb_eq in E as <-. done.
  - intros Hd. rewrite !fmap_cons. f_equal. by apply IH.
Qed.

Lemma hval_str_scalar (h : heap) v :
  is_scalar_hval v = true -> hval_str h v = hval_str [] v.
Proof. by destruct v. Qed.

Lemma stringify_item_keys strf field items :
  (stringify_item strf field items).*1 = items.*1.
Proof.
  unfold stringify_item. destruct (dict_get field items) as [v|] eqn:E; [|done].
  destruct (is_none v); [done|]. by eapply dict_set_keys.
Qed.

Lemma stringify_item_other strf field items g :
  field <> g -> dict_get g (stringify_item strf field items) = dict_get g items.
Proof.
  intros Hne. unfold stringify_item.
  destruct (dict_get field items) as [v|]; [|done].
  destruct (is_none v); [done|]. by apply dict_get_set_ne.
Qed.

Lemma stringify_item_same strf field items :
  dict_get field (stringify_item strf field items)
  = (fun v => if is_none v then v else HStr (strf v)) <$> dict_get field items.
Proof.
  unfold stringify_item. destruct (dict_get field items) as [v|] eqn:E; simpl.
  - destruct (is_none v); [by rewrite E|]. apply dict_get_set_eq.
  - by rewrite E.
Qed.

Lemma boolify_item_keys field items :
  (boolify_item field items).*1 = items.*1.
Proof.
  unfold boolify_item. destruct (dict_get field items) as [v|] eqn:E; [|done].
  destruct v; try done. by eapply dict_set_keys.
Qed.

Lemma boolify_item_other field items g :
  field <> g -> dict_get g (boolify_item field items) = dict_get g items.
Proof.
  intros Hne. unfold boolify_item.
  destruct (dict_get field items) as [v|]; [|done].
  destruct v; try done. by apply dict_get_set_ne.
Qed.

Lemma boolify_item_same field items :
  dict_get field (boolify_item field items)
  = (fun v => match v with
              | HStr s => HBool (String.eqb (str_lower s) "true")
              | _ => v
              end) <$> dict_get field items.
Proof.
  unfold boolify_item. destruct (dict_get field items) as [v|] eqn:E; simpl.
  - destruct v; try (by rewrite E). apply dict_get_set_eq.
  - by rewrite E.
Qed.

Lemma stringify_fields_keys h0 rest fields items :
  (stringify_fields h0 rest fields items).*1 = items.*1.
Proof.
  revert items. induction fields as [|f fs IH]; intros items; simpl; [done|].
  by rewrite IH, stringify_item_keys.
Qed.

Lemma stringify_fields_other h0 rest fields items g :
  g ∉ fields ->
  dict_get g (stringify_fields h0 rest fields items) = dict_get g items.
Proof.
  revert items. induction fields as [|f fs IH]; intros items Hg; simpl; [done|].
  apply not_elem_of_cons in Hg as [Hne Hg].
  rewrite IH by done. by apply stringify_item_other.
Qed.

Lemma stringify_fields_member h0 rest fields items g v :
  NoDup fields -> g ∈ fields -> dict_get g items = Some v ->
  exists s,
    dict_get g (stringify_fields h0 rest fields items)
    = Some (if is_none v then v else HStr s) /\
    (is_scalar_hval v = true -> s = hval_str [] v).
Proof.
  revert items. induction fields as [|f fs IH]; intros items Hnd Hg Hv; simpl.
  - by apply elem_of_nil in Hg.
  - apply NoDup_cons in Hnd as [Hf Hnd].
    apply elem_of_cons in Hg as [->|Hg].
    + rewrite stringify_fields_other by done.
      rewrite stringify_item_same, Hv. simpl.
      eexists. split; [done|]. intros Hs. by apply hval_str_scalar.
    + apply IH; [done|done|].
      rewrite stringify_item_other; [done|]. intros ->. done.
Qed.

Lemma boolify_fields_keys fields items :
  (boolify_fields fields items).*1 = items.*1.
Proof.
  revert items. induction fields as [|f fs IH]; intros items; simpl; [done|].
  by rewrite IH, boolify_item_keys.
Qed.

Lemma boolify_fields_other fields items g :
  g ∉ fields -> dict_get g (boolify_fields fields items) = dict_get g items.
Proof.
  revert items. induction fields as [|f fs IH]; intros items Hg; simpl; [done|].
  apply not_elem_of_cons in Hg as [Hne Hg].
  rewrite IH by done. by apply boolify_item_other.
Qed.

Lemma boolify_fields_member fields items g :
  NoDup fields -> g ∈ fields ->
  dict_get g (boolify_fields fields items)
  = (fun v => match v with
              | HStr s => HBool (String.eqb (str_lower s) "true")
              | _ => v
              end) <$> dict_get g items.
Proof.
  revert items. induction fields as [|f fs IH]; intros items Hnd Hg; simpl.
  - by apply elem_of_nil in Hg.
  - apply NoDup_cons in Hnd as [Hf Hnd].
    apply elem_of_cons in Hg as [->|Hg].
    + rewrite boolify_fields_other by done. apply boolify_item_same.
    + rewrite IH by done. rewrite boolify_item_other; [done|]. intros ->. done.
Qed.

(** The mapping at location [length h0] of a store. *)
Lemma insert_middle {A : Type} (l1 l2 : list A) x y :
  <[length l1 := y]> (l1 ++ x :: l2)%list = (l1 ++ y :: l2)%list.
Proof.
  replace (length l1) with (length l1 + 0)%nat by lia.
  by rewrite insert_app_r.
Qed.

Lemma contains_run (h0 rest : heap) items field :
  contains (length h0) field (h0 ++ ODict items :: rest)%list
  = ((h0 ++ ODict items :: rest)%list,
     Returned (match dict_get field items with
               | Some _ => true
               | None => false
               end)).
Proof.
  unfold contains, bind, load. by rewrite list_lookup_middle.
Qed.

Lemma getitem_run (h0 rest : heap) items field v :
  dict_get field items = Some v ->
  getitem (length h0) field (h0 ++ ODict items :: rest)%list
  = ((h0 ++ ODict items :: rest)%list, Returned v).
Proof.
  intros Hv. unfold getitem, bind, load. rewrite list_lookup_middle by done.
  by rewrite Hv.
Qed.

Lemma setitem_run (h0 rest : heap) items field v :
  setitem (length h0) field v (h0 ++ ODict items :: rest)%list
  = ((h0 ++ ODict (dict_set field v items) :: rest)%list, Returned tt).
Proof.
  unfold setitem, bind, load. rewrite list_lookup_middle by done.
  by rewrite insert_middle.
Qed.

Lemma stringify_field_run (h0 rest : heap) items field :
  stringify_field (length h0) field (h0 ++ ODict items :: rest)%list
  = ((h0 ++ ODict (stringify_item
                     (hval_str (h0 ++ ODict items :: rest)%list) field items)
         :: rest)%list, Returned tt).
Proof.
  unfold stringify_field, stringify_item.
  rewrite (bind_run _ _ _ _ _ (contains_run h0 rest items field)).
  destruct (dict_get field items) as [v|] eqn:E; [|done].
  rewrite (bind_run _ _ _ _ _ (getitem_run h0 rest items field v E)).
  destruct (is_none v); [done|].
  rewrite (bind_run _ _ _ _ _ (getitem_run h0 rest items field v E)).
  unfold bind at 1. unfold str. apply setitem_run.
Qed.

Lemma boolify_field_run (h0 rest : heap) items field :
  boolify_field (length h0) field (h0 ++ ODict items :: rest)%list
  = ((h0 ++ ODict (boolify_item field items) :: rest)%list, Returned tt).
Proof.
  unfold boolify_field, boolify_item.
  rewrite (bind_run _ _ _ _ _ (contains_run h0 rest items field)).
  destruct (dict_get field items) as [v|] eqn:E; [|done].
  rewrite (bind_run _ _ _ _ _ (getitem_run h0 rest items field v E)).
  destruct v; try done.
  rewrite (bind_run _ _ _ _ _ (getitem_run h0 rest items field _ E)).
  apply setitem_run.
Qed.

Lemma stringify_fields_run (h0 rest : heap) fields items :
  for_each fields (stringify_field (length h0))
    (h0 ++ ODict items :: rest)%list
  = ((h0 ++ ODict (stringify_fields h0 rest fields items) :: rest)%list,
     Returned tt).
Proof.
  revert items. induction fields as [|f fs IH]; intros items; simpl; [done|].
  rewrite (bind_run _ _ _ _ _ (stringify_field_run h0 rest items f)).
  apply IH.
Qed.

Lemma boolify_fields_run (h0 rest : heap) fields items :
  for_each fields (boolify_field (length h0)) (h0 ++ ODict items :: rest)%list
  = ((h0 ++ ODict (boolify_fields fields items) :: rest)%list, Returned tt).
Proof.
  revert items. induction fields as [|f fs IH]; intros items; simpl; [done|].
  rewrite (bind_run _ _ _ _ _ (boolify_field_run h0 rest items f)).
  apply IH.
Qed.

(** [_preprocess_tool_args] for [create-stream] on a mapping, as a function
    of its items. *)
Lemma preprocess_create_stream_run (h : heap) a items :
  h !! a = Some (ODict items) ->
  _preprocess_tool_args "create-stream" (HRef a) h
  = ((h ++ [ODict (boolify_fields boolean_fields
                     (stringify_fields h [] numeric_fields items))])%list,
     Returned (HRef (length h))).
Proof.
  intros Ha. rewrite preprocess_unfold. unfold bind at 1.
  unfold copy, bind, load, alloc. rewrite Ha. unfold after_copy. simpl.
  rewrite (bind_run _ _ _ _ _ (stringify_fields_run h [] numeric_fields items)).
  rewrite (bind_run _ _ _ _ _ (boolify_fields_run h [] boolean_fields _)).
  done.
Qed.

Lemma numeric_fields_NoDup : NoDup numeric_fields.
Proof. by apply (bool_decide_unpack _). Qed.

Lemma boolean_fields_NoDup : NoDup boolean_fields.
Proof. by apply (bool_decide_unpack _). Qed.

Lemma numeric_not_boolean f : f ∈ numeric_fields -> f ∉ boolean_fields.
Proof.
  assert (Forall (fun f => f ∉ boolean_fields) numeric_fields) as Hall
      by by apply (bool_decide_unpack _).
  rewrite Forall_forall in Hall. apply Hall.
Qed.

(** X11: For [create-stream] with a mapping as arguments the preprocessing
    always returns, a new mapping with the same keys in the same order, in
    which: a numeric field that is not [None] holds a string, for a scalar
    [str] of it; a numeric field that is [None] stays [None]; a boolean
    field given as a string holds the boolean that tells whether the string
    lowercases to [true], and one given otherwise is unchanged; and every
    other entry is unchanged. *)
Theorem create_stream_coercions (h : heap) a items :
  h !! a = Some (ODict items) ->
  exists items',
    _preprocess_tool_args "create-stream" (HRef a) h
    = ((h ++ [ODict items'])%list, Returned (HRef (length h))) /\
    items'.*1 = items.*1 /\
    (forall f v,
       f ∈ numeric_fields -> dict_get f items = Some v ->
       exists s,
         dict_get f items' = Some (if is_none v then v else HStr s) /\
         (is_scalar_hval v = true -> s = hval_str [] v)) /\
    (forall f v,
       f ∈ boolean_fields -> dict_get f items = Some v ->
       dict_get f items'
       = Some (match v with
               | HStr s => HBool (String.eqb (str_lower s) "true")
               | _ => v
               end)) /\
    (forall f, f ∉ numeric_fields -> f ∉ boolean_fields ->
               dict_get f items' = dict_get f items).
Proof.
  intros Ha. eexists. split; [by apply preprocess_create_stream_run|].
  split; [|split; [|split]].
  - by rewrite boolify_fields_keys, stringify_fields_keys.
  - intros f v Hf Hv.
    rewrite boolify_fields_other by by apply numeric_not_boolean.
    by apply stringify_fields_member; [apply numeric_fields_NoDup|..].
  - intros f v Hf Hv.
    rewrite boolify_fields_member by (done || apply boolean_fields_NoDup).
    rewrite stringify_fields_other, Hv; [done|].
    intros Hn. by apply numeric_not_boolean in Hn.
  - intros f Hn Hb.
    by rewrite boolify_fields_other, stringify_fields_other.
Qed.
(** X12: The amounts of [batch-create-streams], field by field, on the mapping at
    location [length h0]. A field that is absent or falsy (None, 0, the
    empty string, an empty list) is left as it is. A non-empty list is
    replaced by a new list object that holds [str] of each element in
    order. A non-empty string is iterated as well: it is replaced by the
    list of its characters. A number that is not zero is not iterable: the
    error leaves the function and the store is as it was. *)
Theorem batch_amounts_by_value (h0 rest : heap) items field :
  let store := (h0 ++ ODict items :: rest)%list in
  (dict_get field items = None ->
   stringify_items (length h0) field store = (store, Returned tt)) /\
  (forall v,
     dict_get field items = Some v ->
     truthy v store = (store, Returned false) ->
     stringify_items (length h0) field store = (store, Returned tt)) /\
  (forall l x xs,
     dict_get field items = Some (HRef l) ->
     store !! l = Some (OList (x :: xs)) ->
     stringify_items (length h0) field store
     = ((h0 ++ ODict (dict_set field (HRef (length store)) items)
            :: rest ++ [OList (map (fun amt => HStr (hval_str store amt))
                                 (x :: xs))])%list,
        Returned tt)) /\
  (forall s,
     dict_get field items = Some (HStr s) -> s <> "" ->
     stringify_items (length h0) field store
     = ((h0 ++ ODict (dict_set field (HRef (length store)) items)
            :: rest ++ [OList (map HStr (py_chars s))])%list,
        Returned tt)) /\
  (forall z,
     dict_get field items = Some (HInt z) -> z <> 0 ->
     stringify_items (length h0) field store
     = (store, Raised (Exception "'int' object is not iterable"))).
Proof.
  intros store. unfold store.
  assert (forall strs,
            (l <- alloc (OList strs) ;; setitem (length h0) field (HRef l))
              (h0 ++ ODict items :: rest)%list
            = ((h0 ++ ODict (dict_set field
                               (HRef (length (h0 ++ ODict items :: rest)%list))
                               items)
                   :: rest ++ [OList strs])%list, Returned tt)) as Hset.
  { intros strs. unfold bind at 1, alloc.
    rewrite <- app_assoc. simpl. apply setitem_run. }
  split; [|split; [|split; [|split]]].
  - intros Hf. unfold stringify_items.
    rewrite (bind_run _ _ _ _ _ (contains_run h0 rest items field)).
    by rewrite Hf.
  - intros v Hf Hv. unfold stringify_items.
    rewrite (bind_run _ _ _ _ _ (contains_run h0 rest items field)).
    rewrite Hf.
    rewrite (bind_run _ _ _ _ _ (getitem_run h0 rest items field v Hf)).
    by rewrite (bind_run _ _ _ _ _ Hv).
  - intros l x xs Hf Hl. unfold stringify_items.
    rewrite (bind_run _ _ _ _ _ (contains_run h0 rest items field)).
    rewrite Hf.
    rewrite (bind_run _ _ _ _ _ (getitem_run h0 rest items field _ Hf)).
    assert (truthy (HRef l) (h0 ++ ODict items :: rest)%list
            = ((h0 ++ ODict items :: rest)%list, Returned true)) as Ht.
    { unfold truthy, bind, load. by rewrite Hl. }
    rewrite (bind_run _ _ _ _ _ Ht).
    rewrite (bind_run _ _ _ _ _ (getitem_run h0 rest items field _ Hf)).
    assert (iter (HRef l) (h0 ++ ODict items :: rest)%list
            = ((h0 ++ ODict items :: rest)%list, Returned (x :: xs))) as Hi.
    { unfold iter, bind, load. by rewrite Hl. }
    rewrite (bind_run _ _ _ _ _ Hi).
    unfold bind at 1. apply Hset.
  - intros s Hf Hs. unfold stringify_items.
    rewrite (bind_run _ _ _ _ _ (contains_run h0 rest items field)).
    rewrite Hf.
    rewrite (bind_run _ _ _ _ _ (getitem_run h0 rest items field _ Hf)).
    assert (truthy (HStr s) (h0 ++ ODict items :: rest)%list
            = ((h0 ++ ODict items :: rest)%list, Returned true)) as Ht.
    { unfold truthy, ret. destruct s; [done|]. done. }
    rewrite (bind_run _ _ _ _ _ Ht).
    rewrite (bind_run _ _ _ _ _ (getitem_run h0 rest items field _ Hf)).
    unfold bind at 1. unfold iter, ret. unfold bind at 1.
    rewrite map_map. simpl. apply Hset.
  - intros z Hf Hz. unfold stringify_items.
    rewrite (bind_run _ _ _ _ _ (contains_run h0 rest items field)).
    rewrite Hf.
    rewrite (bind_run _ _ _ _ _ (getitem_run h0 rest items field _ Hf)).
    assert (truthy (HInt z) (h0 ++ ODict items :: rest)%list
            = ((h0 ++ ODict items :: rest)%list, Returned true)) as Ht.
    { unfold truthy, ret. apply Z.eqb_neq in Hz. by rewrite Hz. }
    rewrite (bind_run _ _ _ _ _ Ht).
    rewrite (bind_run _ _ _ _ _ (getitem_run h0 rest items field _ Hf)).
    done.
Qed.
End preprocess_items_facts.

(** ** The response loops: errors outside the [try] *)

Section dispatcher_aborts.
Context `{PyRuntime} {world tool_result : Type}.
Variable call : string -> heap -> hval -> world -> world * outcome tool_result.
Variable fmt : tool_result -> string.
Variable rpr : tool_result -> string.

Lemma openai_tool_calls_after pre rest final_text s anns s1 :
  dispatched call fmt pre s anns s1 ->
  openai_tool_calls call fmt (pre ++ rest) final_text s
  = openai_tool_calls call fmt rest (final_text ++ anns)%list s1.
Proof.
  intros Hd. revert final_text.
  induction Hd as [s|tc pre w h h1 tool_args h2 processed_args w' r anns s'
                     Hloads Hpre Hcall Herr Hd IH]; intros ft.
  - by rewrite app_nil_r.
  - change (openai_tool_calls call fmt ((tc :: pre) ++ rest) ft (w, h))
      with (bind (openai_tool_call call fmt tc ft)
              (fun ft' => openai_tool_calls call fmt (pre ++ rest) ft') (w, h)).
    unfold bind at 1.
    rewrite (openai_tool_call_run call fmt _ _ _ _ _ _ _ _ _ _
               Hloads Hpre Hcall Herr).
    rewrite IH. by rewrite <- app_assoc.
Qed.

Lemma anthropic_blocks_rendered blocks rest final_text s texts s1 :
  rendered call rpr blocks s texts s1 ->
  anthropic_blocks call rpr (blocks ++ rest) final_text s
  = anthropic_blocks call rpr rest (final_text ++ texts)%list s1.
Proof.
  intros Hr. revert final_text.
  induction Hr as [s|text blocks s texts s' Hr IH|blocks s texts s' Hr IH
                  |name input blocks w h h2 processed_args w' r texts s'
                     Hpre Hcall Herr Hr IH]; intros ft.
  - by rewrite app_nil_r.
  - change (anthropic_blocks call rpr ((TextBlock text :: blocks) ++ rest) ft s)
      with (anthropic_blocks call rpr (blocks ++ rest) (ft ++ [text])%list s).
    rewrite IH. by rewrite <- app_assoc.
  - change (anthropic_blocks call rpr ((OtherBlock :: blocks) ++ rest) ft s)
      with (anthropic_blocks call rpr (blocks ++ rest) ft s).
    apply IH.
  - change (anthropic_blocks call rpr
              ((ToolUse name input :: blocks) ++ rest) ft (w, h))
      with (bind (anthropic_block call rpr (ToolUse name input) ft)
              (fun ft' => anthropic_blocks call rpr (blocks ++ rest) ft')
              (w, h)).
    unfold bind at 1.
    assert (anthropic_block call rpr (ToolUse name input) ft (w, h)
            = ((w', h2),
               Returned (ft ++ [anthropic_annotation rpr name r])%list))
      as ->.
    { unfold anthropic_block, bind, on_heap, try_except, remote_call. simpl.
      rewrite Hpre. simpl. rewrite Hcall.
      destruct r as [result|e]; simpl; [done|]. by rewrite (Herr e eq_refl). }
    rewrite IH. by rewrite <- app_assoc.
Qed.

(** X13: An error of the decoding or of the preprocessing ends the response
    loop at that invocation. The invocations before it have been made, the
    ones after it are not, the text collected so far is dropped, and the
    error leaves [process_response]; this holds for both services. *)
Theorem arguments_error_aborts :
  (forall response m others pre tc post s anns w1 (h1 h2 : heap) e,
     choices response = m :: others ->
     tool_calls m = (pre ++ tc :: post)%list ->
     dispatched call fmt pre s anns (w1, h1) ->
     (json_loads (fn_arguments tc) h1 = (h2, Raised e) \/
      exists h' tool_args,
        json_loads (fn_arguments tc) h1 = (h', Returned tool_args) /\
        _preprocess_tool_args (fn_name tc) tool_args h' = (h2, Raised e)) ->
     openai_process_response call fmt response true s
     = ((w1, h2), Raised e)) /\
  (forall pre name input post s texts w1 (h1 h2 : heap) e,
     rendered call rpr pre s texts (w1, h1) ->
     _preprocess_tool_args name input h1 = (h2, Raised e) ->
     anthropic_process_response call rpr (pre ++ ToolUse name input :: post)
       true s
     = ((w1, h2), Raised e)).
Proof.
  split.
  - intros response m others pre tc post s anns w1 h1 h2 e Hm Hcalls Hd Herr.
    unfold openai_process_response. simpl. unfold bind at 1.
    rewrite Hm, Hcalls, (openai_tool_calls_after _ _ _ _ _ _ Hd).
    simpl. unfold bind at 1.
    unfold openai_tool_call, bind, on_heap. simpl.
    destruct Herr as [Hloads|(h' & tool_args & Hloads & Hpre)].
    + by rewrite Hloads.
    + rewrite Hloads. simpl. by rewrite Hpre.
  - intros pre name input post s texts w1 h1 h2 e Hr Hpre.
    unfold anthropic_process_response. simpl. unfold bind at 1.
    rewrite (anthropic_blocks_rendered _ _ _ _ _ _ Hr).
    change (anthropic_blocks call rpr (ToolUse name input :: post)
              ([] ++ texts)%list (w1, h1))
      with (bind (anthropic_block call rpr (ToolUse name input)
                    ([] ++ texts)%list)
              (fun ft' => anthropic_blocks call rpr post ft') (w1, h1)).
    unfold bind at 1.
    unfold anthropic_block, bind, on_heap. simpl. by rewrite Hpre.
Qed.

Lemma rendered_texts_only blocks s :
  forallb (fun b => negb (is_tool_use b)) blocks = true ->
  rendered call rpr blocks s (block_texts blocks) s.
Proof.
  induction blocks as [|b blocks IH]; simpl; intros Hb.
  - constructor.
  - apply andb_true_iff in Hb as [Hb Hrest].
    destruct b as [text|name input|]; [|done|].
    + apply rendered_text. by apply IH.
    + apply rendered_other. by apply IH.
Qed.

(** X14: The Anthropic loop takes the blocks in order: the text returned joins
    the texts of the text blocks and the annotations of the [tool_use]
    blocks in the order of the blocks, each call made in the state the
    blocks before it left, and blocks of another type add nothing. A
    response without [tool_use] block makes no call and changes nothing.
    Without a session the fixed error text is returned and no block is
    looked at. *)
Theorem anthropic_blocks_in_order :
  (forall blocks s texts s',
     rendered call rpr blocks s texts s' ->
     anthropic_process_response call rpr blocks true s
     = (s', Returned (final_result texts))) /\
  (forall blocks s,
     forallb (fun b => negb (is_tool_use b)) blocks = true ->
     anthropic_process_response call rpr blocks true s
     = (s, Returned (final_result (block_texts blocks)))) /\
  (forall blocks s,
     anthropic_process_response call rpr blocks false s
     = (s, Returned no_session_text)).
Proof.
  assert (forall blocks s texts s',
            rendered call rpr blocks s texts s' ->
            anthropic_process_response call rpr blocks true s
            = (s', Returned (final_result texts))) as Hin.
  { intros blocks s texts s' Hr.
    unfold anthropic_process_response. simpl. unfold bind at 1.
    rewrite <- (app_nil_r blocks).
    by rewrite (anthropic_blocks_rendered _ _ _ _ _ _ Hr). }
  split; [exact Hin|]. split; [|done].
  intros blocks s Hb. apply Hin. by apply rendered_texts_only.
Qed.
End dispatcher_aborts.

(** ** The response loops: the text returned *)

Lemma append_nil_r (s : string) : s +:+ "" = s.
Proof.
  induction s as [|c s IH]; [done|].
  change (String c (s +:+ "") = String c s). by rewrite IH.
Qed.

(** The text of an element of a joined list, with what stands before it
    and after it. *)
Lemma join_split sep (xs : list string) a rest :
  exists pre,
    join sep (xs ++ a :: rest)
    = pre +:+ a +:+ match rest with
                    | [] => ""
                    | _ => sep +:+ join sep rest
                    end.
Proof.
  induction xs as [|x xs [pre IH]].
  - exists "". simpl. destruct rest; [by rewrite append_nil_r|done].
  - exists (x +:+ sep +:+ pre).
    change ((x :: xs) ++ a :: rest)%list with (x :: (xs ++ a :: rest))%list.
    assert (join sep (x :: (xs ++ a :: rest))
            = x +:+ sep +:+ join sep (xs ++ a :: rest)) as ->.
    { simpl. by destruct (xs ++ a :: rest)%list eqn:E; [destruct xs|]. }
    rewrite IH. by rewrite !append_assoc.
Qed.

Lemma join_two sep (xs : list string) a ys b zs :
  exists pre mid post,
    join sep (xs ++ a :: ys ++ b :: zs) = pre +:+ a +:+ mid +:+ b +:+ post.
Proof.
  destruct (join_split sep xs a (ys ++ b :: zs)) as [pre ->].
  destruct (join_split sep ys b zs) as [pre2 ->].
  exists pre, (sep +:+ pre2). eexists.
  destruct (ys ++ b :: zs)%list eqn:E; [by destruct ys|].
  by rewrite !append_assoc.
Qed.

Lemma final_result_join (xs : list string) a rest :
  final_result (xs ++ a :: rest) = join nl (xs ++ a :: rest).
Proof. unfold final_result. by destruct xs. Qed.

Section dispatcher_text.
Context `{PyRuntime} {world tool_result : Type}.
Variable call : string -> heap -> hval -> world -> world * outcome tool_result.
Variable fmt : tool_result -> string.
Variable rpr : tool_result -> string.

Lemma dispatched_app pre post s anns s1 anns' s' :
  dispatched call fmt pre s anns s1 ->
  dispatched call fmt post s1 anns' s' ->
  dispatched call fmt (pre ++ post) s (anns ++ anns') s'.
Proof.
  intros Hpre Hpost.
  induction Hpre as [s|tc pre w h h1 tool_args h2 processed_args w' r anns s1
                       Hloads Hargs Hcall Herr Hpre IH]; [done|].
  simpl. eapply dispatched_cons; eauto.
Qed.

Lemma dispatched_cons_inv tc rest s anns s' :
  dispatched call fmt (tc :: rest) s anns s' ->
  exists r s1 anns',
    invoked call tc s r s1 /\ dispatched call fmt rest s1 anns' s' /\
    anns = annotation fmt (fn_name tc) r :: anns'.
Proof.
  intros Hd. inversion Hd as [|? ? w h h1 tool_args h2 processed_args w' r
                                anns' ? Hloads Hargs Hcall Herr Hrest]; subst.
  exists r, (w', h2), anns'. split; [|done].
  by exists h1, tool_args, processed_args.
Qed.

Lemma dispatched_app_inv pre post s anns s' :
  dispatched call fmt (pre ++ post) s anns s' ->
  exists anns1 s1 anns2,
    dispatched call fmt pre s anns1 s1 /\
    dispatched call fmt post s1 anns2 s' /\ anns = (anns1 ++ anns2)%list.
Proof.
  revert s anns. induction pre as [|tc pre IH]; intros s anns Hd.
  - exists [], s, anns. split; [constructor|done].
  - simpl in Hd.
    inversion Hd as [|? ? w h h1 tool_args h2 processed_args w' r
                       anns' ? Hloads Hargs Hcall Herr Hrest]; subst.
    destruct (IH _ _ Hrest) as (anns1 & s1 & anns2 & Hpre & Hpost & ->).
    exists (annotation fmt (fn_name tc) r :: anns1), s1, anns2.
    split; [|done]. eapply dispatched_cons; eauto.
Qed.

(** A response all of whose invocations are dispatched returns its content
    and their annotations, joined. *)
Lemma openai_process_response_text response m others s anns s' :
  choices response = m :: others ->
  dispatched call fmt (tool_calls m) s anns s' ->
  openai_process_response call fmt response true s
  = (s', Returned (final_result (content_text m ++ anns))).
Proof.
  intros Hm Hd. unfold openai_process_response. simpl. unfold bind. rewrite Hm.
  by rewrite (openai_tool_calls_dispatched call fmt _ _ _ _ _ Hd).
Qed.

(** An invocation whose arguments do not decode, or are refused by the
    preprocessing, ends the OpenAI response with that error. *)
Lemma openai_process_response_aborts response m others pre tc post s anns w1
    (h1 h2 : heap) e :
  choices response = m :: others ->
  tool_calls m = (pre ++ tc :: post)%list ->
  dispatched call fmt pre s anns (w1, h1) ->
  (json_loads (fn_arguments tc) h1 = (h2, Raised e) \/
   exists h' tool_args,
     json_loads (fn_arguments tc) h1 = (h', Returned tool_args) /\
     _preprocess_tool_args (fn_name tc) tool_args h' = (h2, Raised e)) ->
  openai_process_response call fmt response true s = ((w1, h2), Raised e).
Proof.
  intros Hm Hcalls Hd Herr.
  unfold openai_process_response. simpl. unfold bind at 1.
  rewrite Hm, Hcalls, (openai_tool_calls_after call fmt _ _ _ _ _ _ Hd).
  simpl. unfold bind at 1.
  unfold openai_tool_call, bind, on_heap. simpl.
  destruct Herr as [Hloads|(h' & tool_args & Hloads & Hpre)].
  - by rewrite Hloads.
  - rewrite Hloads. simpl. by rewrite Hpre.
Qed.

Lemma anthropic_process_response_aborts pre name input post s texts w1
    (h1 h2 : heap) e :
  rendered call rpr pre s texts (w1, h1) ->
  _preprocess_tool_args name input h1 = (h2, Raised e) ->
  anthropic_process_response call rpr (pre ++ ToolUse name input :: post)
    true s
  = ((w1, h2), Raised e).
Proof.
  intros Hr Hpre.
  unfold anthropic_process_response. simpl. unfold bind at 1.
  rewrite (anthropic_blocks_rendered call rpr _ _ _ _ _ _ Hr).
  change (anthropic_blocks call rpr (ToolUse name input :: post)
            ([] ++ texts)%list (w1, h1))
    with (bind (anthropic_block call rpr (ToolUse name input)
                  ([] ++ texts)%list)
            (fun ft' => anthropic_blocks call rpr post ft') (w1, h1)).
  unfold bind at 1.
  unfold anthropic_block, bind, on_heap. simpl. by rewrite Hpre.
Qed.

Lemma rendered_app pre post s texts s1 texts' s' :
  rendered call rpr pre s texts s1 ->
  rendered call rpr post s1 texts' s' ->
  rendered call rpr (pre ++ post) s (texts ++ texts') s'.
Proof.
  intros Hpre Hpost.
  induction Hpre as [s|text pre s texts s1 Hpre IH|pre s texts s1 Hpre IH
                    |name input pre w h h2 processed_args w' r texts s1
                       Hargs Hcall Herr Hpre IH]; [done|..]; simpl.
  - apply rendered_text. by apply IH.
  - apply rendered_other. by apply IH.
  - eapply rendered_tool; eauto.
Qed.

Lemma anthropic_process_response_text blocks s texts s' :
  rendered call rpr blocks s texts s' ->
  anthropic_process_response call rpr blocks true s
  = (s', Returned (final_result texts)).
Proof.
  intros Hr. unfold anthropic_process_response. simpl. unfold bind at 1.
  rewrite <- (app_nil_r blocks).
  by rewrite (anthropic_blocks_rendered call rpr _ _ _ _ _ _ Hr).
Qed.

(** C7 (as amended): a tool call that raises an error of class [Exception]
    does not end the response. When the arguments of every invocation
    decode and are preprocessed, and the tool calls return or raise errors
    of class [Exception], [process_response] of either service returns a
    text, and for an invocation whose call raised the error [e] that text
    has the inline error marker of the invocation at its place, between
    what the invocations before it and after it left; the invocations
    after it are made in the state the failed call left. In
    both loops the marker is appended and the loop goes on with the
    remaining invocations, whatever these are. But no text is returned when
    the arguments of some invocation do not decode or are refused by the
    preprocessing, which stand outside the [try]: [process_response] then
    ends with that error, also when a call before it had failed and been
    marked, and every error of class [Exception] that ends it is of that
    kind, never one of a tool call. *)
Theorem tool_failure_does_not_abort :
  (forall response m others pre tc post s anns w (h h1 h2 : heap) tool_args
          processed_args w' e anns' s',
     choices response = m :: others ->
     tool_calls m = (pre ++ tc :: post)%list ->
     dispatched call fmt pre s anns (w, h) ->
     json_loads (fn_arguments tc) h = (h1, Returned tool_args) ->
     _preprocess_tool_args (fn_name tc) tool_args h1
     = (h2, Returned processed_args) ->
     call (fn_name tc) h2 processed_args w = (w', Raised e) ->
     is_Exception e = true ->
     dispatched call fmt post (w', h2) anns' s' ->
     openai_process_response call fmt response true s
     = (s', Returned (join nl (content_text m ++ anns
                                 ++ tool_error_text (fn_name tc) e :: anns'))) /\
     exists before after,
       join nl (content_text m ++ anns
                  ++ tool_error_text (fn_name tc) e :: anns')
       = before +:+ (nl +:+ "[调用工具 " +:+ fn_name tc +:+ " 失败: "
                       +:+ exn_str e +:+ "]") +:+ after) /\
  (forall pre name input post s texts w (h h2 : heap) processed_args w' e
          texts' s',
     rendered call rpr pre s texts (w, h) ->
     _preprocess_tool_args name input h = (h2, Returned processed_args) ->
     call name h2 processed_args w = (w', Raised e) ->
     is_Exception e = true ->
     rendered call rpr post (w', h2) texts' s' ->
     anthropic_process_response call rpr (pre ++ ToolUse name input :: post)
       true s
     = (s', Returned (join nl (texts ++ tool_error_text name e :: texts'))) /\
     exists before after,
       join nl (texts ++ tool_error_text name e :: texts')
       = before +:+ (nl +:+ "[调用工具 " +:+ name +:+ " 失败: "
                       +:+ exn_str e +:+ "]") +:+ after) /\
  (forall tc rest final_text w (h h1 h2 : heap) tool_args processed_args w' e,
     json_loads (fn_arguments tc) h = (h1, Returned tool_args) ->
     _preprocess_tool_args (fn_name tc) tool_args h1
     = (h2, Returned processed_args) ->
     call (fn_name tc) h2 processed_args w = (w', Raised e) ->
     is_Exception e = true ->
     openai_tool_calls call fmt (tc :: rest) final_text (w, h)
     = openai_tool_calls call fmt rest
         (final_text ++ [tool_error_text (fn_name tc) e])%list (w', h2)) /\
  (forall name input rest final_text w (h h2 : heap) processed_args w' e,
     _preprocess_tool_args name input h = (h2, Returned processed_args) ->
     call name h2 processed_args w = (w', Raised e) ->
     is_Exception e = true ->
     anthropic_blocks call rpr (ToolUse name input :: rest) final_text (w, h)
     = anthropic_blocks call rpr rest
         (final_text ++ [tool_error_text name e])%list (w', h2)) /\
  (forall response m others pre tc post s anns w1 (h1 h2 : heap) e,
     choices response = m :: others ->
     tool_calls m = (pre ++ tc :: post)%list ->
     dispatched call fmt pre s anns (w1, h1) ->
     (json_loads (fn_arguments tc) h1 = (h2, Raised e) \/
      exists h' tool_args,
        json_loads (fn_arguments tc) h1 = (h', Returned tool_args) /\
        _preprocess_tool_args (fn_name tc) tool_args h' = (h2, Raised e)) ->
     openai_process_response call fmt response true s
     = ((w1, h2), Raised e)) /\
  (forall pre name input post s texts w1 (h1 h2 : heap) e,
     rendered call rpr pre s texts (w1, h1) ->
     _preprocess_tool_args name input h1 = (h2, Raised e) ->
     anthropic_process_response call rpr (pre ++ ToolUse name input :: post)
       true s
     = ((w1, h2), Raised e)) /\
  (forall response session s s' e,
     openai_process_response call fmt response session s = (s', Raised e) ->
     is_Exception e = true ->
     exists m others tc (h h' : heap),
       choices response = m :: others /\ tc ∈ tool_calls m /\
       (json_loads (fn_arguments tc) h = (h', Raised e) \/
        exists tool_args,
          _preprocess_tool_args (fn_name tc) tool_args h = (h', Raised e))) /\
  (forall response session s s' e,
     anthropic_process_response call rpr response session s = (s', Raised e) ->
     is_Exception e = true ->
     exists name input (h h' : heap),
       ToolUse name input ∈ response /\
       _preprocess_tool_args name input h = (h', Raised e)).
Proof.
  split; [|split; [|split; [|split; [|split; [|split; [|split]]]]]].
  - intros response m others pre tc post s anns w h h1 h2 tool_args
      processed_args w' e anns' s' Hm Hcalls Hpre Hloads Hargs Hcall He Hpost.
    split.
    + rewrite app_assoc, <- final_result_join, <- app_assoc.
      apply (openai_process_response_text response m others); [done|].
      rewrite Hcalls. apply (dispatched_app _ _ _ _ _ _ _ Hpre).
      apply (dispatched_cons call fmt tc post w h h1 tool_args h2
               processed_args w' (Raised e) anns' s'); try done.
      by intros e' [= <-].
    + rewrite app_assoc.
      destruct (join_split nl (content_text m ++ anns)
                  (tool_error_text (fn_name tc) e) anns') as [before ->].
      by eexists _, _.
  - intros pre name input post s texts w h h2 processed_args w' e texts' s'
      Hpre Hargs Hcall He Hpost.
    split.
    + rewrite <- final_result_join.
      apply anthropic_process_response_text.
      apply (rendered_app _ _ _ _ _ _ _ Hpre).
      apply (rendered_tool call rpr name input post w h h2 processed_args w'
               (Raised e) texts' s'); try done.
      by intros e' [= <-].
    + destruct (join_split nl texts (tool_error_text name e) texts')
        as [before ->].
      by eexists _, _.
  - intros tc rest ft w h h1 h2 tool_args processed_args w' e
      Hloads Hpre Hcall He.
    simpl. unfold bind at 1.
    rewrite (openai_tool_call_run call fmt tc ft w h h1 h2 tool_args
               processed_args w' (Raised e) Hloads Hpre Hcall); [done|].
    by intros e' [= <-].
  - intros name input rest ft w h h2 processed_args w' e Hpre Hcall He.
    change (anthropic_blocks call rpr (ToolUse name input :: rest) ft (w, h))
      with (bind (anthropic_block call rpr (ToolUse name input) ft)
              (fun ft' => anthropic_blocks call rpr rest ft') (w, h)).
    unfold bind at 1.
    by rewrite (anthropic_tool_use_run call rpr name input ft w h h2
                  processed_args w' e Hpre Hcall He).
  - intros response m others pre tc post s anns w1 h1 h2 e.
    apply openai_process_response_aborts.
  - intros pre name input post s texts w1 h1 h2 e.
    apply anthropic_process_response_aborts.
  - intros response session s s' e. unfold openai_process_response.
    destruct (negb session); [done|]. unfold bind.
    destruct (choices response) as [|m others]; [done|].
    destruct (openai_tool_calls call fmt (tool_calls m) (content_text m) s)
      as [s1 [ft|e1]] eqn:E; [done|].
    intros [= <- <-] He.
    destruct (openai_tool_calls_raises call fmt _ _ _ _ _ E He)
      as (tc & h & h' & Hin & Hc).
    by exists m, others, tc, h, h'.
  - intros response session s s' e. unfold anthropic_process_response.
    destruct (negb session); [done|]. unfold bind.
    destruct (anthropic_blocks call rpr response [] s)
      as [s1 [ft|e1]] eqn:E; [done|].
    intros [= <- <-] He. by eapply anthropic_blocks_raises.
Qed.

(** C8 (as amended): when the arguments of every invocation of a response
    decode and are preprocessed, and the tool calls return or raise errors
    of class [Exception], the invocations are dispatched one after another
    in the order emitted, each in the state its predecessor left, and the
    text returned is the content followed by their annotations in that
    order. For two invocations A and B of which A is emitted first, B is
    called on the server as A and the invocations between them have left
    it, and the text has A's annotation, of its result or of its error,
    strictly before B's. An annotation is a line feed followed, between
    brackets, by the name of the tool and its result or its error. When
    nothing is produced (no choice, or a message without content and
    without invocations) the fixed placeholder is returned. But when the
    arguments of an invocation do not decode or are refused by the
    preprocessing, the response ends with that error: the invocations
    before it have been called, and no text is returned, so none with
    their annotations. *)
Theorem sequential_dispatch :
  (forall response m others s anns s',
     choices response = m :: others ->
     dispatched call fmt (tool_calls m) s anns s' ->
     openai_process_response call fmt response true s
     = (s', Returned (final_result (content_text m ++ anns)))) /\
  (forall response m others before A between B after s anns s',
     choices response = m :: others ->
     tool_calls m = (before ++ A :: between ++ B :: after)%list ->
     dispatched call fmt (tool_calls m) s anns s' ->
     exists anns1 sA rA sA' anns2 sB rB sB' anns3 pre mid post,
       dispatched call fmt before s anns1 sA /\
       invoked call A sA rA sA' /\
       dispatched call fmt between sA' anns2 sB /\
       invoked call B sB rB sB' /\
       dispatched call fmt after sB' anns3 s' /\
       openai_process_response call fmt response true s
       = (s', Returned (pre +:+ annotation fmt (fn_name A) rA +:+ mid
                          +:+ annotation fmt (fn_name B) rB +:+ post))) /\
  (forall name result,
     annotation fmt name (Returned result)
     = nl +:+ "[调用工具 " +:+ name +:+ "，结果: " +:+ fmt result +:+ "]") /\
  (forall name e,
     annotation fmt name (Raised e)
     = nl +:+ "[调用工具 " +:+ name +:+ " 失败: " +:+ exn_str e +:+ "]") /\
  (forall response s,
     choices response = [] \/
     (exists m others, choices response = m :: others /\
                       content_text m = [] /\ tool_calls m = []) ->
     openai_process_response call fmt response true s
     = (s, Returned placeholder_text)) /\
  (forall response m others pre tc post s anns w1 (h1 h2 : heap) e,
     choices response = m :: others ->
     tool_calls m = (pre ++ tc :: post)%list ->
     dispatched call fmt pre s anns (w1, h1) ->
     (json_loads (fn_arguments tc) h1 = (h2, Raised e) \/
      exists h' tool_args,
        json_loads (fn_arguments tc) h1 = (h', Returned tool_args) /\
        _preprocess_tool_args (fn_name tc) tool_args h' = (h2, Raised e)) ->
     openai_process_response call fmt response true s
     = ((w1, h2), Raised e)).
Proof.
  split; [|split; [|split; [|split; [|split]]]].
  - apply openai_process_response_text.
  - intros response m others before A between B after s anns s' Hm Hcalls Hd.
    rewrite (openai_process_response_text response m others s anns s' Hm Hd).
    rewrite Hcalls in Hd.
    apply dispatched_app_inv in Hd as (anns1 & sA & annsA & Hbefore & Hd & ->).
    apply dispatched_cons_inv in Hd as (rA & sA' & annsA' & HA & Hd & ->).
    apply dispatched_app_inv in Hd as (anns2 & sB & annsB & Hbetween & Hd & ->).
    apply dispatched_cons_inv in Hd as (rB & sB' & anns3 & HB & Hafter & ->).
    rewrite app_assoc, final_result_join.
    destruct (join_two nl (content_text m ++ anns1)
                (annotation fmt (fn_name A) rA) anns2
                (annotation fmt (fn_name B) rB) anns3)
      as (pre & mid & post & ->).
    exists anns1, sA, rA, sA', anns2, sB, rB, sB', anns3, pre, mid, post.
    done.
  - done.
  - done.
  - intros response s [Hnone|(m & others & Hm & Hc & Ht)];
      unfold openai_process_response; simpl; unfold bind.
    + by rewrite Hnone.
    + by rewrite Hm, Ht, Hc.
  - intros response m others pre tc post s anns w1 h1 h2 e.
    apply openai_process_response_aborts.
Qed.
End dispatcher_text.

(** ** The agent *)

Lemma listed_iff_registered (hub : McpHub) name :
  name ∈ (map_to_list (connections hub)).*1 <->
  is_Some (connections hub !! name).
Proof.
  rewrite list_elem_of_fmap. split.
  - intros ([k c] & -> & Hin). apply elem_of_map_to_list in Hin.
    by exists c.
  - intros [c Hc]. exists (name, c). split; [done|].
    by apply elem_of_map_to_list.
Qed.

Lemma status_text_offers_signing ro key :
  str_contains "我可以直接帮你处理" (status_text ro key) = negb ro && key.
Proof. destruct ro, key; vm_compute; reflexivity. Qed.

Lemma status_text_read_only ro key :
  str_contains "**只读模式**" (status_text ro key) = ro.
Proof. destruct ro, key; vm_compute; reflexivity. Qed.

(** X15: The status answer offers to handle transactions directly only when the
    configuration sets READ_ONLY_MODE to something that does not lowercase
    to [true] and holds a private key that is not blank; it announces the
    read-only mode exactly when READ_ONLY_MODE is missing or lowercases to
    [true]. *)
Theorem status_offers_signing (hub : McpHub) server_name connection :
  connections hub !! server_name = Some connection ->
  let env := cfg_env (conn_config connection) in
  (str_contains "我可以直接帮你处理" (check_server_status hub server_name) = true
   <-> (exists v, dict_get "READ_ONLY_MODE" env = Some v /\
                  str_lower v <> "true") /\
       (exists k, dict_get "APTOS_PRIVATE_KEY" env = Some k /\
                  str_strip k <> "")) /\
  (str_contains "**只读模式**" (check_server_status hub server_name) = true
   <-> dict_get "READ_ONLY_MODE" env = None \/
       exists v, dict_get "READ_ONLY_MODE" env = Some v /\
                 str_lower v = "true").
Proof.
  intros Hc env. unfold check_server_status. rewrite Hc. fold env.
  rewrite status_text_offers_signing, status_text_read_only.
  unfold read_only_mode, has_private_key. split.
  - rewrite andb_true_iff, !negb_true_iff.
    destruct (dict_get "READ_ONLY_MODE" env) as [v|];
      destruct (dict_get "APTOS_PRIVATE_KEY" env) as [k|]; simpl.
    + rewrite !String.eqb_neq. split.
      * intros [Hv Hk]. split; [by exists v|by exists k].
      * intros [(v' & [= <-] & Hv) (k' & [= <-] & Hk)]. done.
    + split; [intros [_ Hk]; by vm_compute in Hk|].
      intros [_ (k' & Hk & _)]. done.
    + split; [intros [Hv _]; by vm_compute in Hv|].
      intros [(v' & Hv & _) _]. done.
    + split; [intros [Hv _]; by vm_compute in Hv|].
      intros [(v' & Hv & _) _]. done.
  - destruct (dict_get "READ_ONLY_MODE" env) as [v|]; simpl.
    + rewrite String.eqb_eq. split.
      * intros Hv. right. by exists v.
      * intros [?|(v' & [= <-] & Hv)]; done.
    + split; [by left|done].
Qed.

Section agent_facts.
Context {world response : Type}.
Variable session_truthy : session_obj -> bool.
Variable session_list_tools :
  session_obj -> world -> world * outcome (option (list ToolDescriptor)).
Variable generate_response :
  string -> list function_spec -> world -> world * outcome response.
Variable process_response :
  response -> string -> bool -> ST (world * heap) string.

Abbreviation run_query :=
  (process_query session_truthy session_list_tools generate_response
     process_response).

Lemma process_query_listed (hub : McpHub) query server_name s :
  is_Some (connections hub !! default default_server_name server_name) ->
  run_query hub query server_name s
  = try_except
      (if is_status_query query
       then ret (check_server_status hub
                   (default default_server_name server_name))
       else
         connection <-
           read_hub hub
             (lookup_connection (default default_server_name server_name)) ;;
         match connection with
         | None => raise (Exception "'NoneType' object has no attribute 'get'")
         | Some connection =>
             let session := conn_session connection in
             if negb (session_truthy session) then ret no_session_text
             else
               tools_response <- outside (session_list_tools session) ;;
               match tools_response with
               | None | Some [] => ret no_tools_text
               | Some tools =>
                   match map function_of_tool tools with
                   | [] => ret no_functions_text
                   | functions =>
                       response <-
                         outside (generate_response query functions) ;;
                       process_response response
                         (default default_server_name server_name)
                         (session_truthy session)
                   end
               end
         end)
      is_Exception
      (fun e => ret (query_error_text e)) s.
Proof.
  intros Hreg. unfold process_query. unfold bind at 1.
  unfold read_hub at 1, get_all_servers, gets. simpl.
  apply listed_iff_registered in Hreg.
  by rewrite (bool_decide_eq_true_2 _ Hreg).
Qed.

(** X16: Two kinds of query are answered without any request, to the tool
    server or to the AI service: a query for a server that is not
    registered gets the fixed not-connected text (an omitted name is the
    default server), and a status question for a registered server gets
    the status text read from its stored configuration. The state is left
    as it is. *)
Theorem process_query_without_requests (hub : McpHub) query server_name s :
  let name := default default_server_name server_name in
  (connections hub !! name = None ->
   run_query hub query server_name s = (s, Returned (not_connected_text name)))
  /\
  (is_Some (connections hub !! name) ->
   is_status_query query = true ->
   run_query hub query server_name s
   = (s, Returned (check_server_status hub name))).
Proof.
  intros name. split.
  - intros Hnone. unfold process_query. unfold bind at 1.
    unfold read_hub at 1, get_all_servers, gets. simpl. fold name.
    rewrite bool_decide_eq_false_2; [done|].
    rewrite listed_iff_registered, Hnone. by intros [? ?].
  - intros Hreg Hq. rewrite process_query_listed by done.
    unfold try_except. by rewrite Hq.
Qed.

(** X17: No error of the class [Exception] leaves [process_query]: what is
    raised while the tools are listed, the response is generated or the
    response is processed comes back as a text that carries the message of
    the error. When listing the tools fails or gives no tool the AI service
    is not asked, and when generating the response fails no tool is
    called. *)
Theorem process_query_reports_errors (hub : McpHub) query server_name
    connection :
  let name := default default_server_name server_name in
  let session := conn_session connection in
  connections hub !! name = Some connection ->
  (forall s s' e,
     run_query hub query server_name s = (s', Raised e) ->
     is_Exception e = false) /\
  (is_status_query query = false -> session_truthy session = true ->
   (forall w h w' e,
      session_list_tools session w = (w', Raised e) ->
      is_Exception e = true ->
      run_query hub query server_name (w, h)
      = ((w', h), Returned (query_error_text e))) /\
   (forall w h w' tools,
      session_list_tools session w = (w', Returned tools) ->
      tools = None \/ tools = Some [] ->
      run_query hub query server_name (w, h)
      = ((w', h), Returned no_tools_text)) /\
   (forall w h w1 tool tools w2 e,
      session_list_tools session w = (w1, Returned (Some (tool :: tools))) ->
      generate_response query (map function_of_tool (tool :: tools)) w1
      = (w2, Raised e) ->
      is_Exception e = true ->
      run_query hub query server_name (w, h)
      = ((w2, h), Returned (query_error_text e))) /\
   (forall w h w1 tool tools w2 r s' e,
      session_list_tools session w = (w1, Returned (Some (tool :: tools))) ->
      generate_response query (map function_of_tool (tool :: tools)) w1
      = (w2, Returned r) ->
      process_response r name true (w2, h) = (s', Raised e) ->
      is_Exception e = true ->
      run_query hub query server_name (w, h)
      = (s', Returned (query_error_text e)))).
Proof.
  intros name session Hc.
  assert (is_Some (connections hub !! name)) as Hreg by by exists connection.
  split.
  - intros s s' e. rewrite process_query_listed by done.
    unfold try_except.
    match goal with |- context [match ?b s with _ => _ end] =>
      destruct (b s) as [s1 [a|e1]]; [done|] end.
    destruct (is_Exception e1) eqn:E1; [done|]. by intros [= <- <-].
  - intros Hq Hs.
    assert (forall w h,
              run_query hub query server_name (w, h)
              = try_except
                  (tools_response <- outside (session_list_tools session) ;;
                   match tools_response with
                   | None | Some [] => ret no_tools_text
                   | Some tools =>
                       match map function_of_tool tools with
                       | [] => ret no_functions_text
                       | functions =>
                           response <-
                             outside (generate_response query functions) ;;
                           process_response response name
                             (session_truthy session)
                       end
                   end)
                  is_Exception (fun e => ret (query_error_text e)) (w, h))
      as Hrun.
    { intros w h. rewrite process_query_listed by done. fold name.
      unfold try_except. rewrite Hq. unfold bind at 1.
      unfold read_hub, lookup_connection, gets. simpl. rewrite Hc.
      fold session. by rewrite Hs. }
    split; [|split; [|split]].
    + intros w h w' e Hl He. rewrite Hrun.
      unfold try_except, bind, outside. simpl. rewrite Hl. by rewrite He.
    + intros w h w' tools Hl Ht. rewrite Hrun.
      unfold try_except, bind, outside. simpl. rewrite Hl.
      by destruct Ht as [-> | ->].
    + intros w h w1 tool tools w2 e Hl Hg He. rewrite Hrun.
      unfold try_except, bind, outside. simpl. rewrite Hl. simpl.
      simpl in Hg. rewrite Hg. by rewrite He.
    + intros w h w1 tool tools w2 r s' e Hl Hg Hp He. rewrite Hrun.
      unfold try_except, bind, outside. simpl. rewrite Hl. simpl.
      simpl in Hg. rewrite Hg. rewrite Hs. rewrite Hp. by rewrite He.
Qed.
End agent_facts.

(** ** The service factory *)

Lemma str_lower_openai_nonempty v : str_lower v = "openai" -> v <> "".
Proof. by intros Hv ->. Qed.

Section service_factory_facts.
Variable py_lower : string -> string.

(** On a string of ASCII characters [lower] is the lowering of the letters
    [A] to [Z]. *)
Hypothesis py_lower_ascii :
  forall s, is_ascii_str s = true -> py_lower s = str_lower s.

(** X18: The name of the service is matched in lower case when it is taken from
    the environment variable AI_SERVICE and letter by letter when it is
    passed as an argument; an empty argument counts as none. As [main]
    reads the variable and passes its value as the argument, a value such
    as [OpenAI] selects the OpenAI service through the factory alone and
    is refused through [main]. *)
Theorem create_service_names :
  (forall env,
     create_service py_lower (Some "") env = create_service py_lower None env)
  /\
  create_service py_lower None None = Returned OpenAIService /\
  (forall v,
     is_ascii_str v = true -> str_lower v = "openai" ->
     create_service py_lower None (Some v) = Returned OpenAIService) /\
  (forall v,
     is_ascii_str v = true ->
     str_lower v = "anthropic" \/ str_lower v = "claude" ->
     create_service py_lower None (Some v) = Returned AnthropicService) /\
  (forall s env k,
     s <> "" -> create_service py_lower (Some s) env = Returned k ->
     s = "openai" /\ k = OpenAIService \/
     (s = "anthropic" \/ s = "claude") /\ k = AnthropicService) /\
  (forall v, str_lower v = "openai" -> v <> "openai" ->
             main_service py_lower (Some v)
             = Raised (Exception ("不支持的AI服务类型: " +:+ v))).
Proof.
  split; [done|]. split; [|split; [|split; [|split]]].
  - unfold create_service. simpl. by rewrite py_lower_ascii.
  - intros v Ha Hv. unfold create_service. simpl.
    by rewrite py_lower_ascii, Hv.
  - intros v Ha [Hv|Hv]; unfold create_service; simpl;
      by rewrite py_lower_ascii, Hv.
  - intros s env k Hs. unfold create_service.
    apply String.eqb_neq in Hs. rewrite Hs.
    destruct (String.eqb s "openai") eqn:E1.
    { apply String.eqb_eq in E1. intros [= <-]. by left. }
    destruct (String.eqb s "anthropic") eqn:E2.
    { apply String.eqb_eq in E2. intros [= <-]. right. split; [by left|done]. }
    destruct (String.eqb s "claude") eqn:E3; [|done].
    apply String.eqb_eq in E3. intros [= <-]. right. split; [by right|done].
  - intros v Hv Hne. unfold main_service, create_service. simpl.
    assert (String.eqb v "" = false) as ->.
    { apply String.eqb_neq. by apply str_lower_openai_nonempty. }
    assert (String.eqb v "openai" = false) as -> by by apply String.eqb_neq.
    assert (String.eqb v "anthropic" = false) as ->.
    { apply String.eqb_neq. intros ->. done. }
    assert (String.eqb v "claude" = false) as ->.
    { apply String.eqb_neq. intros ->. done. }
    done.
Qed.
End service_factory_facts.

(** ** The configuration module *)

Section config_facts.
Context {fs : Type}.
Variable read_file : fs -> config_file.
Variable write_file : gmap string value -> fs -> fs * outcome unit.

Abbreviation proc := (@process fs).

Lemma override_plain (config : gmap string value) env_var key (st : proc) :
  key <> "read_only" ->
  override_from_env config (env_var, key) st
  = (st, Returned (match environ st !! env_var with
                   | Some text => <[key := VStr text]> config
                   | None => config
                   end)).
Proof.
  intros Hk. unfold override_from_env, bind, gets. simpl.
  apply String.eqb_neq in Hk. rewrite Hk.
  by destruct (environ st !! env_var).
Qed.

Lemma override_read_only (config : gmap string value) env_var current
    (st : proc) :
  config !! "read_only" = Some current ->
  override_from_env config (env_var, "read_only") st
  = (st, Returned (match environ st !! env_var with
                   | Some text =>
                       match current with
                       | VBool _ =>
                           <["read_only" :=
                               VBool (String.eqb (str_lower text) "true")]>
                             config
                       | _ => <["read_only" := VStr text]> config
                       end
                   | None => config
                   end)).
Proof.
  intros Hc. unfold override_from_env, bind, gets, config_item. simpl.
  destruct (environ st !! env_var); [|done]. rewrite Hc.
  by destruct current.
Qed.

Lemma file_step (st : proc) :
  try_except
    (file <- gets (fun st : proc => read_file (files st)) ;;
     match file with
     | FileMissing => ret DEFAULT_CONFIG
     | FileUnreadable msg => raise (Exception msg)
     | FileObject file_config => ret (file_config ∪ DEFAULT_CONFIG)
     end)
    is_Exception (fun _ => ret DEFAULT_CONFIG) st
  = (st, Returned (file_entries read_file st ∪ DEFAULT_CONFIG)).
Proof.
  unfold try_except, bind, gets, file_entries, ret, raise.
  destruct (read_file (files st)); simpl; by rewrite ?(left_id_L ∅ (∪)).
Qed.

Lemma default_lookup (file : gmap string value) key v :
  DEFAULT_CONFIG !! key = Some v ->
  (file ∪ DEFAULT_CONFIG) !! key = Some (default v (file !! key)).
Proof.
  intros Hd. rewrite lookup_union, Hd. by destruct (file !! key).
Qed.

(** A first [load_config] returns and caches a configuration in which the
    four keys of [env_mapping] come from the environment when the variable
    is set, and every key otherwise comes from the file when it has the
    key and from the defaults when not. *)
Lemma load_config_fresh (st : proc) :
  _config st = None ->
  let file := file_entries read_file st in
  let env := environ st in
  let from_env env_var key fallback :=
    match env !! env_var with
    | Some text => VStr text
    | None => default fallback (file !! key)
    end in
  exists config,
    load_config read_file st = (set_config config st, Returned config) /\
    config !! "network"
    = Some (from_env "APTOS_NETWORK" "network" (VStr "mainnet")) /\
    config !! "node_url"
    = Some (from_env "APTOS_NODE_URL" "node_url"
              (VStr "https://fullnode.mainnet.aptoslabs.com/v1")) /\
    config !! "server_path"
    = Some (from_env "MOVEFLOW_SERVER_PATH" "server_path"
              (VStr "D:/projects/AI/mcp/moveflow_aptos_mcp/moveflow_aptos_mcp_server/build/index.js")) /\
    config !! "read_only"
    = Some (let v := default (VBool true) (file !! "read_only") in
            match env !! "MOVEFLOW_READ_ONLY" with
            | Some text =>
                match v with
                | VBool _ => VBool (String.eqb (str_lower text) "true")
                | _ => VStr text
                end
            | None => v
            end) /\
    forall key,
      key <> "network" -> key <> "node_url" -> key <> "server_path" ->
      key <> "read_only" ->
      config !! key = (file ∪ DEFAULT_CONFIG) !! key.
Proof.
  intros Hnone file env from_env.
  unfold load_config. unfold bind at 1. unfold gets at 1. rewrite Hnone.
  rewrite (bind_run _ _ _ _ _ (file_step st)). fold file.
  set (base := file ∪ DEFAULT_CONFIG).
  assert (base !! "read_only"
          = Some (default (VBool true) (file !! "read_only"))) as Hro
      by by apply default_lookup.
  unfold bind at 1. cbn [env_mapping override_all].
  rewrite (bind_run _ _ _ _ _
             (override_plain base "APTOS_NETWORK" "network" st
                ltac:(done))).
  set (config1 := match environ st !! "APTOS_NETWORK" with
                  | Some text => <["network" := VStr text]> base
                  | None => base
                  end).
  rewrite (bind_run _ _ _ _ _
             (override_plain config1 "APTOS_NODE_URL" "node_url" st
                ltac:(done))).
  set (config2 := match environ st !! "APTOS_NODE_URL" with
                  | Some text => <["node_url" := VStr text]> config1
                  | None => config1
                  end).
  assert (config2 !! "read_only"
          = Some (default (VBool true) (file !! "read_only"))) as Hro2.
  { unfold config2, config1.
    destruct (environ st !! "APTOS_NODE_URL"),
      (environ st !! "APTOS_NETWORK");
      rewrite ?lookup_insert_ne by done; exact Hro. }
  rewrite (bind_run _ _ _ _ _
             (override_read_only config2 "MOVEFLOW_READ_ONLY" _ st Hro2)).
  rewrite (bind_run _ _ _ _ _
             (override_plain _ "MOVEFLOW_SERVER_PATH" "server_path" st
                ltac:(done))).
  unfold config2, config1.
  unfold bind, ret, modify. simpl.
  eexists. split; [reflexivity|].
  unfold from_env, env.
  assert (base !! "network" = Some (default (VStr "mainnet") (file !! "network")))
    as Hn by by apply default_lookup.
  assert (base !! "node_url"
          = Some (default (VStr "https://fullnode.mainnet.aptoslabs.com/v1")
                    (file !! "node_url"))) as Hu by by apply default_lookup.
  assert (base !! "server_path"
          = Some (default (VStr "D:/projects/AI/mcp/moveflow_aptos_mcp/moveflow_aptos_mcp_server/build/index.js")
                    (file !! "server_path"))) as Hp by by apply default_lookup.
  destruct (environ st !! "APTOS_NETWORK"),
    (environ st !! "APTOS_NODE_URL"),
    (environ st !! "MOVEFLOW_READ_ONLY"),
    (environ st !! "MOVEFLOW_SERVER_PATH");
    destruct (default (VBool true) (file !! "read_only"));
    (split; [|split; [|split; [|split]]]);
    try (intros key H1 H2 H3 H4);
    rewrite ?lookup_insert_eq;
    repeat (rewrite lookup_insert_ne by done; rewrite ?lookup_insert_eq);
    done.
Qed.

Lemma load_config_cached (st : proc) config :
  _config st = Some config ->
  load_config read_file st = (st, Returned config).
Proof.
  intros Hc. unfold load_config, bind, gets. by rewrite Hc.
Qed.

Lemma getter_fresh (st : proc) key v config :
  load_config read_file st = (set_config config st, Returned config) ->
  config !! key = Some v ->
  (bind (load_config read_file)
     (fun config => config_item key config) st).2 = Returned v.
Proof.
  intros Hl Hk. unfold bind. rewrite Hl. unfold config_item. by rewrite Hk.
Qed.

(** X19: The priority of the sources, for a process that has not loaded the
    configuration yet and a file that is missing, unreadable or holds a
    JSON object. The network, the node URL and the server path are the
    text of their environment variable when it is set, else the file's
    entry, else the default. MOVEFLOW_READ_ONLY is read as a boolean (true
    exactly when it lowercases to [true]) when the file leaves a boolean
    there, and is stored as the raw text when the file put something else
    there. The server type and server configuration never come from the
    environment. No getter raises. *)
Theorem config_priority (st : proc) :
  _config st = None ->
  let file := file_entries read_file st in
  let env := environ st in
  let from_env env_var key fallback :=
    match env !! env_var with
    | Some text => VStr text
    | None => default fallback (file !! key)
    end in
  (get_network read_file st).2
  = Returned (from_env "APTOS_NETWORK" "network" (VStr "mainnet")) /\
  (get_node_url read_file st).2
  = Returned (from_env "APTOS_NODE_URL" "node_url"
                (VStr "https://fullnode.mainnet.aptoslabs.com/v1")) /\
  (get_server_path read_file st).2
  = Returned (from_env "MOVEFLOW_SERVER_PATH" "server_path"
                (VStr "D:/projects/AI/mcp/moveflow_aptos_mcp/moveflow_aptos_mcp_server/build/index.js")) /\
  (get_read_only read_file st).2
  = Returned (let v := default (VBool true) (file !! "read_only") in
              match env !! "MOVEFLOW_READ_ONLY" with
              | Some text =>
                  match v with
                  | VBool _ => VBool (String.eqb (str_lower text) "true")
                  | _ => VStr text
                  end
              | None => v
              end) /\
  (get_server_type read_file st).2
  = Returned (default (VStr "stdio") (file !! "server_type")) /\
  exists server_config,
    DEFAULT_CONFIG !! "server_config" = Some server_config /\
    (get_server_config read_file st).2
    = Returned (default server_config (file !! "server_config")).
Proof.
  intros Hnone file env from_env.
  destruct (load_config_fresh st Hnone)
    as (config & Hl & Hn & Hu & Hp & Hro & Hother).
  split; [by apply (getter_fresh st _ _ config)|].
  split; [by apply (getter_fresh st _ _ config)|].
  split; [by apply (getter_fresh st _ _ config)|].
  split; [by apply (getter_fresh st _ _ config)|].
  split.
  - apply (getter_fresh st _ _ config Hl).
    rewrite Hother by done. by apply default_lookup.
  - eexists. split; [reflexivity|].
    apply (getter_fresh st _ _ config Hl).
    rewrite Hother by done. by apply default_lookup.
Qed.

Lemma load_config_returns (st : proc) :
  exists config,
    load_config read_file st = (set_config config st, Returned config) /\
    (forall cached, _config st = Some cached -> config = cached).
Proof.
  destruct (_config st) as [cached|] eqn:Hc.
  - exists cached. split; [|by intros ? [= <-]].
    rewrite (load_config_cached st cached Hc).
    destruct st as [c e f]. simpl in Hc. by subst c.
  - destruct (load_config_fresh st Hc) as (config & Hl & _).
    exists config. split; [done|]. intros cached Hcached. congruence.
Qed.

(** X20: [update_config] changes the configuration of the process whether or
    not the file can be written: the cached configuration gets the new
    value for the key, the whole configuration (with what came from the
    environment) is what is handed to the file, the outcome of the write is
    the outcome of the call, and from then on [load_config] and the getters
    answer from the cache whatever the environment and the file become.
    [set_server_config] does the same for the server type and the server
    configuration. *)
Theorem update_config_round_trip (st : proc) key v :
  exists config,
    (load_config read_file st).2 = Returned config /\
    let config' := <[key := v]> config in
    let after := update_config read_file write_file key v st in
    _config after.1 = Some config' /\
    environ after.1 = environ st /\
    files after.1 = (write_file config' (files st)).1 /\
    after.2 = (write_file config' (files st)).2 /\
    (forall st2 : proc,
       _config st2 = _config after.1 ->
       load_config read_file st2 = (st2, Returned config') /\
       (bind (load_config read_file) (config_item key) st2).2 = Returned v) /\
    (forall config_type server_config (st2 : proc),
       _config st2
       = _config (set_server_config read_file write_file config_type
                    server_config st).1 ->
       (get_server_type read_file st2).2 = Returned config_type /\
       (get_server_config read_file st2).2 = Returned server_config).
Proof.
  destruct (load_config_returns st) as (config & Hl & _).
  exists config. split; [by rewrite Hl|].
  intros config' after.
  assert (after = (let '(files', r) := write_file config' (files st) in
                   ({| _config := Some config'; environ := environ st;
                       files := files' |}, r))) as Hafter.
  { unfold after, update_config. unfold bind at 1. rewrite Hl.
    unfold save_config, bind, modify, set_config. simpl. reflexivity. }
  destruct (write_file config' (files st)) as [files' r] eqn:Hw.
  rewrite Hafter. simpl.
  split; [done|]. split; [done|]. split; [done|]. split; [done|]. split.
  - intros st2 Hst2. split; [by apply load_config_cached|].
    unfold bind. rewrite (load_config_cached st2 config' Hst2).
    unfold config_item, config'. by rewrite lookup_insert_eq.
  - intros config_type server_config st2 Hst2.
    assert (_config st2
            = Some (<["server_config" := server_config]>
                      (<["server_type" := config_type]> config))) as Hc.
    { rewrite Hst2. unfold set_server_config. unfold bind at 1. rewrite Hl.
      unfold save_config, bind, modify, set_config. simpl.
      match goal with |- context [write_file ?c ?f] =>
        by destruct (write_file c f) end. }
    unfold get_server_type, get_server_config, bind.
    rewrite (load_config_cached st2 _ Hc). unfold config_item.
    rewrite lookup_insert_ne by done. by rewrite !lookup_insert_eq.
Qed.
End config_facts.

(** ** The client: the transaction identifier *)

Lemma search_tx_id_unfold text :
  search_tx_id text
  = match match_tx_id text with
    | Some tx_id => Some tx_id
    | None =>
        match text with
        | String _ text' => search_tx_id text'
        | EmptyString => None
        end
    end.
Proof. by destruct text. Qed.

Lemma prefix_split p s :
  String.prefix p s = true -> s = p +:+ str_drop (String.length p) s.
Proof.
  revert s. induction p as [|a p IH]; intros s Hp.
  - by destruct s.
  - destruct s as [|b s]; [done|]. simpl in Hp.
    destruct (ascii_dec a b) as [->|]; [|done].
    change (String b s = String b (p +:+ str_drop (String.length p) s)).
    by rewrite <- IH.
Qed.

Lemma take_word_split s :
  exists after,
    s = take_word s +:+ after /\
    forallb is_word_char (String.list_ascii_of_string (take_word s)) = true /\
    match after with
    | String c _ => is_word_char c = false
    | EmptyString => True
    end.
Proof.
  induction s as [|c s (after & Hs & Hw & Ha)]; simpl.
  - by exists "".
  - destruct (is_word_char c) eqn:Hc.
    + exists after. split; [|split; [|done]].
      * change (String c s = String c (take_word s +:+ after)).
        by rewrite <- Hs.
      * simpl. by rewrite Hc, Hw.
    + exists (String c s). by repeat split.
Qed.

Lemma match_tx_id_sound text tx_id :
  match_tx_id text = Some tx_id ->
  tx_id <> "" /\
  forallb is_word_char (String.list_ascii_of_string tx_id) = true /\
  exists after,
    text = "transactionId: " +:+ tx_id +:+ after /\
    match after with
    | String c _ => is_word_char c = false
    | EmptyString => True
    end.
Proof.
  unfold match_tx_id.
  destruct (String.prefix "transactionId: " text) eqn:Hp; [|done].
  apply prefix_split in Hp.
  destruct (take_word_split (str_drop (String.length "transactionId: ") text))
    as (after & Hs & Hw & Ha).
  destruct (take_word (str_drop (String.length "transactionId: ") text))
    as [|c w] eqn:Hword; [done|].
  intros [= <-]. split; [done|]. split; [done|].
  exists after. split; [|done]. rewrite Hp at 1. by rewrite Hs at 1.
Qed.

(** X21: The identifier that [re.search] with the pattern
    [transactionId: ([a-zA-Z0-9_]+)] finds in a text is a run of letters,
    digits and underscores that is not empty, stands in the text right
    after [transactionId: ] (one space) and is not followed by another such
    character; and an identifier is found whenever the text holds
    [transactionId: ] followed by such a character. *)
Theorem search_tx_id_finds_the_pattern text :
  (forall tx_id,
     search_tx_id text = Some tx_id ->
     tx_id <> "" /\
     forallb is_word_char (String.list_ascii_of_string tx_id) = true /\
     exists before after,
       text = before +:+ "transactionId: " +:+ tx_id +:+ after /\
       match after with
       | String c _ => is_word_char c = false
       | EmptyString => True
       end) /\
  (forall before c after,
     text = before +:+ "transactionId: " +:+ String c after ->
     is_word_char c = true ->
     exists tx_id, search_tx_id text = Some tx_id).
Proof.
  split.
  - induction text as [|a text IH]; intros tx_id; rewrite search_tx_id_unfold.
    + done.
    + destruct (match_tx_id (String a text)) as [found|] eqn:Hm.
      * intros [= <-].
        destruct (match_tx_id_sound _ _ Hm) as (Hne & Hw & after & Ht & Ha).
        split; [done|]. split; [done|]. by exists "", after.
      * intros Hs. destruct (IH _ Hs) as (Hne & Hw & before & after & Ht & Ha).
        split; [done|]. split; [done|].
        exists (String a before), after. split; [|done].
        change (String a text
                = String a (before +:+ "transactionId: " +:+ tx_id +:+ after)).
        by rewrite <- Ht.
  - intros before. revert text.
    induction before as [|a before IH]; intros text c after Ht Hc;
      rewrite search_tx_id_unfold.
    + assert (match_tx_id text = Some (String c (take_word after))) as ->.
      { rewrite Ht. unfold match_tx_id. simpl. by rewrite Hc. }
      by eexists.
    + destruct (match_tx_id text) as [found|]; [by eexists|].
      rewrite Ht.
      change ((String a before) +:+ "transactionId: " +:+ String c after)
        with (String a (before +:+ "transactionId: " +:+ String c after)).
      by apply (IH _ c after).
Qed.

(** ** The client: tool calls and prepared transactions *)

Section client_facts.
Context {world : Type}.
Variable call : string -> value -> ST world value.
Variable get_data : string -> ST world value.
Variable sign : value -> ST world value.
Variable pstr : value -> string.

(** X22: [_handle_tool_call] always hands out a response in the standard form,
    a dict whose [content] is a list: a result that has this form is
    returned as it is, every other result is wrapped as one text item that
    holds [str] of the result, or a fixed text when the result is [None].
    An error of the call is not caught. *)
Theorem handle_tool_call_is_standard tool_name params w :
  match call tool_name params w with
  | (w', Returned result) =>
      exists out,
        MoveFlowClient._handle_tool_call call pstr tool_name params w
        = (w', Returned out) /\
        is_standard out = true /\
        (is_standard result = true -> out = result) /\
        (is_standard result = false ->
         exists text,
           out = VDict [("content",
                         VList [VDict [("type", VStr "text");
                                       ("text", VStr text)]])] /\
           (result = VNone -> text = "操作完成，但无返回结果") /\
           (result <> VNone -> text = pstr result))
  | (w', Raised e) =>
      MoveFlowClient._handle_tool_call call pstr tool_name params w
      = (w', Raised e)
  end.
Proof.
  unfold MoveFlowClient._handle_tool_call, bind.
  destruct (call tool_name params w) as [w' [result|e]]; [|done].
  destruct (is_standard result) eqn:Hs.
  - exists result. by repeat split.
  - eexists. split; [reflexivity|]. split; [done|]. split; [done|].
    intros _. eexists. split; [reflexivity|].
    split; [by intros ->|]. intros Hr. by destruct result.
Qed.

Abbreviation handle :=
  (MoveFlowClient._handle_transaction_preparation call get_data sign).

Abbreviation items_loop := (MoveFlowClient.prepare_items call get_data sign).

Lemma item_text_get item text :
  item_text item = Some text ->
  value_get "text" (VStr "") item = Returned (VStr text).
Proof.
  destruct item as [| | | | | |fields]; try done. simpl.
  destruct (dict_get "text" fields) as [[| | | |s| |]|]; try done;
    by intros [= <-].
Qed.

Lemma prepare_items_step item rest response text w :
  item_text item = Some text ->
  items_loop (item :: rest) response w
  = match announced text with
    | Some tx_id =>
        (tx_data <- get_data tx_id ;;
         if value_truthy tx_data then
           signature <- sign tx_data ;;
           MoveFlowClient.submit_signed_transaction call tx_id signature
         else items_loop rest response) w
    | None => items_loop rest response w
    end.
Proof.
  intros Ht. apply item_text_get in Ht.
  change (items_loop (item :: rest) response w)
    with ((text <- reply (value_get "text" (VStr "") item) ;;
           marked <- reply (value_contains prepared_marker text) ;;
           named <-
             (if marked : bool
              then reply (value_contains "transactionId" text)
              else ret false) ;;
           if marked && named then
             found <- reply (re_search_tx_id text) ;;
             match found with
             | Some tx_id =>
                 tx_data <- get_data tx_id ;;
                 if value_truthy tx_data then
                   signature <- sign tx_data ;;
                   MoveFlowClient.submit_signed_transaction call tx_id
                     signature
                 else items_loop rest response
             | None => items_loop rest response
             end
           else items_loop rest response) w).
  unfold bind at 1, reply at 1. rewrite Ht.
  unfold bind at 1, reply at 1. simpl value_contains.
  unfold announced.
  destruct (str_contains prepared_marker text); simpl.
  - unfold bind at 1, reply at 1.
    destruct (str_contains "transactionId" text); simpl; [|done].
    unfold bind at 1, reply at 1.
    by destruct (search_tx_id text).
  - by unfold bind at 1, ret at 1.
Qed.

Lemma prepare_items_quiet pre rest response w :
  Forall quiet pre ->
  items_loop (pre ++ rest) response w = items_loop rest response w.
Proof.
  induction 1 as [|item pre (text & Ht & Ha) _ IH]; [done|].
  change ((item :: pre) ++ rest)%list with (item :: (pre ++ rest))%list.
  rewrite (prepare_items_step _ _ _ text) by done. by rewrite Ha.
Qed.

Lemma handle_shape fields result_fields items w :
  dict_get "result" fields = Some (VDict result_fields) ->
  dict_get "content" result_fields = Some (VList items) ->
  handle (VDict fields) w = items_loop items (VDict fields) w.
Proof.
  intros Hr Hc. unfold MoveFlowClient._handle_transaction_preparation.
  assert (value_get "result" VNone (VDict fields)
          = Returned (VDict result_fields)) as ->.
  { unfold value_get. by rewrite Hr. }
  assert (value_get "result" (VDict []) (VDict fields)
          = Returned (VDict result_fields)) as ->.
  { unfold value_get. by rewrite Hr. }
  assert (value_get "content" (VList []) (VDict result_fields)
          = Returned (VList items)) as Hcontent.
  { unfold value_get. by rewrite Hc. }
  assert (value_truthy (VDict result_fields) = true) as Htruthy.
  { by destruct result_fields. }
  unfold bind at 1, reply at 1. rewrite Htruthy. simpl negb. cbv iota.
  unfold bind at 1, reply at 1.
  unfold bind at 1, reply at 1. rewrite Hcontent.
  destruct items as [|item items]; [done|].
  simpl value_truthy. simpl negb. cbv iota.
  by unfold bind at 1, reply at 1.
Qed.

Lemma submit_is_call tx_id signature w :
  MoveFlowClient.submit_signed_transaction call tx_id signature w
  = call "submit-signed-transaction"
      (VDict [("transactionId", VStr tx_id);
              ("signedTransaction", signature)]) w.
Proof.
  unfold MoveFlowClient.submit_signed_transaction, try_except.
  destruct (call _ _ w) as [w' [r|e]]; [done|].
  by destruct (is_Exception e).
Qed.

(** X23: [_handle_transaction_preparation] on a response whose [result] holds a
    list [content] of well-formed items. When no item announces a prepared
    transaction the response is returned as it is and nothing is asked or
    signed. Otherwise the first item that announces one decides: its
    transaction data are fetched; when there are data, they are signed and
    the signature is submitted under the announced identifier, once, the
    answer to that being the result, and the items after it are not looked
    at; an error of the signing leaves the function before anything is
    submitted; when there are no data, the loop goes on with the items
    after it. A response without [result], or whose [result] is falsy, is
    returned as it is. *)
Theorem prepared_transaction_is_signed_once fields :
  (forall w,
     value_truthy (default VNone (dict_get "result" fields)) = false ->
     handle (VDict fields) w = (w, Returned (VDict fields))) /\
  (forall result_fields items,
     dict_get "result" fields = Some (VDict result_fields) ->
     dict_get "content" result_fields = Some (VList items) ->
     (forall w,
        Forall quiet items ->
        handle (VDict fields) w = (w, Returned (VDict fields))) /\
     (forall pre item post text tx_id w w1 tx_data,
        items = (pre ++ item :: post)%list ->
        Forall quiet pre ->
        item_text item = Some text ->
        announced text = Some tx_id ->
        get_data tx_id w = (w1, Returned tx_data) ->
        (value_truthy tx_data = true ->
         (forall w2 signature,
            sign tx_data w1 = (w2, Returned signature) ->
            handle (VDict fields) w
            = call "submit-signed-transaction"
                (VDict [("transactionId", VStr tx_id);
                        ("signedTransaction", signature)]) w2) /\
         (forall w2 e,
            sign tx_data w1 = (w2, Raised e) ->
            handle (VDict fields) w = (w2, Raised e))) /\
        (value_truthy tx_data = false ->
         handle (VDict fields) w = items_loop post (VDict fields) w1))).
Proof.
  split.
  - intros w Hf. unfold MoveFlowClient._handle_transaction_preparation.
    unfold bind at 1, reply at 1. simpl.
    destruct (dict_get "result" fields) as [result|]; simpl in *.
    + by rewrite Hf.
    + done.
  - intros result_fields items Hr Hc. split.
    + intros w Hq. rewrite (handle_shape _ _ _ _ Hr Hc).
      rewrite <- (app_nil_r items). by rewrite prepare_items_quiet.
    + intros pre item post text tx_id w w1 tx_data -> Hq Ht Ha Hd.
      rewrite (handle_shape _ _ _ _ Hr Hc).
      rewrite prepare_items_quiet by done.
      rewrite (prepare_items_step _ _ _ text) by done. rewrite Ha.
      rewrite (bind_run _ _ _ _ _ Hd). split.
      * intros Htruthy. rewrite Htruthy. split.
        -- intros w2 signature Hs. rewrite (bind_run _ _ _ _ _ Hs).
           apply submit_is_call.
        -- intros w2 e Hs. unfold bind. by rewrite Hs.
      * intros Hfalsy. by rewrite Hfalsy.
Qed.
End client_facts.

(** ** The signing key *)

Section key_facts.
Context {account : Type}.
Variable load_key : string -> outcome account.

Abbreviation client_keys := (@MoveFlowClient.keys account).

Abbreviation client_ensure :=
  (MoveFlowClient._ensure_account_loaded load_key).

(** X24: The key of the client. An account once loaded is returned again
    without looking at any key. Otherwise a key given to the constructor or
    to [set_private_key] that is not empty is used and the environment is
    not looked at; without one, the variable APTOS_PRIVATE_KEY is used when
    it is set and not empty; and without that the call fails with the
    missing-key error. The account is kept only when loading it works.
    [set_private_key] drops the account, so that the next call loads the
    account of the new key. *)
Theorem client_key_resolution (st : client_keys) env :
  (forall a env',
     MoveFlowClient._account st = Some a ->
     client_ensure env' st = (st, Returned a)) /\
  (MoveFlowClient._account st = None ->
   (forall key,
      MoveFlowClient._private_key st = Some key -> key <> "" ->
      client_ensure env st = client_loaded load_key key st) /\
   (str_truthy (MoveFlowClient._private_key st) = false ->
    (forall key,
       env = Some key -> key <> "" ->
       client_ensure env st = client_loaded load_key key st) /\
    (str_truthy env = false ->
     client_ensure env st
     = (st, Raised (Exception MoveFlowClient.no_key_text))))) /\
  (forall key a env',
     key <> "" -> load_key key = Returned a ->
     (MoveFlowClient.set_private_key (Some key) ;;; client_ensure env') st
     = ({| MoveFlowClient._private_key := Some key;
           MoveFlowClient._account := Some a |}, Returned a)) /\
  (forall a env',
     (client_ensure env st).2 = Returned a ->
     client_ensure env' (client_ensure env st).1
     = ((client_ensure env st).1, Returned a)).
Proof.
  assert (forall (s : client_keys) a env',
            MoveFlowClient._account s = Some a ->
            client_ensure env' s = (s, Returned a)) as Hcached.
  { intros s a env' Ha.
    unfold MoveFlowClient._ensure_account_loaded, bind, gets. by rewrite Ha. }
  assert (forall (s : client_keys) e key,
            MoveFlowClient._account s = None ->
            (if negb (str_truthy (MoveFlowClient._private_key s))
             then e else MoveFlowClient._private_key s) = Some key ->
            key <> "" ->
            client_ensure e s = client_loaded load_key key s) as Hload.
  { intros s e key Hnone Hkey Hne.
    unfold MoveFlowClient._ensure_account_loaded, bind, gets.
    rewrite Hnone. simpl. rewrite Hkey.
    apply String.eqb_neq in Hne. rewrite Hne.
    unfold client_loaded, reply, modify, ret.
    by destruct (load_key key). }
  split; [by apply Hcached|]. split; [|split].
  - intros Hnone. split.
    + intros key Hk Hne. apply Hload; [done| |done].
      rewrite Hk. simpl. apply String.eqb_neq in Hne. by rewrite Hne.
    + intros Hfalsy. split.
      * intros key -> Hne. apply Hload; [done| |done]. by rewrite Hfalsy.
      * intros Henv.
        unfold MoveFlowClient._ensure_account_loaded, bind, gets.
        rewrite Hnone. simpl. rewrite Hfalsy. simpl.
        destruct env as [key|]; [|done]. simpl in Henv.
        apply negb_false_iff in Henv. by rewrite Henv.
  - intros key a env' Hne Hk.
    unfold bind at 1. unfold MoveFlowClient.set_private_key, modify.
    rewrite (Hload _ env' key); [|done| |done].
    + unfold client_loaded. by rewrite Hk.
    + simpl. apply String.eqb_neq in Hne. by rewrite Hne.
  - intros a env' Hr. apply Hcached.
    destruct (MoveFlowClient._account st) as [a0|] eqn:Ha.
    + rewrite (Hcached st a0 env Ha) in Hr |- *. simpl in *. congruence.
    + revert Hr.
      unfold MoveFlowClient._ensure_account_loaded, bind, gets.
      rewrite Ha. simpl.
      destruct (if negb (str_truthy (MoveFlowClient._private_key st))
                then env else MoveFlowClient._private_key st) as [key|];
        [|done].
      destruct (String.eqb key ""); [done|].
      unfold reply, modify, ret.
      destruct (load_key key) as [a1|e]; simpl; [|done].
      by intros [= ->].
Qed.

Abbreviation signer_state := (@AptosSigner.signer account).

Abbreviation signer_ensure := (AptosSigner.ensure_account_loaded load_key).

(** X25: The key of the signer. An account once loaded is returned again, and
    the user is not asked. Otherwise, when APTOS_PRIVATE_KEY is set and not
    empty, the account of that key is loaded and the user is not asked,
    also when the key is refused: the error is raised and there is no
    fallback to the prompt. Only without such a variable the user is asked,
    once; an empty answer fails with the missing-key error, and any other
    answer is loaded as the key. The account is kept only when loading it
    works. *)
Theorem signer_key_resolution (st : signer_state) env typed :
  (forall a,
     AptosSigner._account st = Some a ->
     signer_ensure env typed st = (st, Returned a)) /\
  (AptosSigner._account st = None ->
   (forall key,
      env = Some key -> key <> "" ->
      signer_ensure env typed st
      = match load_key key with
        | Returned a =>
            ({| AptosSigner._account := Some a;
                AptosSigner.prompts := AptosSigner.prompts st |}, Returned a)
        | Raised e => (st, Raised e)
        end) /\
   (str_truthy env = false ->
    let asked :=
      {| AptosSigner._account := None;
         AptosSigner.prompts := S (AptosSigner.prompts st) |} in
    (forall e, typed = Raised e ->
               signer_ensure env typed st = (asked, Raised e)) /\
    (typed = Returned "" ->
     signer_ensure env typed st = (asked, Raised (Exception "未提供私钥"))) /\
    (forall key,
       typed = Returned key -> key <> "" ->
       signer_ensure env typed st
       = match load_key key with
         | Returned a =>
             ({| AptosSigner._account := Some a;
                 AptosSigner.prompts := S (AptosSigner.prompts st) |},
              Returned a)
         | Raised e => (asked, Raised e)
         end))).
Proof.
  split; [|intros Hnone; split].
  - intros a Ha.
    unfold AptosSigner.ensure_account_loaded, bind, gets. by rewrite Ha.
  - intros key -> Hne.
    unfold AptosSigner.ensure_account_loaded, bind, gets. rewrite Hnone.
    simpl. apply String.eqb_neq in Hne. rewrite Hne.
    unfold AptosSigner.load_account_from_key, bind, reply, modify, ret.
    by destruct (load_key key).
  - intros Henv asked.
    assert (signer_ensure env typed st
            = AptosSigner.load_account_interactive load_key typed st) as ->.
    { unfold AptosSigner.ensure_account_loaded, bind, gets. rewrite Hnone.
      unfold AptosSigner.load_account_from_env.
      destruct env as [key|]; [|done]. simpl in Henv.
      apply negb_false_iff in Henv. by rewrite Henv. }
    unfold AptosSigner.load_account_interactive, bind, modify, reply.
    rewrite Hnone. fold asked. split; [|split].
    + by intros e ->.
    + by intros ->.
    + intros key -> Hne. apply String.eqb_neq in Hne. rewrite Hne.
      unfold AptosSigner.load_account_from_key, bind, reply, modify, ret.
      by destruct (load_key key).
Qed.
End key_facts.

(** ** The client: its construction *)

Lemma contains_lookup (h : heap) p field items :
  h !! p = Some (ODict items) ->
  contains p field h
  = (h, Returned (match dict_get field items with
                  | Some _ => true
                  | None => false
                  end)).
Proof. intros Hp. unfold contains, bind, load. by rewrite Hp. Qed.

Lemma getitem_lookup (h : heap) p field items v :
  h !! p = Some (ODict items) -> dict_get field items = Some v ->
  getitem p field h = (h, Returned v).
Proof. intros Hp Hv. unfold getitem, bind, load. by rewrite Hp, Hv. Qed.

Lemma setitem_lookup (h : heap) p field items v :
  h !! p = Some (ODict items) ->
  setitem p field v h
  = (<[p := ODict (dict_set field v items)]> h, Returned tt).
Proof. intros Hp. unfold setitem, bind, load. by rewrite Hp. Qed.

Section construction_facts.
Context `{PyRuntime}.
Variable get_network get_node_url get_read_only : outcome hval.
Variable py_lower : string -> string.
Variable DEFAULT_NPX_PACKAGE : string.

Abbreviation new_client :=
  (MoveFlowClient.__init__ get_network get_node_url get_read_only py_lower
     DEFAULT_NPX_PACKAGE).

Lemma or_else_run x (y : M hval) (h : heap) t v :
  truthy x h = (h, Returned t) -> y h = (h, Returned v) ->
  MoveFlowClient.or_else x y h = (h, Returned (if t then x else v)).
Proof.
  intros Hx Hy. unfold MoveFlowClient.or_else.
  rewrite (bind_run _ _ _ _ _ Hx). by destruct t.
Qed.

(** The three entries written one after the other into a dict of the
    store. *)
Lemma write_entries (h : heap) e env_items n u text :
  h !! e = Some (ODict env_items) ->
  for_each (MoveFlowClient.aptos_entries n u text)
    (fun entry => setitem e (fst entry) (snd entry)) h
  = (<[e := ODict (dict_set "READ_ONLY_MODE" (HStr text)
                     (dict_set "APTOS_NODE_URL" u
                        (dict_set "APTOS_NETWORK" n env_items)))]> h,
     Returned tt).
Proof.
  intros He. assert (e < length h)%nat as Hlt by by eapply lookup_lt_Some.
  unfold MoveFlowClient.aptos_entries. cbn [for_each fst snd].
  rewrite (bind_run _ _ _ _ _ (setitem_lookup h e _ _ _ He)).
  assert (forall (h0 : heap) o, (e < length h0)%nat -> <[e := o]> h0 !! e = Some o)
    as Hsame.
  { intros h0 o Hl. by apply list_lookup_insert_eq. }
  rewrite (bind_run _ _ _ _ _
             (setitem_lookup _ e _ _ _ (Hsame h _ Hlt))).
  rewrite list_insert_insert_eq.
  rewrite (bind_run _ _ _ _ _
             (setitem_lookup _ e _ _ _ (Hsame h _ Hlt))).
  by rewrite list_insert_insert_eq.
Qed.

(** X26: A client made with a server configuration of the caller writes into
    it: the dict under its [env] gets APTOS_NETWORK, APTOS_NODE_URL and
    READ_ONLY_MODE set to the values of the client, over what the caller
    had put there, and keeps its other entries; the configuration itself
    and every other object stay as they were; and the [MCPClient] of the
    new client holds the caller's object, no copy of it. *)
Theorem init_writes_into_the_callers_config (h : heap) a e items env_items
    network node_url read_only private_key npx_package
    given_network given_node_url given_package n0 u0 r0 :
  h !! a = Some (ODict items) ->
  dict_get "env" items = Some (HRef e) ->
  h !! e = Some (ODict env_items) ->
  a <> e ->
  truthy network h = (h, Returned given_network) ->
  truthy node_url h = (h, Returned given_node_url) ->
  truthy npx_package h = (h, Returned given_package) ->
  get_network = Returned n0 ->
  get_node_url = Returned u0 ->
  get_read_only = Returned r0 ->
  exists c h' env',
    new_client (HRef a) network node_url read_only private_key npx_package h
    = (h', Returned c) /\
    MoveFlowClient.server_config c = HRef a /\
    MoveFlowClient.network c = (if given_network then network else n0) /\
    MoveFlowClient.node_url c = (if given_node_url then node_url else u0) /\
    MoveFlowClient.read_only c
    = (if is_none read_only then r0 else read_only) /\
    h' !! a = Some (ODict items) /\
    h' !! e = Some (ODict env') /\
    dict_get "APTOS_NETWORK" env' = Some (MoveFlowClient.network c) /\
    dict_get "APTOS_NODE_URL" env' = Some (MoveFlowClient.node_url c) /\
    dict_get "READ_ONLY_MODE" env'
    = Some (HStr (py_lower (hval_str h (MoveFlowClient.read_only c)))) /\
    (forall k,
       k <> "APTOS_NETWORK" -> k <> "APTOS_NODE_URL" ->
       k <> "READ_ONLY_MODE" ->
       dict_get k env' = dict_get k env_items) /\
    (forall l, (l < length h)%nat -> l <> e -> h' !! l = h !! l).
Proof.
  intros Ha Henv He Hne Hn Hu Hp Hgn Hgu Hgr.
  assert (a < length h)%nat as Hla by by eapply lookup_lt_Some.
  assert (e < length h)%nat as Hle by by eapply lookup_lt_Some.
  set (n := if given_network then network else n0).
  set (u := if given_node_url then node_url else u0).
  set (r := if is_none read_only then r0 else read_only).
  set (text := py_lower (hval_str h r)).
  set (env' := dict_set "READ_ONLY_MODE" (HStr text)
                 (dict_set "APTOS_NODE_URL" u
                    (dict_set "APTOS_NETWORK" n env_items))).
  set (h1 := (h ++ [ODict (MoveFlowClient.aptos_entries n u text)])%list).
  exists {| MoveFlowClient.network := n; MoveFlowClient.node_url := u;
            MoveFlowClient.read_only := r;
            MoveFlowClient.npx_package :=
              if given_package then npx_package
              else HStr DEFAULT_NPX_PACKAGE;
            MoveFlowClient.server_config := HRef a;
            MoveFlowClient.private_key := private_key |},
    (<[e := ODict env']> h1), env'.
  assert (h1 !! e = Some (ODict env_items)) as He1.
  { unfold h1. rewrite lookup_app_l by done. exact He. }
  split.
  - unfold MoveFlowClient.__init__.
    rewrite (bind_run _ _ _ _ _
               (or_else_run network (reply get_network) h given_network n0
                  Hn ltac:(by rewrite Hgn))).
    rewrite (bind_run _ _ _ _ _
               (or_else_run node_url (reply get_node_url) h given_node_url u0
                  Hu ltac:(by rewrite Hgu))).
    assert ((if is_none read_only then reply get_read_only else ret read_only)
              h = (h, Returned r)) as Hr.
    { unfold r. destruct (is_none read_only); [by rewrite Hgr|done]. }
    rewrite (bind_run _ _ _ _ _ Hr).
    rewrite (bind_run _ _ _ _ _
               (or_else_run npx_package (ret (HStr DEFAULT_NPX_PACKAGE)) h
                  given_package (HStr DEFAULT_NPX_PACKAGE) Hp eq_refl)).
    fold n u. cbn [is_none].
    assert ((present <- MoveFlowClient.contains_v (HRef a) "env" ;;
             (if present : bool then ret tt
              else
                env <- alloc (ODict []) ;;
                MoveFlowClient.setitem_v (HRef a) "env" (HRef env)) ;;;
             target <- MoveFlowClient.getitem_v (HRef a) "env" ;;
             env <- MoveFlowClient.update_method target ;;
             text <- str r ;;
             entries <-
               alloc (ODict (MoveFlowClient.aptos_entries n u
                               (py_lower text))) ;;
             for_each (MoveFlowClient.aptos_entries n u (py_lower text))
               (fun entry => setitem env (fst entry) (snd entry)) ;;;
             ret (HRef a)) h
            = (<[e := ODict env']> h1, Returned (HRef a))) as Hcfg.
    { cbn [MoveFlowClient.contains_v MoveFlowClient.getitem_v].
      rewrite (bind_run _ _ _ _ _ (contains_lookup h a "env" items Ha)).
      rewrite Henv. unfold bind at 1, ret at 1.
      rewrite (bind_run _ _ _ _ _
                 (getitem_lookup h a "env" items (HRef e) Ha Henv)).
      assert (MoveFlowClient.update_method (HRef e) h = (h, Returned e)) as Hm.
      { unfold MoveFlowClient.update_method, bind, load. by rewrite He. }
      rewrite (bind_run _ _ _ _ _ Hm).
      unfold bind at 1, str at 1. fold text.
      unfold bind at 1, alloc at 1. fold h1.
      rewrite (bind_run _ _ _ _ _ (write_entries h1 e env_items n u text He1)).
      done. }
    rewrite (bind_run _ _ _ _ _ Hcfg).
    assert (MoveFlowClient.MCPClient_init DEFAULT_NPX_PACKAGE (HRef a)
              (<[e := ODict env']> h1)
            = (<[e := ODict env']> h1, Returned (HRef a))) as Hkept.
    { unfold MoveFlowClient.MCPClient_init.
      assert (truthy (HRef a) (<[e := ODict env']> h1)
              = (<[e := ODict env']> h1, Returned true)) as Ht.
      { unfold truthy, bind, load.
        rewrite list_lookup_insert_ne by done.
        unfold h1. rewrite lookup_app_l by done. rewrite Ha.
        by destruct items. }
      by rewrite (bind_run _ _ _ _ _ Ht). }
    by rewrite (bind_run _ _ _ _ _ Hkept).
  - cbn [MoveFlowClient.server_config MoveFlowClient.network
           MoveFlowClient.node_url MoveFlowClient.read_only].
    split; [done|]. split; [done|]. split; [done|]. split; [done|].
    split.
    { rewrite list_lookup_insert_ne by done.
      unfold h1. by rewrite lookup_app_l. }
    split.
    { apply list_lookup_insert_eq. unfold h1. rewrite length_app. lia. }
    unfold env'. split.
    { rewrite !dict_get_set_ne by done. apply dict_get_set_eq. }
    split.
    { rewrite dict_get_set_ne by done. apply dict_get_set_eq. }
    split.
    { apply dict_get_set_eq. }
    split.
    { intros k K1 K2 K3. by rewrite !dict_get_set_ne. }
    intros l Hl Hle'. rewrite list_lookup_insert_ne by done.
    unfold h1. by rewrite lookup_app_l.
Qed.
End construction_facts.

(** ** Runs of the response loops *)

#[local] Existing Instance sample_runtime.

(** In [get_create_get] the refused [create-stream] leaves its marker in
    the text returned, and the invocation after it is still made: it is
    the server's call number 2. *)
Lemma create_stream_failure_is_annotated :
  openai_process_response sample_call id get_create_get true (0%nat, [])
  = ((3%nat, [ODict []; ODict []; ODict []; ODict []; ODict []; ODict []]),
     Returned
       ("ok" +:+ nl +:+ nl
        +:+ "[调用工具 get-stream，结果: call 0]" +:+ nl +:+ nl
        +:+ "[调用工具 create-stream 失败: insufficient balance]" +:+ nl +:+ nl
        +:+ "[调用工具 get-account，结果: call 2]")).
Proof.
  refine (proj1 (proj1 (tool_failure_does_not_abort sample_call id id)
           get_create_get
           {| content := Some "ok";
              tool_calls :=
                [{| fn_name := "get-stream"; fn_arguments := "{}" |};
                 {| fn_name := "create-stream"; fn_arguments := "{}" |};
                 {| fn_name := "get-account"; fn_arguments := "{}" |}] |} []
           [{| fn_name := "get-stream"; fn_arguments := "{}" |}]
           {| fn_name := "create-stream"; fn_arguments := "{}" |}
           [{| fn_name := "get-account"; fn_arguments := "{}" |}]
           (0%nat, [])
           [annotation id "get-stream" (Returned "call 0")]
           1%nat [ODict []; ODict []] [ODict []; ODict []; ODict []]
           [ODict []; ODict []; ODict []; ODict []]
           (HRef 2%nat) (HRef 3%nat) 2%nat (Exception "insufficient balance")
           [annotation id "get-account" (Returned "call 2")]
           (3%nat, [ODict []; ODict []; ODict []; ODict []; ODict []; ODict []])
           eq_refl eq_refl _ _ _ _ _ _)).
  - apply (dispatched_cons sample_call id
             {| fn_name := "get-stream"; fn_arguments := "{}" |} []
             0%nat [] [ODict []] (HRef 0%nat) [ODict []; ODict []]
             (HRef 1%nat) 1%nat (Returned "call 0"));
      [vm_compute; reflexivity..| |].
    { intros e [=]. }
    apply dispatched_nil.
  - vm_compute. reflexivity.
  - vm_compute. reflexivity.
  - vm_compute. reflexivity.
  - reflexivity.
  - apply (dispatched_cons sample_call id
             {| fn_name := "get-account"; fn_arguments := "{}" |} []
             2%nat [ODict []; ODict []; ODict []; ODict []]
             [ODict []; ODict []; ODict []; ODict []; ODict []]
             (HRef 4%nat)
             [ODict []; ODict []; ODict []; ODict []; ODict []; ODict []]
             (HRef 5%nat) 3%nat (Returned "call 2"));
      [vm_compute; reflexivity..| |].
    { intros e [=]. }
    apply dispatched_nil.
Defined.

(** C7 fails as stated: in [create_then_garbled] the call of the first
    invocation raises an error, and [process_response] does not return a
    text with its marker: the arguments of the second invocation do not
    decode, and that error ends the response after the one call. The
    same on an Anthropic response whose second block asks for a batch with
    a number where the list of amounts should be: the preprocessing raises,
    and no text is returned. *)
Lemma failed_call_then_garbled_arguments :
  sample_call "create-stream" [ODict []; ODict []] (HRef 1%nat) 0%nat
  = (1%nat, Raised (Exception "insufficient balance")) /\
  openai_process_response sample_call id create_then_garbled true (0%nat, [])
  = ((1%nat, [ODict []; ODict []]), Raised (Exception "JSONDecodeError")) /\
  anthropic_process_response sample_call id
    [TextBlock "hi"; ToolUse "create-stream" (HRef 0%nat);
     ToolUse "batch-create-streams" (HRef 1%nat)]
    true (0%nat, [ODict []; ODict [("depositAmounts", HInt 5)]])
  = ((1%nat, [ODict []; ODict [("depositAmounts", HInt 5)];
              ODict []; ODict [("depositAmounts", HInt 5)]]),
     Raised (Exception "'int' object is not iterable")).
Proof. vm_compute. repeat split. Qed.

(** The two invocations of [create_then_get], dispatched in order: the
    text has the marker of the refused [create-stream] before the result
    of [get-stream], which is the server's call number 1. *)
Lemma create_then_get_in_order :
  openai_process_response sample_call id create_then_get true (0%nat, [])
  = ((2%nat, [ODict []; ODict []; ODict []; ODict []]),
     Returned
       ("ok" +:+ nl +:+ nl
        +:+ "[调用工具 create-stream 失败: insufficient balance]" +:+ nl +:+ nl
        +:+ "[调用工具 get-stream，结果: call 1]")).
Proof.
  apply (proj1 (sequential_dispatch sample_call id) create_then_get
           {| content := Some "ok";
              tool_calls :=
                [{| fn_name := "create-stream"; fn_arguments := "{}" |};
                 {| fn_name := "get-stream"; fn_arguments := "{}" |}] |} []
           (0%nat, [])
           [annotation id "create-stream"
              (Raised (Exception "insufficient balance"));
            annotation id "get-stream" (Returned "call 1")]).
  - reflexivity.
  - apply (dispatched_cons sample_call id
             {| fn_name := "create-stream"; fn_arguments := "{}" |} _
             0%nat [] [ODict []] (HRef 0%nat) [ODict []; ODict []]
             (HRef 1%nat) 1%nat (Raised (Exception "insufficient balance")));
      [vm_compute; reflexivity..| |].
    { intros e [= <-]. reflexivity. }
    apply (dispatched_cons sample_call id
             {| fn_name := "get-stream"; fn_arguments := "{}" |} _
             1%nat [ODict []; ODict []] [ODict []; ODict []; ODict []]
             (HRef 2%nat) [ODict []; ODict []; ODict []; ODict []]
             (HRef 3%nat) 2%nat (Returned "call 1"));
      [vm_compute; reflexivity..| |].
    { intros e [=]. }
    apply dispatched_nil.
Defined.

(** C8 fails as stated: in [get_then_undecodable] the first invocation is
    called, the arguments of the second do not decode, and no text comes
    back, so none that has the annotation of the first before that of the
    second. *)
Lemma second_invocation_undecodable :
  tool_calls <$> head (choices get_then_undecodable)
  = Some [{| fn_name := "get-stream"; fn_arguments := "{}" |};
          {| fn_name := "cancel-stream"; fn_arguments := "stream 7" |}] /\
  openai_tool_calls sample_call id
    [{| fn_name := "get-stream"; fn_arguments := "{}" |}] [] (0%nat, [])
  = ((1%nat, [ODict []; ODict []]),
     Returned [nl +:+ "[调用工具 get-stream，结果: call 0]"]) /\
  openai_process_response sample_call id get_then_undecodable true (0%nat, [])
  = ((1%nat, [ODict []; ODict []]), Raised (Exception "JSONDecodeError")).
Proof. vm_compute. repeat split. Qed.

(** The text of the run on [create_then_get], and the text of the same
    run on an Anthropic response. *)
Example create_then_get_text :
  (openai_process_response sample_call id create_then_get true
     (0%nat, [])).2
  = Returned
      ("ok" +:+ nl +:+ nl
       +:+ "[调用工具 create-stream 失败: insufficient balance]" +:+ nl +:+ nl
       +:+ "[调用工具 get-stream，结果: call 1]").
Proof. vm_compute. reflexivity. Qed.

Example anthropic_create_then_get_text :
  (anthropic_process_response sample_call id
     [TextBlock "hi"; ToolUse "create-stream" (HRef 0%nat);
      ToolUse "get-stream" (HRef 0%nat)] true (0%nat, [ODict []])).2
  = Returned
      ("hi" +:+ nl +:+ nl
       +:+ "[调用工具 create-stream 失败: insufficient balance]" +:+ nl +:+ nl
       +:+ "[调用工具 get-stream，结果: call 1]").
Proof. vm_compute. reflexivity. Qed.

(** Arguments that are no JSON abort the query: the decoding stands
    outside the [try] of the loop. *)
Example undecodable_arguments_abort :
  (openai_process_response sample_call id
     {| choices := [{| content := None;
                       tool_calls := [{| fn_name := "get-stream";
                                         fn_arguments := "{" |}] |}] |}
     true (0%nat, [])).2
  = Raised (Exception "JSONDecodeError").
Proof. vm_compute. reflexivity. Qed.

(** A response without content and without invocations. *)
Example empty_response_text :
  openai_process_response sample_call id
    {| choices := [{| content := None; tool_calls := [] |}] |} true (0%nat, [])
  = ((0%nat, []), Returned placeholder_text).
Proof. vm_compute. reflexivity. Qed.

(** On the store of [preprocess_batch_run] the caller's list, object 1, is
    the same after the call. *)
Lemma preprocess_batch_keeps_list :
  (_preprocess_tool_args "batch-create-streams" (HRef 0%nat)
     [ODict [("depositAmounts", HRef 1%nat); ("startTime", HInt 5)];
      OList [HInt 1; HInt 18446744073709551616]]).1 !! 1%nat
  = Some (OList [HInt 1; HInt 18446744073709551616]).
Proof.
  apply (proj1 (preprocess_tool_args_no_mutation "batch-create-streams"
                  (HRef 0%nat)
                  [ODict [("depositAmounts", HRef 1%nat); ("startTime", HInt 5)];
                   OList [HInt 1; HInt 18446744073709551616]]) 1%nat).
  simpl. lia.
Defined.

(** ** Runs of the hub *)

(** A first connect of the default server that goes through. *)
Lemma connect_default_server_is_listed :
  let hub' :=
    {| connections :=
         {[ default_server_name :=
              attempt_connection moveflow_config (working_attempt 2 []) ]};
       exit_stack := [ResStdio; ResSession (sample_session 2)];
       connection_timeout := 30; connection_retries := 2;
       trace := [EvConnect default_server_name 1;
                 EvStore default_server_name (sample_session 2);
                 EvListTools default_server_name] |} in
  connected_at default_server_name hub' /\
  exists names,
    get_all_servers hub' = (hub', Returned names) /\
    default_server_name ∈ names.
Proof.
  intros hub'.
  apply (connect_true_is_listed (fun _ => working_attempt 2 [])
           default_server_name moveflow_config None None new_hub hub').
  vm_compute. reflexivity.
Defined.

(** A connect by carrier pigeon to the name of a connected session. *)
Lemma connect_by_pigeon :
  exists hub',
    connect_to_server (fun _ => working_attempt 2 []) default_server_name
      pigeon_config None (Some 5) connected_hub
    = Some (hub', Returned (Some false)) /\
    trace hub'
    = (trace connected_hub
         ++ removal_trace default_server_name connected_hub)%list /\
    connections hub' = delete default_server_name (connections connected_hub) /\
    exit_stack hub' = exit_stack connected_hub.
Proof.
  apply (connect_unsupported_transport (fun _ => working_attempt 2 [])
           default_server_name pigeon_config None (Some 5) connected_hub).
  - reflexivity.
  - reflexivity.
  - simpl. lia.
Defined.

Lemma flaky_env_fails_twice i :
  1 <= i <= 2 -> attempt_fails moveflow_config (flaky_env i) = true.
Proof.
  intros Hi. unfold flaky_env.
  assert ((i <=? 2) = true) as -> by (apply Z.leb_le; lia). reflexivity.
Qed.

(** With the default bound of two retries, the third attempt of
    [flaky_env] connects. *)
Lemma connect_third_attempt_succeeds :
  exists hub',
    connect_to_server flaky_env default_server_name moveflow_config None None
      new_hub
    = Some (hub', Returned (Some true)) /\
    trace hub'
    = (trace new_hub ++ removal_trace default_server_name new_hub
         ++ failed_trace default_server_name 1 2
         ++ [EvConnect default_server_name (Z.of_nat 2 + 1);
             EvStore default_server_name
               (attempt_session moveflow_config (flaky_env (Z.of_nat 2 + 1)));
             EvListTools default_server_name])%list /\
    count_connects (failed_trace default_server_name 1 2) = 2%nat.
Proof.
  apply (connect_succeeds_after_failures flaky_env default_server_name
           moveflow_config None None new_hub 2).
  - simpl. lia.
  - apply flaky_env_fails_twice.
  - vm_compute. reflexivity.
Defined.

(** A connect whose tool-list request times out. *)
Lemma connect_with_slow_tools :
  exists hub' c,
    connect_to_server (fun _ => slow_tools_attempt) default_server_name
      moveflow_config None None new_hub
    = Some (hub', Returned (Some true)) /\
    connections hub' !! default_server_name = Some c /\
    conn_session c = attempt_session moveflow_config slow_tools_attempt /\
    conn_status c = "connected" /\
    conn_error c = None /\
    conn_tools c = attempt_tools moveflow_config slow_tools_attempt /\
    (load_tools_timed_out slow_tools_attempt = true -> conn_tools c = None) /\
    (forall n, n <> default_server_name ->
               connections hub' !! n = connections new_hub !! n).
Proof.
  apply (connect_stores_session_and_tools (fun _ => slow_tools_attempt)
           default_server_name moveflow_config None None new_hub 0).
  - simpl. lia.
  - intros i Hi. lia.
  - vm_compute. reflexivity.
Defined.

(** Four retries, five requests. *)
Lemma connect_exhausts_four_retries :
  exists hub',
    connect_to_server (fun _ => failing_attempt) default_server_name
      moveflow_config None (Some 4) connected_hub
    = Some (hub', Returned (Some false)) /\
    trace hub'
    = (trace connected_hub
         ++ removal_trace default_server_name connected_hub
         ++ failed_trace default_server_name 1
              (Z.to_nat (int_or (Some 4) (connection_retries connected_hub)))
         ++ [EvConnect default_server_name
               (int_or (Some 4) (connection_retries connected_hub) + 1)])%list /\
    connections hub' = delete default_server_name (connections connected_hub).
Proof.
  apply (connect_exhausts_retries (fun _ => failing_attempt)
           default_server_name moveflow_config None (Some 4) connected_hub).
  - intros i. reflexivity.
  - simpl. lia.
Defined.

(** A resource read that the HTTP server refuses. *)
Lemma read_resource_refused :
  (read_resource sample_resources "remote" "moveflow://streams/active"
     remote_hub).2
  = Raised (Exception ("读取资源失败: " +:+ pretty 404 +:+ ", " +:+ "not found")).
Proof.
  apply (proj1 (proj2 (proj2 (proj2 (proj2
           (read_resource_errors sample_resources "remote"
              "moveflow://streams/active" remote_hub)))))
           (new_connection sse (sample_session 4)
              (Some "http://localhost:8080/sse") sse_config)
           404 VNone "not found").
  - vm_compute. reflexivity.
  - reflexivity.
  - reflexivity.
  - lia.
Defined.

(** A resource listing on a broken pipe. *)
Lemma get_resources_broken_pipe :
  (get_resources sample_resources default_server_name connected_hub).2
  = Returned (VList []).
Proof.
  apply (proj1 (proj2 (proj2 (proj2
           (get_resources_never_fails sample_resources default_server_name
              connected_hub))))
           moveflow_connection (Exception "broken pipe")).
  - vm_compute. reflexivity.
  - left. split; reflexivity.
  - reflexivity.
Defined.

(** Loading tools on the connected hub keeps its session and replaces the
    cached list only. *)
Lemma load_tools_keeps_session :
  exists ts,
    connections (load_tools no_tools default_server_name connected_hub).1
      !! default_server_name
    = Some {| conn_transport := conn_transport moveflow_connection;
              conn_session := conn_session moveflow_connection;
              conn_url := conn_url moveflow_connection;
              conn_config := conn_config moveflow_connection;
              conn_tools := ts;
              conn_status := conn_status moveflow_connection;
              conn_error := conn_error moveflow_connection |}.
Proof.
  apply (proj2 (proj2 (proj2 (proj2 (proj2
           (requests_keep_the_registry
              {| call_tool_reply := Returned VNone;
                 http_call_reply := Returned (200, VNone, "") |}
              no_tools default_server_name "x" VNone connected_hub)))))
           moveflow_connection).
  vm_compute. reflexivity.
Defined.

(** ** Runs of the argument preprocessing *)

(** The request [stream_request]: the amount becomes its digits and the
    flag a boolean. *)
Lemma create_stream_request_coerced :
  exists items',
    _preprocess_tool_args "create-stream" (HRef 0%nat) [ODict stream_request]
    = ([ODict stream_request; ODict items'], Returned (HRef 1%nat)) /\
    dict_get "depositAmount" items' = Some (HStr "7") /\
    dict_get "isFa" items' = Some (HBool true) /\
    dict_get "recipient" items' = Some (HStr "0x1").
Proof.
  destruct (create_stream_coercions [ODict stream_request] 0%nat
              stream_request eq_refl)
    as (items' & Hrun & _ & Hnum & Hbool & Hother).
  exists items'. split; [exact Hrun|]. split; [|split].
  - destruct (Hnum "depositAmount" (HInt 7)) as (s & Hs & Hscalar).
    + repeat constructor.
    + reflexivity.
    + rewrite Hs, (Hscalar eq_refl). reflexivity.
  - apply (Hbool "isFa" (HStr "True")).
    + repeat constructor.
    + reflexivity.
  - rewrite (Hother "recipient").
    + reflexivity.
    + by apply (bool_decide_unpack _).
    + by apply (bool_decide_unpack _).
Defined.

(** An amount list given as the number 5. *)
Lemma batch_amount_given_as_number :
  stringify_items 0%nat "depositAmounts" [ODict [("depositAmounts", HInt 5)]]
  = ([ODict [("depositAmounts", HInt 5)]],
     Raised (Exception "'int' object is not iterable")).
Proof.
  apply (proj2 (proj2 (proj2 (proj2
           (batch_amounts_by_value [] [] [("depositAmounts", HInt 5)]
              "depositAmounts")))) 5).
  - reflexivity.
  - lia.
Defined.

(** ** Runs of the agent *)

(** In [get_then_garbled] the first invocation is made, the second cannot
    be decoded, and the response ends with that error. *)
Lemma garbled_arguments_end_the_response :
  openai_process_response sample_call id get_then_garbled true (0%nat, [])
  = ((1%nat, [ODict []; ODict []]), Raised (Exception "JSONDecodeError")).
Proof.
  apply (proj1 (arguments_error_aborts sample_call id id)
           get_then_garbled
           {| content := Some "ok"; tool_calls := [{| fn_name := "get-stream"; fn_arguments := "{}" |};
                             {| fn_name := "create-stream"; fn_arguments := "{" |};
                             {| fn_name := "get-stream"; fn_arguments := "{}" |}] |}
           []
           [{| fn_name := "get-stream"; fn_arguments := "{}" |}]
           {| fn_name := "create-stream"; fn_arguments := "{" |}
           [{| fn_name := "get-stream"; fn_arguments := "{}" |}]
           (0%nat, [])
           [annotation id "get-stream" (Returned "call 0")]
           1%nat [ODict []; ODict []] [ODict []; ODict []]
           (Exception "JSONDecodeError")).
  - reflexivity.
  - reflexivity.
  - apply (dispatched_cons sample_call id
             {| fn_name := "get-stream"; fn_arguments := "{}" |} []
             0%nat [] [ODict []] (HRef 0%nat) [ODict []; ODict []]
             (HRef 1%nat) 1%nat (Returned "call 0") []
             (1%nat, [ODict []; ODict []])).
    + reflexivity.
    + reflexivity.
    + reflexivity.
    + intros e He. discriminate He.
    + apply dispatched_nil.
  - left. reflexivity.
Defined.

(** A response of two texts around a block of an unknown type. *)
Lemma texts_around_unknown_block :
  anthropic_process_response sample_call id
    [TextBlock "hello"; OtherBlock; TextBlock "bye"] true (0%nat, [])
  = ((0%nat, []), Returned ("hello" +:+ nl +:+ "bye")).
Proof.
  apply (proj1 (proj2 (anthropic_blocks_in_order sample_call id))
           [TextBlock "hello"; OtherBlock; TextBlock "bye"] (0%nat, [])).
  reflexivity.
Defined.

(** The status of the connected hub: its configuration sets READ_ONLY_MODE
    to [true]. *)
Lemma connected_hub_is_read_only :
  str_contains "**只读模式**"
    (check_server_status connected_hub default_server_name) = true.
Proof.
  apply (proj2 (status_offers_signing connected_hub default_server_name
                  moveflow_connection eq_refl)).
  right. exists "true". split; reflexivity.
Defined.

(** A query on a hub without sessions. *)
Lemma query_without_session :
  process_query (fun _ => true) broken_list_tools sample_generate
    (fun r _ session => openai_process_response sample_call id r session)
    new_hub "list my streams" None (0%nat, [])
  = ((0%nat, []), Returned (not_connected_text default_server_name)).
Proof.
  apply (proj1 (process_query_without_requests (fun _ => true)
                  broken_list_tools sample_generate
                  (fun r _ session =>
                     openai_process_response sample_call id r session)
                  new_hub "list my streams" None (0%nat, []))).
  reflexivity.
Defined.

(** A query on the connected hub when the tool list cannot be fetched. *)
Lemma query_on_broken_pipe :
  process_query (fun _ => true) broken_list_tools sample_generate
    (fun r _ session => openai_process_response sample_call id r session)
    connected_hub "list my streams" None (0%nat, [])
  = ((1%nat, []), Returned (query_error_text (Exception "broken pipe"))).
Proof.
  apply (proj1 (proj2 (process_query_reports_errors (fun _ => true)
                         broken_list_tools sample_generate
                         (fun r _ session =>
                            openai_process_response sample_call id r session)
                         connected_hub "list my streams" None
                         moveflow_connection eq_refl)
                  eq_refl eq_refl)
           0%nat [] 1%nat (Exception "broken pipe")).
  - reflexivity.
  - reflexivity.
Defined.

(** AI_SERVICE set to [OpenAI], through [main]. *)
Lemma main_refuses_capitalised_name :
  create_service str_lower None (Some "OpenAI") = Returned OpenAIService /\
  main_service str_lower (Some "OpenAI")
  = Raised (Exception ("不支持的AI服务类型: " +:+ "OpenAI")).
Proof.
  split.
  - apply (proj1 (proj2 (proj2
             (create_service_names str_lower (fun s _ => eq_refl))))
             "OpenAI").
    + reflexivity.
    + reflexivity.
  - apply (proj2 (proj2 (proj2 (proj2 (proj2
             (create_service_names str_lower (fun s _ => eq_refl))))))
             "OpenAI").
    + reflexivity.
    + discriminate.
Defined.

(** ** Runs of the configuration module *)

(** MOVEFLOW_READ_ONLY set to [yes] turns the read-only mode off. *)
Lemma read_only_yes_is_false :
  (get_read_only id sample_process).2 = Returned (VBool false).
Proof.
  apply (proj1 (proj2 (proj2 (proj2
           (config_priority id sample_process eq_refl))))).
Defined.

(** An update whose write fails is still seen by the process. *)
Lemma update_survives_failed_write :
  (get_network id
     (update_config id failing_write "network" (VStr "devnet")
        sample_process).1).2
  = Returned (VStr "devnet").
Proof.
  destruct (update_config_round_trip id failing_write sample_process
              "network" (VStr "devnet"))
    as (config & _ & _ & _ & _ & _ & Hload & _).
  apply (Hload _ eq_refl).
Defined.

(** ** Runs of the client and of the signer *)

(** The identifier announced by [prepared_text]: the full stop ends it. *)
Lemma prepared_text_names_tx_42 :
  "tx_42" <> "" /\
  forallb is_word_char (String.list_ascii_of_string "tx_42") = true /\
  exists before after,
    prepared_text = before +:+ "transactionId: " +:+ "tx_42" +:+ after /\
    match after with
    | String c _ => is_word_char c = false
    | EmptyString => True
    end.
Proof.
  apply (proj1 (search_tx_id_finds_the_pattern prepared_text) "tx_42").
  vm_compute. reflexivity.
Defined.

(** [pause-stream] on the echoing server: the answer has no [content] of
    its own and comes back wrapped. *)
Lemma pause_stream_is_wrapped :
  exists out,
    MoveFlowClient._handle_tool_call echo_call (fun _ => "<response>")
      "pause-stream" (VDict [("streamId", VStr "7")]) 0%nat
    = (1%nat, Returned out) /\
    is_standard out = true.
Proof.
  destruct (handle_tool_call_is_standard echo_call (fun _ => "<response>")
              "pause-stream" (VDict [("streamId", VStr "7")]) 0%nat)
    as (out & Hrun & Hstd & _).
  exists out. split; [exact Hrun|exact Hstd].
Defined.

(** The prepared transaction of [prepared_response] is fetched, signed and
    submitted: the submission is the server's request number 1. *)
Lemma prepared_response_is_submitted :
  MoveFlowClient._handle_transaction_preparation echo_call sample_get_data
    sample_sign prepared_response 0%nat
  = echo_call "submit-signed-transaction"
      (VDict [("transactionId", VStr "tx_42");
              ("signedTransaction", VDict [("signature", VStr "0xsig")])])
      1%nat.
Proof.
  refine (proj1
            (proj1
               (proj2
                  (proj2 (prepared_transaction_is_signed_once echo_call
                            sample_get_data sample_sign
                            [("result",
                              VDict [("content", VList prepared_items)])])
                     [("content", VList prepared_items)] prepared_items
                     eq_refl eq_refl)
                  [VDict [("type", VStr "text"); ("text", VStr "Stream ready.")]]
                  (VDict [("type", VStr "text"); ("text", VStr prepared_text)])
                  [] prepared_text "tx_42" 0%nat 1%nat
                  (VDict [("rawTxn", VStr "tx_42")])
                  eq_refl _ eq_refl _ eq_refl)
               eq_refl)
            1%nat (VDict [("signature", VStr "0xsig")]) eq_refl).
  - constructor; [|constructor].
    exists "Stream ready.". split; [reflexivity|vm_compute; reflexivity].
  - vm_compute. reflexivity.
Defined.

(** A client made with a key keeps to it when the environment names
    another. *)
Lemma constructor_key_wins :
  MoveFlowClient._ensure_account_loaded sample_load_key (Some "0xabcdef")
    {| MoveFlowClient._private_key := Some "0x12";
       MoveFlowClient._account := None |}
  = ({| MoveFlowClient._private_key := Some "0x12";
        MoveFlowClient._account := Some 4%nat |}, Returned 4%nat).
Proof.
  apply (proj1 (proj1 (proj2 (client_key_resolution sample_load_key
                                {| MoveFlowClient._private_key := Some "0x12";
                                   MoveFlowClient._account := None |}
                                (Some "0xabcdef"))) eq_refl) "0x12").
  - reflexivity.
  - discriminate.
Defined.

(** A key in the environment that is refused: the signer fails and does
    not ask the user. *)
Lemma refused_key_is_not_asked_again :
  AptosSigner.ensure_account_loaded sample_load_key (Some "secret")
    (Returned "0x12")
    {| AptosSigner._account := None; AptosSigner.prompts := 0 |}
  = ({| AptosSigner._account := None; AptosSigner.prompts := 0 |},
     Raised (Exception "invalid key")).
Proof.
  apply (proj1 (proj2 (signer_key_resolution sample_load_key
                         {| AptosSigner._account := None;
                            AptosSigner.prompts := 0 |}
                         (Some "secret") (Returned "0x12")) eq_refl)
           "secret").
  - reflexivity.
  - discriminate.
Defined.

(** A client for the test network made with the caller's configuration of
    [callers_store]: the caller's environment now names the test network
    and keeps its DEBUG entry. *)
Lemma callers_env_is_overwritten :
  exists c h' env',
    MoveFlowClient.__init__ (Returned (HStr "mainnet"))
      (Returned (HStr "https://fullnode.mainnet.aptoslabs.com/v1"))
      (Returned (HBool true)) str_lower "@amyseer/moveflow-aptos-mcp-server"
      (HRef 0%nat) (HStr "testnet") HNone (HBool false) HNone HNone
      callers_store
    = (h', Returned c) /\
    MoveFlowClient.server_config c = HRef 0%nat /\
    h' !! 1%nat = Some (ODict env') /\
    dict_get "APTOS_NETWORK" env' = Some (HStr "testnet") /\
    dict_get "READ_ONLY_MODE" env' = Some (HStr "false") /\
    dict_get "DEBUG" env' = Some (HStr "1").
Proof.
  destruct (init_writes_into_the_callers_config
              (Returned (HStr "mainnet"))
              (Returned (HStr "https://fullnode.mainnet.aptoslabs.com/v1"))
              (Returned (HBool true)) str_lower
              "@amyseer/moveflow-aptos-mcp-server"
              callers_store 0%nat 1%nat
              [("command", HStr "node"); ("env", HRef 1%nat)]
              [("APTOS_NETWORK", HStr "mainnet"); ("DEBUG", HStr "1")]
              (HStr "testnet") HNone (HBool false) HNone HNone
              true false false
              (HStr "mainnet")
              (HStr "https://fullnode.mainnet.aptoslabs.com/v1")
              (HBool true)
              eq_refl eq_refl eq_refl ltac:(discriminate)
              eq_refl eq_refl eq_refl eq_refl eq_refl eq_refl)
    as (c & h' & env' & Hrun & Hcfg & Hn & _ & Hr & _ & He & Hen & _ & Her
        & Hother & _).
  exists c, h', env'. split; [exact Hrun|]. split; [exact Hcfg|].
  split; [exact He|]. split; [|split].
  - rewrite Hen, Hn. reflexivity.
  - rewrite Her, Hr. reflexivity.
  - rewrite Hother by discriminate. reflexivity.
Defined.
